(** * Kuma control plane: route table builder, TLS context synthesis and
      dataplane metadata decoding

    A shallow embedding of
    - [pkg/plugins/runtime/gateway/gateway_route_generator.go]
      (package [gateway]: [filterGatewayRoutes], [GenerateHost],
      [makeRouteEntry], [makeRouteMatch]),
    - the [xds] metadata tracker ([DataplaneMetadata], its accessors,
      [DataplaneMetadataFromXdsMetadata], [uint32Metadata]),
    - the [v3] TLS helpers ([CreateDownstreamTlsContext],
      [CreateUpstreamTlsContext], the SPIFFE matchers),
    followed by the properties stated about them.

    Go maps are [gmap]s; ranging over a Go map visits its entries in an
    order the language leaves open, which is modelled by a [MapOrder]
    argument that every property quantifies over.  Go strings are byte
    strings, modelled by [string]. *)

From Stdlib Require Import ZArith Lia Ascii String.
From stdpp Require Import gmap strings list fin_maps pretty.

Set Warnings "-register-all".
#[local] Open Scope string_scope.
#[local] Open Scope list_scope.
#[local] Open Scope stdpp_scope.

(* ===================================================================== *)
(** * Go runtime and standard library                                     *)
(* ===================================================================== *)

Module strings.

(** [strings.TrimRight(s, cutset)] with a one-byte ASCII cutset takes the
    [trimRightByte] path of the library,
    [for len(s) > 0 && s[len(s)-1] == c { s = s[:len(s)-1] }]:
    it removes the run of [c] at the end of [s].  Computed here from the
    front: the tail is trimmed first, and the head goes too when nothing
    is left of the tail and the head is [c]. *)
Fixpoint trimRightByte (s : string) (c : ascii) : string :=
  match s with
  | EmptyString => EmptyString
  | String a s' =>
      match trimRightByte s' c with
      | EmptyString => if Ascii.eqb a c then EmptyString else String a EmptyString
      | t => String a t
      end
  end.

(** The last byte of a string, [s[len(s)-1]], when there is one. *)
Fixpoint lastByte (s : string) : option ascii :=
  match s with
  | EmptyString => None
  | String a EmptyString => Some a
  | String _ s' => lastByte s'
  end.

(** [strings.Repeat(string(c), n)]. *)
Fixpoint repeatByte (c : ascii) (n : nat) : string :=
  match n with
  | O => EmptyString
  | S n' => String c (repeatByte c n')
  end.

End strings.

(** Go's [map] iteration: [for k, v := range m] visits every entry once, in
    an order that is not specified and may differ from run to run.  A
    [MapOrder] is one such choice of order for every map; a function that
    ranges over several maps takes one [MapOrder] per loop, so that the
    orders of its loops are independent. *)
Record MapOrder (V : Type) : Type := mkMapOrder {
  range : gmap string V → list (string * V);
  range_perm : ∀ m, range m ≡ₚ map_to_list m
}.
Arguments range {V} _ _.
Arguments range_perm {V} _ _.

(** The order in which [map_to_list] lists the entries is one admissible
    order, its reverse another. *)
Definition listedOrder (V : Type) : MapOrder V :=
  {| range := map_to_list; range_perm := λ m, reflexivity (map_to_list m) |}.

Definition reversedOrder (V : Type) : MapOrder V :=
  {| range := λ m, reverse (map_to_list m);
     range_perm := λ m, reverse_Permutation (map_to_list m) |}.

(** Fixed-width Go numbers are carried as [Z]; a [float64] is carried as its
    IEEE-754 bit pattern, which the code only copies. *)
Definition uint32 : Type := Z.
Definition float64 : Type := Z.

(* ===================================================================== *)
(** * Package [mesh_proto]: the GatewayRoute messages read by the builder  *)
(* ===================================================================== *)

(** The protobuf getters are nil-safe: a nil message reads as the message
    with every field at its zero value, so a message pointer is modelled by
    the record it points to and a nil pointer by the zero record.  Enum
    types are [int32] in Go and therefore open: every enum below has a
    constructor for numbers that carry no declared name. *)
Module mesh_proto.

Module Path.
Inductive MatchType := EXACT | PREFIX | REGEX | unrecognized (n : Z).
Record t := mk { GetMatch : MatchType; GetValue : string }.
End Path.

Module Header.
Inductive MatchType := EXACT | REGEX | unrecognized (n : Z).
Record t := mk { GetMatch : MatchType; GetName : string; GetValue : string }.
End Header.

Module Query.
Inductive MatchType := EXACT | REGEX | unrecognized (n : Z).
Record t := mk { GetMatch : MatchType; GetName : string; GetValue : string }.
End Query.

(** [GatewayRoute_HttpRoute_Match_Method]. *)
Inductive Method :=
  | NONE | CONNECT | DELETE | GET | HEAD | OPTIONS | PATCH | POST | PUT | TRACE
  | Method_unrecognized (n : Z).

(** [GatewayRoute_HttpRoute_Match]; [GetPath] is a message pointer that is
      tested against nil, hence the [option]. *)
Module Match.
Record t := mk {
      GetPath : option Path.t;
      GetMethod : Method;
      GetHeaders : list Header.t;
      GetQueryParameters : list Query.t
    }.
End Match.

Module Backend.
Record t := mk { GetWeight : uint32; GetDestination : gmap string string }.
End Backend.

Module HeaderPair.
Record t := mk { GetName : string; GetValue : string }.
End HeaderPair.

Module Redirect.
Record t := mk {
      GetStatusCode : uint32; GetScheme : string;
      GetHostname : string; GetPort : uint32
    }.
End Redirect.

(** [Mirror]: [GetPercentage().GetValue()] of an absent wrapper is 0;
      [Backend] is read through its nil-safe getter. *)
Module Mirror.
Record t := mk { GetPercentage : float64; Backend : Backend.t }.
End Mirror.

Module RequestHeader.
Record t := mk {
      GetSet : list HeaderPair.t;
      GetAdd : list HeaderPair.t;
      GetRemove : list string
    }.
End RequestHeader.

(** [GatewayRoute_HttpRoute_Filter]: a oneof; [GetRedirect], [GetMirror]
      and [GetRequestHeader] return nil unless the filter holds that
      alternative. *)
Module Filter.
Inductive t :=
    | Redirect (r : Redirect.t)
    | Mirror (m : Mirror.t)
    | RequestHeader (h : RequestHeader.t)
    | unset.
Definition GetRedirect (f : t) : option Redirect.t :=
      match f with Redirect r => Some r | _ => None end.
Definition GetMirror (f : t) : option Mirror.t :=
      match f with Mirror m => Some m | _ => None end.
Definition GetRequestHeader (f : t) : option RequestHeader.t :=
      match f with RequestHeader h => Some h | _ => None end.
End Filter.

Module Rule.
Record t := mk {
      GetMatches : list Match.t;
      GetFilters : list Filter.t;
      GetBackends : list Backend.t
    }.
End Rule.

(** [GatewayRoute_HttpRoute]. *)
Module HttpRoute.
Record t := mk { Hostnames : list string; Rules : list Rule.t }.
(** The getters on a possibly-nil [*HttpRoute]. *)
Definition GetHostnames (h : option t) : list string :=
      match h with Some h => Hostnames h | None => [] end.
Definition GetRules (h : option t) : list Rule.t :=
      match h with Some h => Rules h | None => [] end.
End HttpRoute.

(** [GatewayRoute]: [GetConf().GetHttp()] is nil when the spec, the conf
      or its HTTP alternative is unset. *)
Module GatewayRoute.
Record t := mk { Http : option HttpRoute.t }.
Definition GetHttp (g : t) : option HttpRoute.t := Http g.
End GatewayRoute.

End mesh_proto.

(* ===================================================================== *)
(** * Package [route]: the route table filled by the builder               *)
(* ===================================================================== *)

Module route.

Record KeyValue := mkKeyValue { Key : string; Value : string }.
Definition Pair (k v : string) : KeyValue := mkKeyValue k v.

Record Match := mkMatch {
    ExactPath : string;
    PrefixPath : string;
    RegexPath : string;
    Method : string;
    ExactHeader : list KeyValue;
    RegexHeader : list KeyValue;
    ExactQuery : list KeyValue;
    RegexQuery : list KeyValue
  }.

Record Destination := mkDestination {
    Destination_Destination : gmap string string;
    Destination_Weight : uint32;
    Destination_Policies : option (list string)
  }.

Record Redirection := mkRedirection {
    Status : uint32; Scheme : string; Host : string; Port : uint32;
    StripQuery : bool
  }.

Record Mirror := mkMirror { Percentage : float64; Mirror_Forward : Destination }.

Record Headers := mkHeaders {
    Replace : list KeyValue; Append : list KeyValue; Delete : list string
  }.

Record Action := mkAction {
    Forward : list Destination;
    Redirect : option Redirection
  }.

Record Entry := mkEntry {
    Entry_Match : Match;
    Entry_Action : Action;
    Entry_Mirror : option Mirror;
    Entry_RequestHeaders : option Headers
  }.

(** The zero values [route.Match{}], [route.Entry{}], [route.Headers{}]. *)
Definition Match_zero : Match := mkMatch "" "" "" "" [] [] [] [].
Definition Entry_zero : Entry := mkEntry Match_zero (mkAction [] None) None None.
Definition Headers_zero : Headers := mkHeaders [] [] [].

(** Field assignments [e.Match = m], [e.Match.PrefixPath = p],
      [e.Match.ExactPath = p] on a struct value. *)
Definition setMatch (e : Entry) (m : Match) : Entry :=
    mkEntry m (Entry_Action e) (Entry_Mirror e) (Entry_RequestHeaders e).
Definition setPrefixPath (e : Entry) (p : string) : Entry :=
    let m := Entry_Match e in
    setMatch e (mkMatch (ExactPath m) p (RegexPath m) (Method m)
                  (ExactHeader m) (RegexHeader m) (ExactQuery m) (RegexQuery m)).
Definition setExactPath (e : Entry) (p : string) : Entry :=
    let m := Entry_Match e in
    setMatch e (mkMatch p (PrefixPath m) (RegexPath m) (Method m)
                  (ExactHeader m) (RegexHeader m) (ExactQuery m) (RegexQuery m)).

(** The path classification of an entry, as the builder's [switch] reads
      it: Exact when [ExactPath] is set, else Prefix when [PrefixPath] is
      set, else Other. *)
Inductive PathKind := Exact | Prefix | Other.
#[export] Instance PathKind_eq_dec : EqDecision PathKind.
Proof. solve_decision. Defined.
Definition kindOf (m : Match) : PathKind :=
    if decide (ExactPath m ≠ "") then Exact
    else if decide (PrefixPath m ≠ "") then Prefix
    else Other.

Record Table := mkTable { Entries : list Entry }.

End route.

(* ===================================================================== *)
(** * Packages [core_mesh], [model] and [core_xds]                         *)
(* ===================================================================== *)

Module core_mesh.
(** The resources are opaque to the code under study apart from the
      gateway route's spec; each carries its name. *)
Record DataplaneResource := mkDataplaneResource { Dataplane_Name : string }.
Record ZoneIngressResource := mkZoneIngressResource { ZoneIngress_Name : string }.
Record GatewayRouteResource := mkGatewayRouteResource {
    GatewayRoute_Name : string;
    Spec : mesh_proto.GatewayRoute.t
  }.
End core_mesh.

Module model.
(** A non-nil [model.Resource] interface value, by dynamic type; a nil
      interface is [None : option Resource].  [Descriptor().Name] is the
      resource type name. *)
Inductive Resource :=
  | Dataplane (d : core_mesh.DataplaneResource)
  | ZoneIngress (z : core_mesh.ZoneIngressResource)
  | GatewayRoute (g : core_mesh.GatewayRouteResource)
  | OtherResource (typeName : string).

Definition DescriptorName (r : Resource) : string :=
    match r with
    | Dataplane _ => "Dataplane"
    | ZoneIngress _ => "ZoneIngress"
    | GatewayRoute _ => "GatewayRoute"
    | OtherResource n => n
    end.
End model.

Module core_xds.
(** [core_xds.ResourceSet], of which the builder only ever returns a nil
      pointer; a set is the list of the names of its resources. *)
Record ResourceSet := mkResourceSet { resourceNames : list string }.
Definition error : Type := string.
End core_xds.

(* ===================================================================== *)
(** * Package [gateway]: [gateway_route_generator.go]                      *)
(* ===================================================================== *)

Module gateway.
Import route.

Record Host := mkHost { Hostname : string; Routes : list model.Resource }.
Record Listener := mkListener { Listener_Port : uint32; Listener_ResourceName : string }.

(** [GatewayResourceInfo], with the caller-owned route table the builder
    appends to. *)
Record GatewayResourceInfo := mkInfo {
  Info_Host : Host;
  Info_Listener : Listener;
  RouteTable : route.Table
}.

Definition setEntries (info : GatewayResourceInfo) (es : list Entry) : GatewayResourceInfo :=
  mkInfo (Info_Host info) (Info_Listener info) (mkTable es).

(** [filterGatewayRoutes]: the resources of dynamic type
    [*GatewayRouteResource] that [accept] lets through, in input order. *)
Definition filterGatewayRoutes (in_ : list model.Resource)
    (accept : core_mesh.GatewayRouteResource → bool)
    : list core_mesh.GatewayRouteResource :=
  foldl (λ routes r,
           match r with
           | model.GatewayRoute trafficRoute =>
               if accept trafficRoute then routes ++ [trafficRoute] else routes
           | _ => routes
           end) [] in_.

(** Assignments to the fields of a [route.Match] value. *)
Definition withExactPath (m : Match) (v : string) : Match :=
  mkMatch v (PrefixPath m) (RegexPath m) (Method m)
    (ExactHeader m) (RegexHeader m) (ExactQuery m) (RegexQuery m).
Definition withPrefixPath (m : Match) (v : string) : Match :=
  mkMatch (ExactPath m) v (RegexPath m) (Method m)
    (ExactHeader m) (RegexHeader m) (ExactQuery m) (RegexQuery m).
Definition withRegexPath (m : Match) (v : string) : Match :=
  mkMatch (ExactPath m) (PrefixPath m) v (Method m)
    (ExactHeader m) (RegexHeader m) (ExactQuery m) (RegexQuery m).
Definition withMethod (m : Match) (v : string) : Match :=
  mkMatch (ExactPath m) (PrefixPath m) (RegexPath m) v
    (ExactHeader m) (RegexHeader m) (ExactQuery m) (RegexQuery m).
Definition withExactHeader (m : Match) (v : list KeyValue) : Match :=
  mkMatch (ExactPath m) (PrefixPath m) (RegexPath m) (Method m)
    v (RegexHeader m) (ExactQuery m) (RegexQuery m).
Definition withRegexHeader (m : Match) (v : list KeyValue) : Match :=
  mkMatch (ExactPath m) (PrefixPath m) (RegexPath m) (Method m)
    (ExactHeader m) v (ExactQuery m) (RegexQuery m).
Definition withExactQuery (m : Match) (v : list KeyValue) : Match :=
  mkMatch (ExactPath m) (PrefixPath m) (RegexPath m) (Method m)
    (ExactHeader m) (RegexHeader m) v (RegexQuery m).
Definition withRegexQuery (m : Match) (v : list KeyValue) : Match :=
  mkMatch (ExactPath m) (PrefixPath m) (RegexPath m) (Method m)
    (ExactHeader m) (RegexHeader m) (ExactQuery m) v.

(** The map literal [names] of [makeRouteMatch]; [None] is a missing key. *)
Definition names (m : mesh_proto.Method) : option string :=
  match m with
  | mesh_proto.CONNECT => Some "CONNECT"
  | mesh_proto.DELETE => Some "DELETE"
  | mesh_proto.GET => Some "GET"
  | mesh_proto.HEAD => Some "HEAD"
  | mesh_proto.OPTIONS => Some "OPTIONS"
  | mesh_proto.PATCH => Some "PATCH"
  | mesh_proto.POST => Some "POST"
  | mesh_proto.PUT => Some "PUT"
  | mesh_proto.TRACE => Some "TRACE"
  | mesh_proto.NONE | mesh_proto.Method_unrecognized _ => None
  end.

Definition isNONE (m : mesh_proto.Method) : bool :=
  match m with mesh_proto.NONE => true | _ => false end.

(** [makeRouteMatch]. Indexing a Go map with a missing key yields the zero
    value, here the empty string. *)
Definition makeRouteMatch (ruleMatch : mesh_proto.Match.t) : Match :=
  let match_ := Match_zero in
  let match_ :=
    match mesh_proto.Match.GetPath ruleMatch with
    | Some p =>
        match mesh_proto.Path.GetMatch p with
        | mesh_proto.Path.EXACT => withExactPath match_ (mesh_proto.Path.GetValue p)
        | mesh_proto.Path.PREFIX => withPrefixPath match_ (mesh_proto.Path.GetValue p)
        | mesh_proto.Path.REGEX => withRegexPath match_ (mesh_proto.Path.GetValue p)
        | mesh_proto.Path.unrecognized _ => match_
        end
    | None => match_
    end in
  let match_ :=
    let m := mesh_proto.Match.GetMethod ruleMatch in
    if isNONE m then match_ else withMethod match_ (default "" (names m)) in
  let match_ :=
    foldl (λ match_ h,
             match mesh_proto.Header.GetMatch h with
             | mesh_proto.Header.EXACT =>
                 withExactHeader match_
                   (ExactHeader match_ ++
                      [Pair (mesh_proto.Header.GetName h) (mesh_proto.Header.GetValue h)])
             | mesh_proto.Header.REGEX =>
                 withRegexHeader match_
                   (RegexHeader match_ ++
                      [Pair (mesh_proto.Header.GetName h) (mesh_proto.Header.GetValue h)])
             | mesh_proto.Header.unrecognized _ => match_
             end) match_ (mesh_proto.Match.GetHeaders ruleMatch) in
  let match_ :=
    foldl (λ match_ q,
             match mesh_proto.Query.GetMatch q with
             | mesh_proto.Query.EXACT =>
                 withExactQuery match_
                   (ExactQuery match_ ++
                      [Pair (mesh_proto.Query.GetName q) (mesh_proto.Query.GetValue q)])
             | mesh_proto.Query.REGEX =>
                 withRegexQuery match_
                   (RegexQuery match_ ++
                      [Pair (mesh_proto.Query.GetName q) (mesh_proto.Query.GetValue q)])
             | mesh_proto.Query.unrecognized _ => match_
             end) match_ (mesh_proto.Match.GetQueryParameters ruleMatch) in
  match_.

(** Assignments to the fields of a [route.Entry] value. *)
Definition withForward (e : Entry) (v : list Destination) : Entry :=
  mkEntry (Entry_Match e) (mkAction v (Redirect (Entry_Action e)))
    (Entry_Mirror e) (Entry_RequestHeaders e).
Definition withRedirect (e : Entry) (v : option Redirection) : Entry :=
  mkEntry (Entry_Match e) (mkAction (Forward (Entry_Action e)) v)
    (Entry_Mirror e) (Entry_RequestHeaders e).
Definition withMirror (e : Entry) (v : option Mirror) : Entry :=
  mkEntry (Entry_Match e) (Entry_Action e) v (Entry_RequestHeaders e).
Definition withRequestHeaders (e : Entry) (v : option Headers) : Entry :=
  mkEntry (Entry_Match e) (Entry_Action e) (Entry_Mirror e) v.

Definition pairOf (s : mesh_proto.HeaderPair.t) : KeyValue :=
  Pair (mesh_proto.HeaderPair.GetName s) (mesh_proto.HeaderPair.GetValue s).

(** The body of the [GetRequestHeader] branch of [makeRouteEntry]: the
    headers record is allocated on first use, then [Set], [Add] and
    [Remove] are appended to [Replace], [Append] and [Delete]. *)
Definition addRequestHeader (e : Entry) (h : mesh_proto.RequestHeader.t) : Entry :=
  let hs := default Headers_zero (Entry_RequestHeaders e) in
  let hs := foldl (λ hs s, mkHeaders (Replace hs ++ [pairOf s]) (Append hs) (Delete hs))
              hs (mesh_proto.RequestHeader.GetSet h) in
  let hs := foldl (λ hs s, mkHeaders (Replace hs) (Append hs ++ [pairOf s]) (Delete hs))
              hs (mesh_proto.RequestHeader.GetAdd h) in
  let hs := mkHeaders (Replace hs) (Append hs)
              (Delete hs ++ mesh_proto.RequestHeader.GetRemove h) in
  withRequestHeaders e (Some hs).

(** [makeRouteEntry]. *)
Definition makeRouteEntry (rule : mesh_proto.Rule.t) : Entry :=
  let entry := Entry_zero in
  let entry :=
    foldl (λ entry b,
             let target :=
               mkDestination (mesh_proto.Backend.GetDestination b)
                 (mesh_proto.Backend.GetWeight b) None in
             withForward entry (Forward (Entry_Action entry) ++ [target]))
      entry (mesh_proto.Rule.GetBackends rule) in
  let entry :=
    foldl (λ entry f,
             match mesh_proto.Filter.GetRedirect f with
             | Some r =>
                 withRedirect entry
                   (Some (mkRedirection
                            (mesh_proto.Redirect.GetStatusCode r)
                            (mesh_proto.Redirect.GetScheme r)
                            (mesh_proto.Redirect.GetHostname r)
                            (mesh_proto.Redirect.GetPort r)
                            true))
             | None =>
                 match mesh_proto.Filter.GetMirror f with
                 | Some m =>
                     withMirror entry
                       (Some (mkMirror
                                (mesh_proto.Mirror.GetPercentage m)
                                (mkDestination
                                   (mesh_proto.Backend.GetDestination
                                      (mesh_proto.Mirror.Backend m))
                                   0%Z None)))
                 | None =>
                     match mesh_proto.Filter.GetRequestHeader f with
                     | Some h => addRequestHeader entry h
                     | None => entry
                     end
                 end
             end) entry (mesh_proto.Rule.GetFilters rule) in
  entry.

(** The state of the loops of [GenerateHost]: the two path-keyed
    accumulators and [info.RouteTable.Entries]. *)
Record Pass := mkPass {
  exactEntries : gmap string Entry;
  prefixEntries : gmap string Entry;
  tableEntries : list Entry
}.

(** The [switch] of the innermost loop: an entry goes to the exact
    accumulator when it has an exact path, else to the prefix accumulator
    when it has a prefix path, else straight to the route table. *)
Definition place (st : Pass) (routeEntry : Entry) : Pass :=
  if decide (ExactPath (Entry_Match routeEntry) ≠ "") then
    mkPass (<[ExactPath (Entry_Match routeEntry) := routeEntry]> (exactEntries st))
      (prefixEntries st) (tableEntries st)
  else if decide (PrefixPath (Entry_Match routeEntry) ≠ "") then
    mkPass (exactEntries st)
      (<[PrefixPath (Entry_Match routeEntry) := routeEntry]> (prefixEntries st))
      (tableEntries st)
  else
    mkPass (exactEntries st) (prefixEntries st) (tableEntries st ++ [routeEntry]).

(** The body of the innermost loop, for one match alternative [m] of a rule
    whose entry is [entry]: a copy of the entry with its own match. *)
Definition addMatch (entry : Entry) (st : Pass) (m : mesh_proto.Match.t) : Pass :=
  let routeEntry := setMatch entry (makeRouteMatch m) in
  place st routeEntry.

Definition addRule (st : Pass) (rule : mesh_proto.Rule.t) : Pass :=
  let entry := makeRouteEntry rule in
  foldl (addMatch entry) st (mesh_proto.Rule.GetMatches rule).

Definition rulesOf (r : core_mesh.GatewayRouteResource) : list mesh_proto.Rule.t :=
  mesh_proto.HttpRoute.GetRules (mesh_proto.GatewayRoute.GetHttp (core_mesh.Spec r)).

Definition addRoute (st : Pass) (r : core_mesh.GatewayRouteResource) : Pass :=
  foldl addRule st (rulesOf r).

(** The prefix entry as the expansion loop rewrites it: trailing
    separators stripped, one appended. *)
Definition rewritePrefix (prefixEntry : Entry) : Entry :=
  let exact := strings.trimRightByte (PrefixPath (Entry_Match prefixEntry)) "/" in
  setPrefixPath prefixEntry (exact +:+ "/").

(** The exact twin of a rewritten prefix entry. *)
Definition synthesizeExact (prefixEntry : Entry) (exact : string) : Entry :=
  let exactMatch := prefixEntry in
  let exactMatch := setPrefixPath exactMatch "" in
  setExactPath exactMatch exact.

(** The body of the prefix-expansion loop for one entry of [prefixEntries]. *)
Definition expandPrefix (st : Pass) (kv : string * Entry) : Pass :=
  let prefixEntry := kv.2 in
  let exact := strings.trimRightByte (PrefixPath (Entry_Match prefixEntry)) "/" in
  let prefixEntry := rewritePrefix prefixEntry in
  let entries := tableEntries st ++ [prefixEntry] in
  if decide (PrefixPath (Entry_Match prefixEntry) = "/") then
    mkPass (exactEntries st) (prefixEntries st) entries
  else
    match exactEntries st !! exact with
    | Some _ => mkPass (exactEntries st) (prefixEntries st) entries
    | None =>
        mkPass (<[exact := synthesizeExact prefixEntry exact]> (exactEntries st))
          (prefixEntries st) entries
    end.

(** What [filterGatewayRoutes] keeps of one resource. *)
Definition acceptedRoute (accept : core_mesh.GatewayRouteResource → bool)
    (r : model.Resource) : option core_mesh.GatewayRouteResource :=
  match r with
  | model.GatewayRoute g => if accept g then Some g else None
  | _ => None
  end.

(** The path of kind [k] that a rule's match declares, empty when it
    declares none of that kind. *)
Definition declaredPath (k : mesh_proto.Path.MatchType) (rm : mesh_proto.Match.t) : string :=
  match mesh_proto.Match.GetPath rm with
  | Some p =>
      match mesh_proto.Path.GetMatch p, k with
      | mesh_proto.Path.EXACT, mesh_proto.Path.EXACT
      | mesh_proto.Path.PREFIX, mesh_proto.Path.PREFIX
      | mesh_proto.Path.REGEX, mesh_proto.Path.REGEX => mesh_proto.Path.GetValue p
      | _, _ => ""
      end
  | None => ""
  end.

(** The path and method fields of a route match. *)
Definition pathFieldsOf (m : Match) : string * string * string * string :=
  (ExactPath m, PrefixPath m, RegexPath m, Method m).

(** Every match alternative of every rule of the given routes, as the
    route entry the first loop nest builds for it, in loop order. *)
Definition denormalized (routes : list core_mesh.GatewayRouteResource) : list Entry :=
  r ← routes;
  rule ← rulesOf r;
  (λ m, setMatch (makeRouteEntry rule) (makeRouteMatch m))
    <$> mesh_proto.Rule.GetMatches rule.

Section Generator.

(** [WildcardHostname] and [match.Hostnames] are declared elsewhere in the
    repository; the builder is parameterised by them and by the orders in
    which the two maps are ranged over. *)
Variable WildcardHostname : string.
Variable match_Hostnames : string → list string → bool.
Variable prefixOrder exactOrder : MapOrder Entry.

(** The closure passed to [filterGatewayRoutes]. *)
Definition acceptRoute (info : GatewayResourceInfo)
    (r : core_mesh.GatewayRouteResource) : bool :=
  if decide (Hostname (Info_Host info) = WildcardHostname) then true
  else
    let names :=
      mesh_proto.HttpRoute.GetHostnames
        (mesh_proto.GatewayRoute.GetHttp (core_mesh.Spec r)) in
    if decide (length names = 0%nat) then true
    else match_Hostnames (Hostname (Info_Host info)) names.

Definition gatewayRoutesOf (info : GatewayResourceInfo)
    : list core_mesh.GatewayRouteResource :=
  filterGatewayRoutes (Routes (Info_Host info)) (acceptRoute info).

(** The state after the first loop nest. *)
Definition collected (info : GatewayResourceInfo) : Pass :=
  foldl addRoute (mkPass ∅ ∅ (Entries (RouteTable info))) (gatewayRoutesOf info).

(** After the prefix-expansion loop. *)
Definition expanded (info : GatewayResourceInfo) : Pass :=
  let st := collected info in
  foldl expandPrefix st (range prefixOrder (prefixEntries st)).

(** [GenerateHost]: returns the resource-set pointer and the error of the Go
    function together with [info] as the call leaves it.  The debug log
    line is left out. *)
Definition GenerateHost (info : GatewayResourceInfo)
    : GatewayResourceInfo * (option core_xds.ResourceSet * option core_xds.error) :=
  let gatewayRoutes := gatewayRoutesOf info in
  if decide (length gatewayRoutes = 0%nat) then (info, (None, None))
  else
    let st := expanded info in
    let entries :=
      foldl (λ entries kv, entries ++ [kv.2]) (tableEntries st)
        (range exactOrder (exactEntries st)) in
    (setEntries info entries, (None, None)).

(** The entries a call appends to the caller's route table. *)
Definition produced (info : GatewayResourceInfo) : list Entry :=
  drop (length (Entries (RouteTable info)))
    (Entries (RouteTable (GenerateHost info).1)).

(** The three runs of entries a call appends, in this order: the Other
    entries of the first loop nest, the rewritten prefix entries, and the
    content of the exact accumulator. *)
Definition otherPart (info : GatewayResourceInfo) : list Entry :=
  filter (λ e, kindOf (Entry_Match e) = Other) (denormalized (gatewayRoutesOf info)).
Definition prefixPart (info : GatewayResourceInfo) : list Entry :=
  rewritePrefix <$> (range prefixOrder (prefixEntries (collected info))).*2.
Definition exactPart (info : GatewayResourceInfo) : list Entry :=
  (range exactOrder (exactEntries (expanded info))).*2.

End Generator.

(** ** Inputs of the documented scenarios *)

(** A rule with a single match alternative that declares only a path. *)
Definition pathRule (k : mesh_proto.Path.MatchType) (p : string)
    (filters : list mesh_proto.Filter.t) (backends : list mesh_proto.Backend.t)
    : mesh_proto.Rule.t :=
  mesh_proto.Rule.mk
    [mesh_proto.Match.mk (Some (mesh_proto.Path.mk k p)) mesh_proto.NONE [] []]
    filters backends.

(** A gateway route resource with hostnames and rules, and the same as a
    candidate policy object of a host. *)
Definition gatewayRoute (name : string) (hostnames : list string)
    (rules : list mesh_proto.Rule.t) : core_mesh.GatewayRouteResource :=
  core_mesh.mkGatewayRouteResource name
    (mesh_proto.GatewayRoute.mk (Some (mesh_proto.HttpRoute.mk hostnames rules))).

Definition policyObject (name : string) (hostnames : list string)
    (rules : list mesh_proto.Rule.t) : model.Resource :=
  model.GatewayRoute (gatewayRoute name hostnames rules).

(** A stand-in for [match.Hostnames] in the concrete runs below: plain
    membership. *)
Definition hostnameListed (host : string) (names : list string) : bool :=
  bool_decide (host ∈ names).

Definition edgeListener : Listener := mkListener 8080%Z "edge-gateway".

(** Scenario A: two policy objects on the wildcard host, the first with
    prefix rule [/foo], the second with exact rule [/foo]. *)
Definition scenarioA : GatewayResourceInfo :=
  mkInfo
    (mkHost "*"
       [policyObject "object-1" [] [pathRule mesh_proto.Path.PREFIX "/foo" [] []];
        policyObject "object-2" [] [pathRule mesh_proto.Path.EXACT "/foo" [] []]])
    edgeListener (mkTable []).

(** Scenario B: one rule whose two match alternatives, header [X=1] and
    method [GET], share one forward action. *)
Definition scenarioB_rule : mesh_proto.Rule.t :=
  mesh_proto.Rule.mk
    [mesh_proto.Match.mk None mesh_proto.NONE
       [mesh_proto.Header.mk mesh_proto.Header.EXACT "X" "1"] [];
     mesh_proto.Match.mk None mesh_proto.GET [] []]
    []
    [mesh_proto.Backend.mk 1%Z {[ "kuma.io/service" := "echo-service" ]}].

Definition scenarioB : GatewayResourceInfo :=
  mkInfo (mkHost "*" [policyObject "object-1" [] [scenarioB_rule]])
    edgeListener (mkTable []).

(** A host with a single prefix rule whose path is made of separators. *)
Definition rootPrefix : GatewayResourceInfo :=
  mkInfo
    (mkHost "*" [policyObject "object-1" [] [pathRule mesh_proto.Path.PREFIX "//" [] []]])
    edgeListener (mkTable []).

(** Two prefix rules, [/foo] and [/foo/], with different backends: both
    strip to [/foo], and which of them lends its payload to the exact twin
    depends on the order in which the prefix accumulator is ranged over. *)
Definition twoPrefixes : GatewayResourceInfo :=
  mkInfo
    (mkHost "*"
       [policyObject "object-1" []
          [pathRule mesh_proto.Path.PREFIX "/foo" []
             [mesh_proto.Backend.mk 1%Z {[ "kuma.io/service" := "a" ]}];
           pathRule mesh_proto.Path.PREFIX "/foo/" []
             [mesh_proto.Backend.mk 1%Z {[ "kuma.io/service" := "b" ]}]]])
    edgeListener (mkTable []).

(** A host none of whose candidates is accepted: the only candidate
    declares another hostname. *)
Definition nothingAccepted : GatewayResourceInfo :=
  mkInfo
    (mkHost "echo.example.com"
       [policyObject "object-1" ["other.example.com"]
          [pathRule mesh_proto.Path.PREFIX "/foo" [] []]])
    edgeListener (mkTable []).

(** A host whose only candidate is accepted but declares no rule. *)
Definition nothingDeclared : GatewayResourceInfo :=
  mkInfo (mkHost "*" [policyObject "object-1" [] []]) edgeListener (mkTable []).

End gateway.

(* ===================================================================== *)
(** * The Matching Engine's method predicate                              *)
(* ===================================================================== *)

Module matching.

(** The nine request verbs. *)
Inductive Verb :=
| vGET | vPOST | vPUT | vPATCH | vDELETE | vHEAD | vOPTIONS | vCONNECT | vTRACE.

Definition allVerbs : list Verb :=
  [vGET; vPOST; vPUT; vPATCH; vDELETE; vHEAD; vOPTIONS; vCONNECT; vTRACE].

(** The verb as it stands in a request line. *)
Definition verbName (v : Verb) : string :=
  match v with
  | vGET => "GET" | vPOST => "POST" | vPUT => "PUT" | vPATCH => "PATCH"
  | vDELETE => "DELETE" | vHEAD => "HEAD" | vOPTIONS => "OPTIONS"
  | vCONNECT => "CONNECT" | vTRACE => "TRACE"
  end.

(** The rule-side constant that declares a verb. *)
Definition declared (v : Verb) : mesh_proto.Method :=
  match v with
  | vGET => mesh_proto.GET | vPOST => mesh_proto.POST | vPUT => mesh_proto.PUT
  | vPATCH => mesh_proto.PATCH | vDELETE => mesh_proto.DELETE
  | vHEAD => mesh_proto.HEAD | vOPTIONS => mesh_proto.OPTIONS
  | vCONNECT => mesh_proto.CONNECT | vTRACE => mesh_proto.TRACE
  end.

(** Modelled from the spec: the method predicate of the Matching Engine,
    which the route builder only feeds and does not contain.  Method
    matching is against the fixed verb enumeration; a route entry that
    carries no method is unconstrained and matches every verb, an entry
    that carries a method matches the requests whose verb is that method. *)
Definition methodMatches (m : route.Match) (request : Verb) : bool :=
  if decide (route.Method m = "") then true
  else bool_decide (route.Method m = verbName request).

End matching.

(* ===================================================================== *)
(** * Go's [strconv.Atoi]                                                 *)
(* ===================================================================== *)

Module strconv.

(** The width of Go's [int], which depends on the target platform. *)
Inductive IntSize := Int32 | Int64.
Definition intBits (sz : IntSize) : Z :=
  match sz with Int32 => 32 | Int64 => 64 end.

Definition digitOf (ch : ascii) : option Z :=
  let d := (Z.of_N (N_of_ascii ch) - 48)%Z in
  if decide (0 ≤ d ≤ 9)%Z then Some d else None.

(** The value of a run of decimal digits, or [None] at the first byte that
    is not a digit. *)
Fixpoint digitsFrom (n : Z) (s : string) : option Z :=
  match s with
  | EmptyString => Some n
  | String ch s' =>
      match digitOf ch with
      | Some d => digitsFrom (n * 10 + d)%Z s'
      | None => None
      end
  end.

(** [strconv.Atoi(s)], that is [ParseInt(s, 10, 0)]: an optional sign, then
    one or more decimal digits (no underscores in base 10), and the value
    must fit an [int]; [None] stands for the [*NumError] returned on a
    syntax or a range error. *)
Definition Atoi (sz : IntSize) (s : string) : option Z :=
  match s with
  | EmptyString => None
  | String ch rest =>
      let neg := bool_decide (ch = "-"%char) in
      let body := if decide (ch = "-"%char ∨ ch = "+"%char) then rest else s in
      match body with
      | EmptyString => None
      | _ =>
          match digitsFrom 0 body with
          | None => None
          | Some un =>
              let n := if neg then (- un)%Z else un in
              if decide (- 2 ^ (intBits sz - 1) ≤ n < 2 ^ (intBits sz - 1))%Z
              then Some n else None
          end
      end
  end.

End strconv.

(* ===================================================================== *)
(** * Package [structpb]                                                  *)
(* ===================================================================== *)

Module structpb.

(** [structpb.Value] by kind; a [*structpb.Struct] is its [Fields] map. *)
Inductive Value :=
| NullValue
| NumberValue (bits : float64)
| StringValue (s : string)
| BoolValue (b : bool)
| StructValue (fields : gmap string Value)
| ListValue (values : list Value).

Abbreviation Struct := (gmap string Value).

(** The nil-safe getters, on a possibly-nil [*Value]. *)
Definition GetStringValue (x : option Value) : string :=
  match x with Some (StringValue s) => s | _ => "" end.
Definition GetStructValue (x : option Value) : option Struct :=
  match x with Some (StructValue fields) => Some fields | _ => None end.
(** [GetFields] on a possibly-nil [*Struct]. *)
Definition GetFields (x : option Struct) : Struct :=
  match x with Some fields => fields | None => ∅ end.

End structpb.

(* ===================================================================== *)
(** * Go effects used by the metadata decoder: logging and run-time panics *)
(* ===================================================================== *)

Module effects.

(** One call of [metadataLog.Error]: the error, the message and the
    key/value context. *)
Record LogRecord := mkLogRecord {
  Log_err : option core_xds.error;
  Log_msg : string;
  Log_context : list (string * string)
}.

Inductive Result (A : Type) :=
| Returned (a : A)
| Panicked (reason : string).
Arguments Returned {A} a.
Arguments Panicked {A} reason.

(** A computation that appends to the log and either returns or panics. *)
Definition M (A : Type) : Type := list LogRecord → Result A * list LogRecord.

Definition ret {A} (a : A) : M A := λ log, (Returned a, log).
Definition bind {A B} (c : M A) (k : A → M B) : M B :=
  λ log, match c log with
         | (Returned a, log') => k a log'
         | (Panicked r, log') => (Panicked r, log')
         end.
Definition logError (err : option core_xds.error) (msg : string)
    (context : list (string * string)) : M unit :=
  λ log, (Returned tt, log ++ [mkLogRecord err msg context]).
Definition panic {A} (reason : string) : M A := λ log, (Panicked reason, log).

(** Running a computation from an empty log. *)
Definition run {A} (c : M A) : Result A * list LogRecord := c [].

End effects.

Notation "'do' x ← c ; k" := (effects.bind c (λ x, k))
  (at level 10, x name, c at level 100, k at level 200,
   format "'[v' 'do'  x  ←  c ; '/' k ']'").
Notation "'do_' c ; k" := (effects.bind c (λ _, k))
  (at level 10, c at level 100, k at level 200,
   format "'[v' 'do_'  c ; '/' k ']'").

(* ===================================================================== *)
(** * Package [xds]: dataplane metadata                                   *)
(* ===================================================================== *)

Module xds.
Import effects structpb.

Definition fieldDataplaneToken := "dataplane.token".
Definition fieldDataplaneAdminPort := "dataplane.admin.port".
Definition fieldDataplaneDNSPort := "dataplane.dns.port".
Definition fieldDataplaneDNSEmptyPort := "dataplane.dns.empty.port".
Definition fieldDataplaneDataplaneResource := "dataplane.resource".
Definition fieldDynamicMetadata := "dynamicMetadata".
Definition fieldDataplaneProxyType := "dataplane.proxyType".
Definition fieldVersion := "version".

(** [mesh_proto.Version], a three-part version whose parts the decoder
    does not look into. *)
Record Version := mkVersion {
  KumaDp : string; Envoy : string; Dependencies : gmap string string
}.
Definition Version_zero : Version := mkVersion "" "" ∅.

(** [DataplaneMetadata]. [Resource] is an interface value, [DynamicMetadata]
    a map and [Version] a pointer, each of which may be nil. *)
Record DataplaneMetadata := mkDataplaneMetadata {
  DataplaneToken : string;
  Resource : option model.Resource;
  AdminPort : uint32;
  DNSPort : uint32;
  EmptyDNSPort : uint32;
  DynamicMetadata : option (gmap string string);
  ProxyType : string;
  Version_ : option Version
}.

(** [DataplaneMetadata{}]. *)
Definition DataplaneMetadata_zero : DataplaneMetadata :=
  mkDataplaneMetadata "" None 0%Z 0%Z 0%Z None "" None.

Definition withDataplaneToken (m : DataplaneMetadata) v :=
  mkDataplaneMetadata v (Resource m) (AdminPort m) (DNSPort m) (EmptyDNSPort m)
    (DynamicMetadata m) (ProxyType m) (Version_ m).
Definition withResource (m : DataplaneMetadata) v :=
  mkDataplaneMetadata (DataplaneToken m) v (AdminPort m) (DNSPort m) (EmptyDNSPort m)
    (DynamicMetadata m) (ProxyType m) (Version_ m).
Definition withAdminPort (m : DataplaneMetadata) v :=
  mkDataplaneMetadata (DataplaneToken m) (Resource m) v (DNSPort m) (EmptyDNSPort m)
    (DynamicMetadata m) (ProxyType m) (Version_ m).
Definition withDNSPort (m : DataplaneMetadata) v :=
  mkDataplaneMetadata (DataplaneToken m) (Resource m) (AdminPort m) v (EmptyDNSPort m)
    (DynamicMetadata m) (ProxyType m) (Version_ m).
Definition withEmptyDNSPort (m : DataplaneMetadata) v :=
  mkDataplaneMetadata (DataplaneToken m) (Resource m) (AdminPort m) (DNSPort m) v
    (DynamicMetadata m) (ProxyType m) (Version_ m).
Definition withDynamicMetadata (m : DataplaneMetadata) v :=
  mkDataplaneMetadata (DataplaneToken m) (Resource m) (AdminPort m) (DNSPort m)
    (EmptyDNSPort m) v (ProxyType m) (Version_ m).
Definition withProxyType (m : DataplaneMetadata) v :=
  mkDataplaneMetadata (DataplaneToken m) (Resource m) (AdminPort m) (DNSPort m)
    (EmptyDNSPort m) (DynamicMetadata m) v (Version_ m).
Definition withVersion (m : DataplaneMetadata) v :=
  mkDataplaneMetadata (DataplaneToken m) (Resource m) (AdminPort m) (DNSPort m)
    (EmptyDNSPort m) (DynamicMetadata m) (ProxyType m) v.

(** The conversion [uint32(n)] of an [int]: the low 32 bits. *)
Definition toUint32 (n : Z) : uint32 := (n mod 2 ^ 32)%Z.

Section Decoder.

(** Declared elsewhere in the repository or fixed by the platform:
    [mesh_proto.DataplaneProxyType]; [rest.UnmarshallToCore], which returns
    a resource (nil or not) and an error (nil or not); [util_proto.ToTyped],
    which fills a fresh [Version] and returns an error (nil or not); the
    width of [int]. *)
Variable DataplaneProxyType : string.
Variable UnmarshallToCore : string → option model.Resource * option core_xds.error.
Variable ToTyped : Struct → Version * option core_xds.error.
Variable intSize : strconv.IntSize.

(** The accessors; the receiver is a pointer that may be nil. *)
Definition GetDataplaneToken (m : option DataplaneMetadata) : string :=
  match m with None => "" | Some m => DataplaneToken m end.

Definition GetDataplaneResource (m : option DataplaneMetadata)
    : option core_mesh.DataplaneResource :=
  match m with
  | Some m => match Resource m with Some (model.Dataplane d) => Some d | _ => None end
  | None => None
  end.

Definition GetZoneIngressResource (m : option DataplaneMetadata)
    : option core_mesh.ZoneIngressResource :=
  match m with
  | Some m => match Resource m with Some (model.ZoneIngress z) => Some z | _ => None end
  | None => None
  end.

Definition GetProxyType (m : option DataplaneMetadata) : string :=
  match m with
  | None => DataplaneProxyType
  | Some m => if decide (ProxyType m = "") then DataplaneProxyType else ProxyType m
  end.

Definition GetAdminPort (m : option DataplaneMetadata) : uint32 :=
  match m with None => 0%Z | Some m => AdminPort m end.

Definition GetDNSPort (m : option DataplaneMetadata) : uint32 :=
  match m with None => 0%Z | Some m => DNSPort m end.

Definition GetEmptyDNSPort (m : option DataplaneMetadata) : uint32 :=
  match m with None => 0%Z | Some m => EmptyDNSPort m end.

Definition GetDynamicMetadata (m : option DataplaneMetadata) (key : string) : string :=
  match m with
  | None => ""
  | Some m =>
      match DynamicMetadata m with
      | None => ""
      | Some dm => default "" (dm !! key)
      end
  end.

Definition GetVersion (m : option DataplaneMetadata) : option Version :=
  match m with None => None | Some m => Version_ m end.

(** [uint32Metadata]. Reading [Fields] through a nil pointer panics; the
    decoder only calls it after its nil check. *)
Definition uint32Metadata (xdsMetadata : option Struct) (field : string) : M uint32 :=
  match xdsMetadata with
  | None => panic "invalid memory address or nil pointer dereference"
  | Some fields =>
      match fields !! field with
      | None => ret 0%Z
      | Some value =>
          match strconv.Atoi intSize (GetStringValue (Some value)) with
          | None =>
              do_ logError (Some "strconv.Atoi") "invalid value in dataplane metadata"
                    [("field", field)];
              ret 0%Z
          | Some port => ret (toUint32 port)
          end
      end
  end.

(** The [dataplane.resource] step of the decoder: the type switch runs
    whether or not unmarshalling failed, and its default branch calls
    [r.Descriptor()] while building the log arguments, which panics when
    [r] is the nil interface. *)
Definition decodeResource (metadata : DataplaneMetadata) (value : Value)
    : M DataplaneMetadata :=
  let '(res, err) := UnmarshallToCore (GetStringValue (Some value)) in
  do_ (match err with
       | Some _ =>
           logError err "invalid value in dataplane metadata"
             [("field", fieldDataplaneDataplaneResource)]
       | None => ret tt
       end);
  match res with
  | Some (model.Dataplane _ as r) | Some (model.ZoneIngress _ as r) =>
      ret (withResource metadata (Some r))
  | Some r =>
      do_ logError err "invalid dataplane resource type"
            [("resource", model.DescriptorName r);
             ("field", fieldDataplaneDataplaneResource)];
      ret metadata
  | None => panic "invalid memory address or nil pointer dereference"
  end.

(** [DataplaneMetadataFromXdsMetadata]. *)
Definition DataplaneMetadataFromXdsMetadata (xdsMetadata : option Struct)
    : M DataplaneMetadata :=
  let metadata := DataplaneMetadata_zero in
  match xdsMetadata with
  | None => ret metadata
  | Some fields =>
      let metadata :=
        match fields !! fieldDataplaneToken with
        | Some field => withDataplaneToken metadata (GetStringValue (Some field))
        | None => metadata
        end in
      let metadata :=
        match fields !! fieldDataplaneProxyType with
        | Some field => withProxyType metadata (GetStringValue (Some field))
        | None => metadata
        end in
      do port ← uint32Metadata xdsMetadata fieldDataplaneAdminPort;
      let metadata := withAdminPort metadata port in
      do port ← uint32Metadata xdsMetadata fieldDataplaneDNSPort;
      let metadata := withDNSPort metadata port in
      do port ← uint32Metadata xdsMetadata fieldDataplaneDNSEmptyPort;
      let metadata := withEmptyDNSPort metadata port in
      do metadata ←
        match fields !! fieldDataplaneDataplaneResource with
        | Some value => decodeResource metadata value
        | None => ret metadata
        end;
      let metadata :=
        match fields !! fieldDynamicMetadata with
        | Some value =>
            let dynamicMetadata :=
              (λ val, GetStringValue (Some val))
                <$> GetFields (GetStructValue (Some value)) in
            withDynamicMetadata metadata (Some dynamicMetadata)
        | None => metadata
        end in
      do metadata ←
        match GetStructValue (fields !! fieldVersion) with
        | Some structValue =>
            let '(version, err) := ToTyped structValue in
            do_ (match err with
                 | Some _ =>
                     logError err "invalid value in dataplane metadata"
                       [("field", fieldVersion)]
                 | None => ret tt
                 end);
            ret (withVersion metadata (Some version))
        | None => ret metadata
        end;
      ret metadata
  end.

(** The port a bag holds under a field, as [uint32Metadata] decodes it,
    without the log. *)
Definition portOf (fields : Struct) (field : string) : uint32 :=
  match fields !! field with
  | Some value =>
      match strconv.Atoi intSize (GetStringValue (Some value)) with
      | Some port => toUint32 port
      | None => 0%Z
      end
  | None => 0%Z
  end.

(** The resource a bag holds, when it unmarshals to one of the two accepted
    kinds. *)
Definition acceptedResource (fields : Struct) : option model.Resource :=
  match fields !! fieldDataplaneDataplaneResource with
  | Some value =>
      match (UnmarshallToCore (GetStringValue (Some value))).1 with
      | Some (model.Dataplane d) => Some (model.Dataplane d)
      | Some (model.ZoneIngress z) => Some (model.ZoneIngress z)
      | _ => None
      end
  | None => None
  end.

End Decoder.

(** ** Inputs of the concrete runs *)

(** A stand-in for [rest.UnmarshallToCore]: it knows three documents, a
    dataplane, a zone ingress and a mesh, and fails on every other input
    with a nil resource and an error. *)
Definition unmarshalKnown (doc : string) : option model.Resource * option core_xds.error :=
  if decide (doc = "type: Dataplane") then
    (Some (model.Dataplane (core_mesh.mkDataplaneResource "dp-1")), None)
  else if decide (doc = "type: ZoneIngress") then
    (Some (model.ZoneIngress (core_mesh.mkZoneIngressResource "zi-1")), None)
  else if decide (doc = "type: Mesh") then
    (Some (model.OtherResource "Mesh"), None)
  else (None, Some "invalid resource").

(** A stand-in for [util_proto.ToTyped]: it reads the [kumaDp] and [envoy]
    fields when they are strings and fails otherwise, leaving the message
    empty. *)
Definition toTypedKnown (s : Struct) : Version * option core_xds.error :=
  match s !! "kumaDp", s !! "envoy" with
  | Some (StringValue k), Some (StringValue e) => (mkVersion k e ∅, None)
  | _, _ => (Version_zero, Some "invalid version")
  end.

(** Scenario C: the admin port is not a number. *)
Definition scenarioC : Struct :=
  {[ fieldDataplaneAdminPort := StringValue "not-a-number" ]}.

(** A bag whose embedded resource is not a resource document. *)
Definition malformedResource : Struct :=
  {[ fieldDataplaneDataplaneResource := StringValue "not-a-resource" ]}.

(** A bag whose embedded resource is a mesh, which is neither of the two
    accepted kinds. *)
Definition unsupportedResource : Struct :=
  {[ fieldDataplaneDataplaneResource := StringValue "type: Mesh" ]}.

End xds.

(* ===================================================================== *)
(** * Envoy messages built by the TLS helpers                             *)
(* ===================================================================== *)

Module envoy_type_matcher.
(** [StringMatcher], by match pattern. *)
Inductive StringMatcher :=
| StringMatcher_Exact (exact : string)
| StringMatcher_Prefix (prefix : string).
End envoy_type_matcher.

Module envoy_core.
Inductive ApiVersion := ApiVersion_AUTO | ApiVersion_V2 | ApiVersion_V3.
Inductive ConfigSourceSpecifier := ConfigSource_Ads.
Record ConfigSource := mkConfigSource {
  ResourceApiVersion : ApiVersion;
  ConfigSourceSpecifier_ : ConfigSourceSpecifier
}.
End envoy_core.

Module envoy_tls.
Import envoy_type_matcher.

Record SdsSecretConfig := mkSdsSecretConfig {
  Name : string;
  SdsConfig : envoy_core.ConfigSource
}.

Record CertificateValidationContext := mkCertificateValidationContext {
  MatchSubjectAltNames : list StringMatcher
}.

Record CombinedCertificateValidationContext := mkCombined {
  DefaultValidationContext : CertificateValidationContext;
  ValidationContextSdsSecretConfig : SdsSecretConfig
}.

(** [CommonTlsContext]; the fields the helpers leave unset are nil. *)
Record CommonTlsContext := mkCommonTlsContext {
  CombinedValidationContext : option CombinedCertificateValidationContext;
  TlsCertificateSdsSecretConfigs : list SdsSecretConfig;
  AlpnProtocols : list string
}.

Record DownstreamTlsContext := mkDownstreamTlsContext {
  Downstream_CommonTlsContext : CommonTlsContext;
  RequireClientCertificate : option bool
}.

Record UpstreamTlsContext := mkUpstreamTlsContext {
  Upstream_CommonTlsContext : CommonTlsContext;
  Sni : string
}.

End envoy_tls.

Module xds_context.
(** The mesh resource as the TLS helpers read it: [Meta.GetName()] and
    [MTLSEnabled()].  Modelled from the spec: [MTLSEnabled] is a method
    declared elsewhere; the mesh identity policy carries a per-mesh
    mTLS-enabled flag, which is what the method reports. *)
Record MeshResource := mkMeshResource {
  Meta_GetName : string;
  MTLSEnabled : bool
}.
Record MeshContext := mkMeshContext { Mesh_Resource : MeshResource }.
Record Context := mkContext { Mesh : MeshContext }.
End xds_context.

Module xds_tls.
(** Modelled from the spec: [MeshSpiffeIDPrefix] and [ServiceSpiffeID] are
    declared elsewhere.  The mesh-wide namespace prefix is
    [<scheme>://<mesh-name>/], and the documentation of the TLS helpers
    gives the two forms as [spiffe://{mesh_name}/] and
    [spiffe://{mesh_name}/{upstream_service}]. *)
Definition MeshSpiffeIDPrefix (mesh : string) : string :=
  "spiffe://" +:+ mesh +:+ "/".
Definition ServiceSpiffeID (mesh service : string) : string :=
  "spiffe://" +:+ mesh +:+ "/" +:+ service.
End xds_tls.

(* ===================================================================== *)
(** * Package [v3]: the TLS context helpers                              *)
(* ===================================================================== *)

Module v3.
Import envoy_type_matcher envoy_tls xds_context.

Definition MeshSpiffeIDPrefixMatcher (mesh : string) : StringMatcher :=
  StringMatcher_Prefix (xds_tls.MeshSpiffeIDPrefix mesh).

Definition ServiceSpiffeIDMatcher (mesh service : string) : StringMatcher :=
  StringMatcher_Exact (xds_tls.ServiceSpiffeID mesh service).

Definition sdsSecretConfig (name : string) : SdsSecretConfig :=
  mkSdsSecretConfig name
    (envoy_core.mkConfigSource envoy_core.ApiVersion_V3 envoy_core.ConfigSource_Ads).

(** The mesh name and the mTLS flag as the helpers read them off the
    context. *)
Definition meshOf (ctx : Context) : string := Meta_GetName (Mesh_Resource (Mesh ctx)).
Definition enabled (ctx : Context) : bool := MTLSEnabled (Mesh_Resource (Mesh ctx)).

Section TlsContexts.

(** The secret names and the ALPN list are constants of package [xds_tls]
    declared elsewhere. *)
Variable MeshCaResource IdentityCertResource : string.
Variable KumaALPNProtocols : list string.

(** [createCommonTlsContext]: a pointer to a fresh context, and an error
    that is always nil. *)
Definition createCommonTlsContext (validationSANMatcher : StringMatcher)
    : CommonTlsContext * option core_xds.error :=
  let meshCaSecret := sdsSecretConfig MeshCaResource in
  let identitySecret := sdsSecretConfig IdentityCertResource in
  (mkCommonTlsContext
     (Some (mkCombined
              (mkCertificateValidationContext [validationSANMatcher])
              meshCaSecret))
     [identitySecret]
     [],
   None).

(** [CreateDownstreamTlsContext]. *)
Definition CreateDownstreamTlsContext (ctx : Context)
    : option DownstreamTlsContext * option core_xds.error :=
  if negb (MTLSEnabled (Mesh_Resource (Mesh ctx))) then (None, None)
  else
    let validationSANMatcher :=
      MeshSpiffeIDPrefixMatcher (Meta_GetName (Mesh_Resource (Mesh ctx))) in
    match createCommonTlsContext validationSANMatcher with
    | (_, Some err) => (None, Some err)
    | (commonTlsContext, None) =>
        (Some (mkDownstreamTlsContext commonTlsContext (Some true)), None)
    end.

(** [CreateUpstreamTlsContext]. *)
Definition CreateUpstreamTlsContext (ctx : Context) (upstreamService sni : string)
    : option UpstreamTlsContext * option core_xds.error :=
  if negb (MTLSEnabled (Mesh_Resource (Mesh ctx))) then (None, None)
  else
    let validationSANMatcher :=
      if decide (upstreamService = "*") then
        MeshSpiffeIDPrefixMatcher (Meta_GetName (Mesh_Resource (Mesh ctx)))
      else
        ServiceSpiffeIDMatcher (Meta_GetName (Mesh_Resource (Mesh ctx))) upstreamService in
    match createCommonTlsContext validationSANMatcher with
    | (_, Some err) => (None, Some err)
    | (commonTlsContext, None) =>
        let commonTlsContext :=
          mkCommonTlsContext (CombinedValidationContext commonTlsContext)
            (TlsCertificateSdsSecretConfigs commonTlsContext)
            KumaALPNProtocols in
        (Some (mkUpstreamTlsContext commonTlsContext sni), None)
    end.

(** The matchers a context verifies the peer's subject alternative names
    against. *)
Definition sanMatchers (c : CommonTlsContext) : list StringMatcher :=
  match CombinedValidationContext c with
  | Some combined => MatchSubjectAltNames (DefaultValidationContext combined)
  | None => []
  end.

End TlsContexts.

(** Two meshes named [default], one with mTLS disabled and one with mTLS
    enabled, for the concrete runs. *)
Definition meshDisabled : Context :=
  mkContext (mkMeshContext (mkMeshResource "default" false)).
Definition meshEnabled : Context :=
  mkContext (mkMeshContext (mkMeshResource "default" true)).

End v3.

(* ===================================================================== *)
(** * Further notions used to state properties of the builder             *)
(* ===================================================================== *)

Module gateway_more.
Import route gateway.

#[export] Instance Header_MatchType_eq_dec : EqDecision mesh_proto.Header.MatchType.
Proof. solve_decision. Defined.
#[export] Instance Query_MatchType_eq_dec : EqDecision mesh_proto.Query.MatchType.
Proof. solve_decision. Defined.

(** The route pair of a header or query predicate of a rule. *)
Definition headerPair (h : mesh_proto.Header.t) : KeyValue :=
  Pair (mesh_proto.Header.GetName h) (mesh_proto.Header.GetValue h).
Definition queryPair (q : mesh_proto.Query.t) : KeyValue :=
  Pair (mesh_proto.Query.GetName q) (mesh_proto.Query.GetValue q).

(** The route destination [makeRouteEntry] builds for a backend, and the
    redirection and mirror it builds for a filter. *)
Definition targetOf (b : mesh_proto.Backend.t) : Destination :=
  mkDestination (mesh_proto.Backend.GetDestination b) (mesh_proto.Backend.GetWeight b) None.
Definition redirectionOf (r : mesh_proto.Redirect.t) : Redirection :=
  mkRedirection (mesh_proto.Redirect.GetStatusCode r) (mesh_proto.Redirect.GetScheme r)
    (mesh_proto.Redirect.GetHostname r) (mesh_proto.Redirect.GetPort r) true.
Definition mirrorOf (m : mesh_proto.Mirror.t) : Mirror :=
  mkMirror (mesh_proto.Mirror.GetPercentage m)
    (mkDestination (mesh_proto.Backend.GetDestination (mesh_proto.Mirror.Backend m)) 0%Z None).

(** The hostnames a gateway route declares. *)
Definition hostnamesOf (r : core_mesh.GatewayRouteResource) : list string :=
  mesh_proto.HttpRoute.GetHostnames (mesh_proto.GatewayRoute.GetHttp (core_mesh.Spec r)).

(** The two loop bodies of [makeRouteEntry], for one backend and for one
    filter. *)
Definition addBackend (entry : Entry) (b : mesh_proto.Backend.t) : Entry :=
  withForward entry (Forward (Entry_Action entry) ++ [targetOf b]).

Definition applyFilter (entry : Entry) (f : mesh_proto.Filter.t) : Entry :=
  match mesh_proto.Filter.GetRedirect f with
  | Some r => withRedirect entry (Some (redirectionOf r))
  | None =>
      match mesh_proto.Filter.GetMirror f with
      | Some m => withMirror entry (Some (mirrorOf m))
      | None =>
          match mesh_proto.Filter.GetRequestHeader f with
          | Some h => addRequestHeader entry h
          | None => entry
          end
      end
  end.

(** The header mutations of a list of request-header filters, put end to
    end. *)
Definition mergedHeaders (hs : list mesh_proto.RequestHeader.t) : Headers :=
  mkHeaders
    (hs ≫= λ h, pairOf <$> mesh_proto.RequestHeader.GetSet h)
    (hs ≫= λ h, pairOf <$> mesh_proto.RequestHeader.GetAdd h)
    (hs ≫= mesh_proto.RequestHeader.GetRemove).

End gateway_more.

(* ===================================================================== *)
(** * Further inputs of concrete runs of the metadata decoder              *)
(* ===================================================================== *)

Module xds_more_inputs.
Import xds structpb.

(** A bag with every supported field: a token, the three ports in decimal,
    a dataplane resource, two dynamic tags and a version. *)
Definition fullBag : Struct :=
  <[ fieldDataplaneToken := StringValue "token-1" ]>
  (<[ fieldDataplaneProxyType := StringValue "ingress" ]>
  (<[ fieldDataplaneAdminPort := StringValue "9901" ]>
  (<[ fieldDataplaneDNSPort := StringValue "15053" ]>
  (<[ fieldDataplaneDNSEmptyPort := StringValue "15054" ]>
  (<[ fieldDataplaneDataplaneResource := StringValue "type: Dataplane" ]>
  (<[ fieldDynamicMetadata :=
        StructValue (<[ "zone" := StringValue "east" ]> {[ "rack" := NumberValue 0%Z ]}) ]>
  {[ fieldVersion :=
       StructValue (<[ "kumaDp" := StringValue "1.3.0" ]> {[ "envoy" := StringValue "1.18.4" ]}) ]})))))).

(** The record the decoder makes of [fullBag]. *)
Definition fullBagDecoded : DataplaneMetadata :=
  mkDataplaneMetadata "token-1"
    (Some (model.Dataplane (core_mesh.mkDataplaneResource "dp-1")))
    9901%Z 15053%Z 15054%Z
    (Some (<[ "zone" := "east" ]> {[ "rack" := "" ]}))
    "ingress"
    (Some (mkVersion "1.3.0" "1.18.4" ∅)).

(** A bag whose admin port is a number value, not a string. *)
Definition numericPort : Struct :=
  {[ fieldDataplaneAdminPort := NumberValue 9901%Z ]}.

End xds_more_inputs.

(* ===================================================================== *)
(** * Package [v3]: the TLS helper for upstreams outside the mesh          *)
(* ===================================================================== *)

(** [UpstreamTlsContextOutsideMesh] fills the Envoy messages with inline
    material instead of secret names.  The records below are the same Go
    messages as in [envoy_tls], seen through the fields this helper sets:
    [TlsCertificates] and a plain [ValidationContext] in the common
    context, [AllowRenegotiation] in the upstream context.  A Go byte slice
    may be nil, hence the [option]. *)
Module outside_mesh.
Import envoy_type_matcher.

Definition bytes : Type := option (list Byte.byte).

(** [envoy_core.DataSource] with its [InlineBytes] specifier. *)
Record DataSource := mkDataSource { InlineBytes : bytes }.

Record TlsCertificate := mkTlsCertificate {
  CertificateChain : DataSource;
  PrivateKey : DataSource
}.

Record CertificateValidationContext := mkCertificateValidationContext {
  TrustedCa : DataSource;
  MatchSubjectAltNames : list StringMatcher
}.

Record CommonTlsContext := mkCommonTlsContext {
  TlsCertificates : list TlsCertificate;
  ValidationContext : option CertificateValidationContext
}.

Record UpstreamTlsContext := mkUpstreamTlsContext {
  AllowRenegotiation : bool;
  Sni : string;
  Upstream_CommonTlsContext : CommonTlsContext
}.

(** [dataSourceFromBytes]. *)
Definition dataSourceFromBytes (b : bytes) : DataSource := mkDataSource b.

(** [UpstreamTlsContextOutsideMesh]. *)
Definition UpstreamTlsContextOutsideMesh (ca cert key : bytes)
    (allowRenegotiation : bool) (hostname sni : string)
    : option UpstreamTlsContext * option core_xds.error :=
  let tlsCertificates :=
    match cert, key with
    | Some _, Some _ =>
        [mkTlsCertificate (dataSourceFromBytes cert) (dataSourceFromBytes key)]
    | _, _ => []
    end in
  let validationContextType :=
    match ca with
    | Some _ =>
        Some (mkCertificateValidationContext (dataSourceFromBytes ca)
                [StringMatcher_Exact hostname])
    | None => None
    end in
  (Some (mkUpstreamTlsContext allowRenegotiation sni
           (mkCommonTlsContext tlsCertificates validationContextType)),
   None).

End outside_mesh.

(* ===================================================================== *)
(** * Decimal numerals                                                    *)
(* ===================================================================== *)

Module numerals.

(** The integer a string denotes in decimal, whatever its size: an
    optional sign, then one or more decimal digits.  It is what
    [strconv.Atoi] reads before it checks the value against the range of
    [int]. *)
Definition decimal (s : string) : option Z :=
  match s with
  | EmptyString => None
  | String ch rest =>
      let neg := bool_decide (ch = "-"%char) in
      let body := if decide (ch = "-"%char ∨ ch = "+"%char) then rest else s in
      match body with
      | EmptyString => None
      | _ => (λ un, if neg then (- un)%Z else un) <$> strconv.digitsFrom 0 body
      end
  end.

(** The integers of Go's [int]. *)
Definition fitsInt (sz : strconv.IntSize) (n : Z) : Prop :=
  (- 2 ^ (strconv.intBits sz - 1) ≤ n < 2 ^ (strconv.intBits sz - 1))%Z.

End numerals.

(* ===================================================================== *)
(** * Facts about the string helpers                                      *)
(* ===================================================================== *)

Module strings_facts.
Import strings.

Lemma append_nil_l s : "" +:+ s = s.
Proof. reflexivity. Qed.

Lemma append_cons a s t : String a s +:+ t = String a (s +:+ t).
Proof. reflexivity. Qed.

Lemma trimRightByte_cons a s c :
  trimRightByte (String a s) c =
    if decide (trimRightByte s c = "" ∧ a = c) then "" else String a (trimRightByte s c).
Proof.
  simpl. destruct (trimRightByte s c) eqn:E.
  - destruct (Ascii.eqb_spec a c); destruct (decide _) as [[? ?]|Hn]; try done.
    exfalso. by apply Hn.
  - destruct (decide _) as [[? ?]|Hn]; done.
Qed.

(** What is left after trimming does not end in the trimmed byte. *)
Lemma lastByte_trimRightByte s c : lastByte (trimRightByte s c) ≠ Some c.
Proof.
  induction s as [|a s IH]; [done|].
  rewrite trimRightByte_cons. case_decide as Hd; [done|].
  simpl. destruct (trimRightByte s c) eqn:E; [|done].
  intros [= ->]. by apply Hd.
Qed.

(** Trimming only removes a run of the trimmed byte at the end. *)
Lemma trimRightByte_decompose s c :
  ∃ n, s = trimRightByte s c +:+ repeatByte c n.
Proof.
  induction s as [|a s [n IH]].
  { exists 0%nat. reflexivity. }
  rewrite trimRightByte_cons. case_decide as Hd.
  - destruct Hd as [Hd ->]. rewrite Hd, append_nil_l in IH.
    exists (S n). rewrite append_nil_l. simpl. by f_equal.
  - exists n. rewrite append_cons. by f_equal.
Qed.

Lemma lastByte_app_byte t c : lastByte (t +:+ String c "") = Some c.
Proof.
  induction t as [|a t IH]; [done|].
  rewrite append_cons. simpl. rewrite IH. by destruct (t +:+ String c "").
Qed.

Lemma app_byte_nonempty t c : t +:+ String c "" ≠ "".
Proof. by destruct t. Qed.

Lemma app_byte_eq_byte t c : t +:+ String c "" = String c "" ↔ t = "".
Proof.
  split; [|by intros ->].
  destruct t as [|a t]; [done|]. rewrite append_cons. intros [= _ H].
  by apply app_byte_nonempty in H.
Qed.

Lemma trimRightByte_repeatByte c n : trimRightByte (repeatByte c n) c = "".
Proof.
  induction n as [|n IHn]; [done|].
  simpl. rewrite IHn. by rewrite Ascii.eqb_refl.
Qed.

(** Trimming is the only way to take a run of the byte off the end. *)
Lemma trimRightByte_unique t c n :
  lastByte t ≠ Some c → trimRightByte (t +:+ repeatByte c n) c = t.
Proof.
  intros Ht. induction t as [|a t IH].
  - rewrite append_nil_l. apply trimRightByte_repeatByte.
  - rewrite append_cons, trimRightByte_cons.
    destruct t as [|b t].
    + simpl in Ht. rewrite append_nil_l, trimRightByte_repeatByte.
      case_decide as Hd; [|done]. destruct Hd as [_ ->]. done.
    + rewrite IH by done. case_decide as Hd; [|done]. by destruct Hd.
Qed.

Lemma append_inj_l p a b : p +:+ a = p +:+ b → a = b.
Proof.
  induction p as [|x p IH]; [done|].
  rewrite !append_cons. intros [= H]. auto.
Qed.

End strings_facts.

(* ===================================================================== *)
(** * Facts about the route table builder                                 *)
(* ===================================================================== *)

Module gateway_facts.
Import route gateway strings strings_facts.

(** ** Generic facts on loops written as folds *)

Lemma foldl_snoc_fmap {A B} (f : A → B) (acc : list B) (l : list A) :
  foldl (λ acc x, acc ++ [f x]) acc l = acc ++ (f <$> l).
Proof.
  revert acc. induction l as [|x l IH]; intros acc; simpl.
  - by rewrite app_nil_r.
  - rewrite IH. by rewrite <- app_assoc.
Qed.

Lemma foldl_bind {A B C} (f : A → C → A) (g : B → list C) (a : A) (l : list B) :
  foldl f a (l ≫= g) = foldl (λ a x, foldl f a (g x)) a l.
Proof.
  revert a. induction l as [|x l IH]; intros a; [done|].
  simpl. rewrite foldl_app. apply IH.
Qed.

Lemma filter_none {A} (P : A → Prop) `{!∀ x, Decision (P x)} (l : list A) :
  (∀ x, x ∈ l → ¬ P x) → filter P l = [].
Proof.
  induction l as [|x l IH]; intros HP; [done|].
  rewrite filter_cons_False by (apply HP; left).
  apply IH. intros y Hy. apply HP. by right.
Qed.

Lemma filter_all {A} (P : A → Prop) `{!∀ x, Decision (P x)} (l : list A) :
  (∀ x, x ∈ l → P x) → filter P l = l.
Proof.
  induction l as [|x l IH]; intros HP; [done|].
  rewrite filter_cons_True by (apply HP; left).
  f_equal. apply IH. intros y Hy. apply HP. by right.
Qed.

Lemma filter_key_unique {V} (L : list (string * V)) x v :
  NoDup L.*1 → (x, v) ∈ L → filter (λ kv, kv.1 = x) L = [(x, v)].
Proof.
  induction L as [|kv L IH]; intros Hnd Hin.
  { by apply elem_of_nil in Hin. }
  simpl in Hnd. apply NoDup_cons in Hnd as [Hnotin Hnd].
  assert (∀ w, (x, w) ∈ L → x ∈ L.*1) as Hkey.
  { intros w Hw. apply list_elem_of_fmap. by exists (x, w). }
  apply elem_of_cons in Hin as [<-|Hin].
  - rewrite filter_cons_True by done. f_equal.
    apply filter_none. intros [k w] Hkw. simpl. intros ->.
    apply Hnotin. simpl. eauto.
  - rewrite filter_cons_False; [by apply IH|].
    intros Heq. apply Hnotin. rewrite Heq. eauto.
Qed.

(** Ranging over a map visits exactly its entries, each key once. *)
Lemma elem_of_range {V} (o : MapOrder V) (m : gmap string V) k v :
  (k, v) ∈ range o m ↔ m !! k = Some v.
Proof. rewrite (range_perm o m). apply elem_of_map_to_list. Qed.

Lemma NoDup_range_keys {V} (o : MapOrder V) (m : gmap string V) :
  NoDup (range o m).*1.
Proof. rewrite (range_perm o m). apply NoDup_fst_map_to_list. Qed.

Lemma range_empty {V} (o : MapOrder V) : range o ∅ = [].
Proof.
  apply Permutation_nil_r. rewrite (range_perm o ∅). by rewrite map_to_list_empty.
Qed.

Lemma range_singleton {V} (o : MapOrder V) k (v : V) : range o {[k := v]} = [(k, v)].
Proof.
  apply Permutation_singleton_r. rewrite (range_perm o _).
  by rewrite map_to_list_singleton.
Qed.

(** ** [filterGatewayRoutes] *)

Lemma filterGatewayRoutes_loop (accept : core_mesh.GatewayRouteResource → bool)
    (in_ : list model.Resource)
    (acc : list core_mesh.GatewayRouteResource) :
  foldl (λ (routes : list core_mesh.GatewayRouteResource) (r : model.Resource),
           match r with
           | model.GatewayRoute trafficRoute =>
               if accept trafficRoute then routes ++ [trafficRoute] else routes
           | _ => routes
           end) acc in_ = acc ++ omap (acceptedRoute accept) in_.
Proof.
  revert acc. induction in_ as [|r l IH]; intros acc; simpl.
  - by rewrite app_nil_r.
  - destruct r as [| |g|]; simpl; try apply IH.
    destruct (accept g); [|apply IH].
    rewrite IH. by rewrite <- app_assoc.
Qed.

Lemma filterGatewayRoutes_spec in_ accept :
  filterGatewayRoutes in_ accept = omap (acceptedRoute accept) in_.
Proof. apply filterGatewayRoutes_loop. Qed.

(** ** [makeRouteMatch]: the path and method fields *)

Lemma headers_keep_paths hs m :
  pathFieldsOf
    (foldl (λ match_ h,
             match mesh_proto.Header.GetMatch h with
             | mesh_proto.Header.EXACT =>
                 withExactHeader match_
                   (ExactHeader match_ ++
                      [Pair (mesh_proto.Header.GetName h) (mesh_proto.Header.GetValue h)])
             | mesh_proto.Header.REGEX =>
                 withRegexHeader match_
                   (RegexHeader match_ ++
                      [Pair (mesh_proto.Header.GetName h) (mesh_proto.Header.GetValue h)])
             | mesh_proto.Header.unrecognized _ => match_
             end) m hs) = pathFieldsOf m.
Proof.
  revert m. induction hs as [|h hs IH]; intros m; [done|].
  simpl. rewrite IH. by destruct (mesh_proto.Header.GetMatch h).
Qed.

Lemma queries_keep_paths qs m :
  pathFieldsOf
    (foldl (λ match_ q,
             match mesh_proto.Query.GetMatch q with
             | mesh_proto.Query.EXACT =>
                 withExactQuery match_
                   (ExactQuery match_ ++
                      [Pair (mesh_proto.Query.GetName q) (mesh_proto.Query.GetValue q)])
             | mesh_proto.Query.REGEX =>
                 withRegexQuery match_
                   (RegexQuery match_ ++
                      [Pair (mesh_proto.Query.GetName q) (mesh_proto.Query.GetValue q)])
             | mesh_proto.Query.unrecognized _ => match_
             end) m qs) = pathFieldsOf m.
Proof.
  revert m. induction qs as [|q qs IH]; intros m; [done|].
  simpl. rewrite IH. by destruct (mesh_proto.Query.GetMatch q).
Qed.

Lemma makeRouteMatch_paths rm :
  pathFieldsOf (makeRouteMatch rm) =
    (declaredPath mesh_proto.Path.EXACT rm,
     declaredPath mesh_proto.Path.PREFIX rm,
     declaredPath mesh_proto.Path.REGEX rm,
     if isNONE (mesh_proto.Match.GetMethod rm) then ""
     else default "" (names (mesh_proto.Match.GetMethod rm))).
Proof.
  unfold makeRouteMatch. rewrite queries_keep_paths, headers_keep_paths.
  unfold declaredPath.
  destruct (mesh_proto.Match.GetPath rm) as [[k v]|];
    [destruct k|]; simpl; by destruct (isNONE _).
Qed.

Lemma ExactPath_makeRouteMatch rm :
  ExactPath (makeRouteMatch rm) = declaredPath mesh_proto.Path.EXACT rm.
Proof. pose proof (makeRouteMatch_paths rm) as H. by injection H. Qed.

Lemma PrefixPath_makeRouteMatch rm :
  PrefixPath (makeRouteMatch rm) = declaredPath mesh_proto.Path.PREFIX rm.
Proof. pose proof (makeRouteMatch_paths rm) as H. by injection H. Qed.

Lemma Method_makeRouteMatch rm :
  Method (makeRouteMatch rm) =
    if isNONE (mesh_proto.Match.GetMethod rm) then ""
    else default "" (names (mesh_proto.Match.GetMethod rm)).
Proof. pose proof (makeRouteMatch_paths rm) as H. by injection H. Qed.

(** ** The first loop nest *)

Lemma addRule_place st rule :
  addRule st rule =
    foldl place st
      ((λ m, setMatch (makeRouteEntry rule) (makeRouteMatch m))
         <$> mesh_proto.Rule.GetMatches rule).
Proof. unfold addRule, addMatch. by rewrite foldl_fmap. Qed.

Lemma addRoute_place st r :
  addRoute st r = foldl place st (denormalized [r]).
Proof.
  unfold addRoute, denormalized. simpl. rewrite app_nil_r.
  generalize (rulesOf r) as rules. intros rules. revert st.
  induction rules as [|rule rules IH]; intros st; [done|].
  simpl. rewrite foldl_app, <- addRule_place. apply IH.
Qed.

Lemma denormalized_cons r routes :
  denormalized (r :: routes) = denormalized [r] ++ denormalized routes.
Proof. unfold denormalized. simpl. by rewrite app_nil_r. Qed.

Lemma addRoute_denormalized st routes :
  foldl addRoute st routes = foldl place st (denormalized routes).
Proof.
  revert st. induction routes as [|r routes IH]; intros st; [done|].
  rewrite denormalized_cons, foldl_app. simpl.
  rewrite IH. by rewrite addRoute_place.
Qed.

Lemma place_table L st :
  tableEntries (foldl place st L) =
    tableEntries st ++ filter (λ e, kindOf (Entry_Match e) = Other) L.
Proof.
  revert st. induction L as [|e L IH]; intros st; simpl.
  - by rewrite app_nil_r.
  - rewrite IH. unfold place, kindOf. rewrite filter_cons.
    repeat case_decide; simpl; try done.
    by rewrite <- app_assoc.
Qed.

Lemma place_exact_lookup L st k e :
  exactEntries (foldl place st L) !! k = Some e →
  exactEntries st !! k = Some e ∨
  (e ∈ L ∧ ExactPath (Entry_Match e) = k ∧ k ≠ "").
Proof.
  revert st. induction L as [|x L IH]; intros st H; simpl in *; [by left|].
  apply IH in H as [H|(? & ? & ?)]; [|right; split_and!; try done; by right].
  unfold place in H. repeat case_decide; simpl in H; try by left.
  destruct (decide (ExactPath (Entry_Match x) = k)) as [<-|Hne].
  - rewrite lookup_insert_eq in H. injection H as <-.
    right. split_and!; try done. by left.
  - rewrite lookup_insert_ne in H by done. by left.
Qed.

Lemma place_exact_mono L st k :
  is_Some (exactEntries st !! k) → is_Some (exactEntries (foldl place st L) !! k).
Proof.
  revert st. induction L as [|x L IH]; intros st H; simpl; [done|].
  apply IH. unfold place. repeat case_decide; simpl; try done.
  rewrite lookup_insert. case_decide; eauto.
Qed.

Lemma place_exact_dom L st e :
  e ∈ L → ExactPath (Entry_Match e) ≠ "" →
  is_Some (exactEntries (foldl place st L) !! ExactPath (Entry_Match e)).
Proof.
  revert st. induction L as [|x L IH]; intros st Hin Hne.
  { by apply elem_of_nil in Hin. }
  simpl. apply elem_of_cons in Hin as [->|Hin]; [|by apply IH].
  apply place_exact_mono. unfold place. rewrite decide_True by done. simpl.
  rewrite lookup_insert_eq. eauto.
Qed.

Lemma place_prefix_lookup L st k e :
  prefixEntries (foldl place st L) !! k = Some e →
  prefixEntries st !! k = Some e ∨
  (e ∈ L ∧ ExactPath (Entry_Match e) = "" ∧ PrefixPath (Entry_Match e) = k ∧ k ≠ "").
Proof.
  revert st. induction L as [|x L IH]; intros st H; simpl in *; [by left|].
  apply IH in H as [H|(? & ? & ? & ?)]; [|right; split_and!; try done; by right].
  unfold place in H. repeat case_decide; simpl in H; try by left.
  destruct (decide (PrefixPath (Entry_Match x) = k)) as [<-|Hne].
  - rewrite lookup_insert_eq in H. injection H as <-.
    right. split_and!; [by left| |done|done].
    destruct (decide (ExactPath (Entry_Match x) = "")); [done|]. by exfalso.
  - rewrite lookup_insert_ne in H by done. by left.
Qed.

Lemma place_prefix_mono L st k :
  is_Some (prefixEntries st !! k) → is_Some (prefixEntries (foldl place st L) !! k).
Proof.
  revert st. induction L as [|x L IH]; intros st H; simpl; [done|].
  apply IH. unfold place. repeat case_decide; simpl; try done.
  rewrite lookup_insert. case_decide; eauto.
Qed.

Lemma place_prefix_dom L st e :
  e ∈ L → ExactPath (Entry_Match e) = "" → PrefixPath (Entry_Match e) ≠ "" →
  is_Some (prefixEntries (foldl place st L) !! PrefixPath (Entry_Match e)).
Proof.
  revert st. induction L as [|x L IH]; intros st Hin He Hne.
  { by apply elem_of_nil in Hin. }
  simpl. apply elem_of_cons in Hin as [->|Hin]; [|by apply IH].
  apply place_prefix_mono. unfold place.
  rewrite decide_False by (by intros ?). rewrite decide_True by done. simpl.
  rewrite lookup_insert_eq. eauto.
Qed.

(** ** The prefix-expansion loop *)

Lemma PrefixPath_rewritePrefix e :
  PrefixPath (Entry_Match (rewritePrefix e)) =
    trimRightByte (PrefixPath (Entry_Match e)) "/" +:+ "/".
Proof. done. Qed.

Lemma ExactPath_rewritePrefix e :
  ExactPath (Entry_Match (rewritePrefix e)) = ExactPath (Entry_Match e).
Proof. done. Qed.

Lemma ExactPath_synthesizeExact e x :
  ExactPath (Entry_Match (synthesizeExact e x)) = x.
Proof. done. Qed.

Lemma PrefixPath_synthesizeExact e x :
  PrefixPath (Entry_Match (synthesizeExact e x)) = "".
Proof. done. Qed.

Lemma rewritten_is_root e :
  PrefixPath (Entry_Match (rewritePrefix e)) = "/" ↔
  trimRightByte (PrefixPath (Entry_Match e)) "/" = "".
Proof. rewrite PrefixPath_rewritePrefix. apply app_byte_eq_byte. Qed.

Lemma expand_table L st :
  tableEntries (foldl expandPrefix st L) = tableEntries st ++ (rewritePrefix <$> L.*2).
Proof.
  revert st. induction L as [|kv L IH]; intros st; simpl.
  - by rewrite app_nil_r.
  - rewrite IH. unfold expandPrefix.
    case_decide; [|destruct (exactEntries st !! trimRightByte (PrefixPath (Entry_Match kv.2)) "/")]; simpl; by rewrite <- app_assoc.
Qed.

Lemma expand_prefixEntries L st :
  prefixEntries (foldl expandPrefix st L) = prefixEntries st.
Proof.
  revert st. induction L as [|kv L IH]; intros st; simpl; [done|].
  rewrite IH. unfold expandPrefix.
  case_decide; [|destruct (exactEntries st !! trimRightByte (PrefixPath (Entry_Match kv.2)) "/")]; done.
Qed.

Lemma expand_exact_keep L st k e :
  exactEntries st !! k = Some e → exactEntries (foldl expandPrefix st L) !! k = Some e.
Proof.
  revert st. induction L as [|kv L IH]; intros st H; simpl; [done|].
  apply IH. unfold expandPrefix.
  case_decide; [done|]. destruct (exactEntries st !! trimRightByte (PrefixPath (Entry_Match kv.2)) "/") eqn:E; simpl; [done|].
  rewrite lookup_insert_ne; [done|]. intros <-. congruence.
Qed.

Lemma expand_exact_lookup L st k e :
  exactEntries (foldl expandPrefix st L) !! k = Some e →
  exactEntries st !! k = Some e ∨
  (exactEntries st !! k = None ∧
   ∃ kv, kv ∈ L ∧ trimRightByte (PrefixPath (Entry_Match kv.2)) "/" = k ∧ k ≠ "" ∧
         e = synthesizeExact (rewritePrefix kv.2) k).
Proof.
  revert st. induction L as [|kv L IH]; intros st H; simpl in *; [by left|].
  apply IH in H as [H|(Hnone & kv' & Hin & ? & ? & ?)].
  - unfold expandPrefix in H.
    case_decide as Hroot; [by left|].
    destruct (exactEntries st !! trimRightByte (PrefixPath (Entry_Match kv.2)) "/") eqn:E; simpl in H; [by left|].
    destruct (decide (trimRightByte (PrefixPath (Entry_Match kv.2)) "/" = k)) as [<-|Hne].
    + rewrite lookup_insert_eq in H. injection H as <-.
      right. split; [done|]. exists kv. split_and!; try done; [by left|].
      intros Hempty. by apply Hroot, rewritten_is_root.
    + rewrite lookup_insert_ne in H by done. by left.
  - right. split; [|exists kv'; split_and!; try done; by right].
    unfold expandPrefix in Hnone.
    case_decide; [done|]. destruct (exactEntries st !! trimRightByte (PrefixPath (Entry_Match kv.2)) "/") eqn:E; simpl in Hnone; [done|].
    apply lookup_insert_None in Hnone. by destruct Hnone.
Qed.

Lemma expand_exact_dom L st kv :
  kv ∈ L → trimRightByte (PrefixPath (Entry_Match kv.2)) "/" ≠ "" →
  is_Some (exactEntries (foldl expandPrefix st L)
             !! trimRightByte (PrefixPath (Entry_Match kv.2)) "/").
Proof.
  revert st. induction L as [|x L IH]; intros st Hin Hne.
  { by apply elem_of_nil in Hin. }
  simpl. apply elem_of_cons in Hin as [->|Hin]; [|by apply IH].
  assert (is_Some (exactEntries (expandPrefix st x)
                     !! trimRightByte (PrefixPath (Entry_Match x.2)) "/")) as [e He].
  { unfold expandPrefix. rewrite decide_False by (by rewrite rewritten_is_root).
    destruct (exactEntries st !! trimRightByte (PrefixPath (Entry_Match x.2)) "/") eqn:E; simpl; [by rewrite E|].
    rewrite lookup_insert_eq. eauto. }
  exists e. by apply expand_exact_keep.
Qed.

(** ** The entries of the first loop nest *)

Lemma elem_of_denormalized routes e :
  e ∈ denormalized routes ↔
  ∃ r rule m, r ∈ routes ∧ rule ∈ rulesOf r ∧ m ∈ mesh_proto.Rule.GetMatches rule ∧
              e = setMatch (makeRouteEntry rule) (makeRouteMatch m).
Proof.
  unfold denormalized. rewrite list_elem_of_bind. split.
  - intros (r & He & Hr). apply list_elem_of_bind in He as (rule & He & Hrule).
    apply list_elem_of_fmap in He as (m & -> & Hm). eauto 10.
  - intros (r & rule & m & Hr & Hrule & Hm & ->). exists r. split; [|done].
    apply list_elem_of_bind. exists rule. split; [|done].
    apply list_elem_of_fmap. eauto.
Qed.

(** A rule's match declares at most one kind of path. *)
Lemma declaredPath_exclusive rm :
  declaredPath mesh_proto.Path.EXACT rm ≠ "" → declaredPath mesh_proto.Path.PREFIX rm = "".
Proof.
  unfold declaredPath. destruct (mesh_proto.Match.GetPath rm) as [[[] v]|]; done.
Qed.

Lemma denormalized_exclusive routes e :
  e ∈ denormalized routes →
  ExactPath (Entry_Match e) ≠ "" → PrefixPath (Entry_Match e) = "".
Proof.
  intros (r & rule & m & _ & _ & _ & ->)%elem_of_denormalized. simpl.
  rewrite ExactPath_makeRouteMatch, PrefixPath_makeRouteMatch.
  apply declaredPath_exclusive.
Qed.

Lemma denormalized_split routes r rule :
  r ∈ routes → rule ∈ rulesOf r →
  ∃ before after,
    denormalized routes =
      before ++ ((λ m, setMatch (makeRouteEntry rule) (makeRouteMatch m))
                   <$> mesh_proto.Rule.GetMatches rule) ++ after.
Proof.
  intros (r1 & r2 & ->)%list_elem_of_split (u1 & u2 & Hu)%list_elem_of_split.
  unfold denormalized. rewrite bind_app, bind_cons, Hu, bind_app, bind_cons.
  set (perRule := λ rule : mesh_proto.Rule.t,
         (λ m, setMatch (makeRouteEntry rule) (makeRouteMatch m))
           <$> mesh_proto.Rule.GetMatches rule).
  set (perRoute := λ r : core_mesh.GatewayRouteResource, rulesOf r ≫= perRule).
  exists ((r1 ≫= perRoute) ++ (u1 ≫= perRule)), ((u2 ≫= perRule) ++ (r2 ≫= perRoute)).
  by rewrite <- !app_assoc.
Qed.

(** ** What a call of [GenerateHost] appends *)

Section Builder.

Variable WildcardHostname : string.
Variable match_Hostnames : string → list string → bool.
Variable prefixOrder exactOrder : MapOrder Entry.

#[local] Abbreviation gatewayRoutesOf :=
  (gateway.gatewayRoutesOf WildcardHostname match_Hostnames).
#[local] Abbreviation collected := (gateway.collected WildcardHostname match_Hostnames).
#[local] Abbreviation expanded :=
  (gateway.expanded WildcardHostname match_Hostnames prefixOrder).
#[local] Abbreviation GenerateHost :=
  (gateway.GenerateHost WildcardHostname match_Hostnames prefixOrder exactOrder).
#[local] Abbreviation produced :=
  (gateway.produced WildcardHostname match_Hostnames prefixOrder exactOrder).
#[local] Abbreviation otherPart := (gateway.otherPart WildcardHostname match_Hostnames).
#[local] Abbreviation prefixPart :=
  (gateway.prefixPart WildcardHostname match_Hostnames prefixOrder).
#[local] Abbreviation exactPart :=
  (gateway.exactPart WildcardHostname match_Hostnames prefixOrder exactOrder).

Lemma collected_place info :
  collected info =
    foldl place (mkPass ∅ ∅ (Entries (RouteTable info)))
      (denormalized (gatewayRoutesOf info)).
Proof. apply addRoute_denormalized. Qed.

Lemma collected_table info :
  tableEntries (collected info) = Entries (RouteTable info) ++ otherPart info.
Proof. rewrite collected_place. apply place_table. Qed.

Lemma expanded_table info :
  tableEntries (expanded info) =
    Entries (RouteTable info) ++ otherPart info ++ prefixPart info.
Proof.
  unfold gateway.expanded. rewrite expand_table, collected_table.
  by rewrite <- app_assoc.
Qed.

(** The route table a call leaves behind is the one it found, followed by
    the Other entries, the rewritten prefixes and the exact entries. *)
Lemma GenerateHost_table info :
  Entries (RouteTable (GenerateHost info).1) =
    Entries (RouteTable info) ++ otherPart info ++ prefixPart info ++ exactPart info.
Proof.
  unfold gateway.GenerateHost. case_decide as Hlen.
  - simpl. apply nil_length_inv in Hlen.
    unfold gateway.otherPart, gateway.prefixPart, gateway.exactPart,
      gateway.expanded, gateway.collected.
    rewrite Hlen. simpl. rewrite range_empty. simpl. rewrite range_empty.
    by rewrite app_nil_r.
  - simpl. rewrite (foldl_snoc_fmap snd), expanded_table.
    by rewrite <- !app_assoc.
Qed.

Lemma produced_parts info :
  produced info = otherPart info ++ prefixPart info ++ exactPart info.
Proof. unfold gateway.produced. rewrite GenerateHost_table. apply drop_app_length. Qed.

Lemma GenerateHost_appends info :
  Entries (RouteTable (GenerateHost info).1) = Entries (RouteTable info) ++ produced info.
Proof. by rewrite GenerateHost_table, produced_parts. Qed.

Lemma GenerateHost_result info : (GenerateHost info).2 = (None, None).
Proof. unfold gateway.GenerateHost. by case_decide. Qed.

(** The accumulators after the first loop nest hold entries of the input
    under their own path. *)
Lemma collected_exact_lookup info k e :
  exactEntries (collected info) !! k = Some e →
  e ∈ denormalized (gatewayRoutesOf info) ∧ ExactPath (Entry_Match e) = k ∧ k ≠ "".
Proof.
  rewrite collected_place. intros [H|H]%place_exact_lookup; [|done].
  simpl in H. by rewrite lookup_empty in H.
Qed.

Lemma collected_prefix_lookup info k e :
  prefixEntries (collected info) !! k = Some e →
  e ∈ denormalized (gatewayRoutesOf info) ∧
  ExactPath (Entry_Match e) = "" ∧ PrefixPath (Entry_Match e) = k ∧ k ≠ "".
Proof.
  rewrite collected_place. intros [H|H]%place_prefix_lookup; [|done].
  simpl in H. by rewrite lookup_empty in H.
Qed.

(** Where an entry of the exact accumulator comes from, once the prefixes
    are expanded: the input, or a prefix entry whose stripped path is not
    empty and had no exact entry. *)
Lemma expanded_exact_lookup info k e :
  exactEntries (expanded info) !! k = Some e →
  ExactPath (Entry_Match e) = k ∧ k ≠ "" ∧
  (exactEntries (collected info) !! k = Some e ∨
   (exactEntries (collected info) !! k = None ∧
    ∃ q pe, prefixEntries (collected info) !! q = Some pe ∧
            trimRightByte q "/" = k ∧
            e = synthesizeExact (rewritePrefix pe) k)).
Proof.
  unfold gateway.expanded.
  intros [H|(Hnone & [q pe] & Hin & Hk & Hne & ->)]%expand_exact_lookup.
  - pose proof (collected_exact_lookup _ _ _ H) as (_ & ? & ?). auto.
  - split_and!; [done..|]. right. split; [done|].
    apply elem_of_range in Hin.
    pose proof (collected_prefix_lookup _ _ _ Hin) as (_ & _ & Hq & _).
    simpl in Hk. rewrite Hq in Hk. eauto.
Qed.

Lemma otherPart_paths info e :
  e ∈ otherPart info →
  ExactPath (Entry_Match e) = "" ∧ PrefixPath (Entry_Match e) = "".
Proof.
  intros [Hk _]%list_elem_of_filter. unfold kindOf in Hk.
  repeat case_decide; try done.
Qed.

Lemma elem_of_prefixPart info e :
  e ∈ prefixPart info ↔
  ∃ q pe, prefixEntries (collected info) !! q = Some pe ∧ e = rewritePrefix pe.
Proof.
  unfold gateway.prefixPart. rewrite list_elem_of_fmap. split.
  - intros (pe & -> & ([q pe'] & -> & Hin)%list_elem_of_fmap).
    apply elem_of_range in Hin. eauto.
  - intros (q & pe & Hq & ->). exists pe. split; [done|].
    apply list_elem_of_fmap. exists (q, pe). split; [done|]. by apply elem_of_range.
Qed.

Lemma elem_of_exactPart info e :
  e ∈ exactPart info ↔ ∃ k, exactEntries (expanded info) !! k = Some e.
Proof.
  unfold gateway.exactPart. rewrite list_elem_of_fmap. split.
  - intros ([k e'] & -> & Hin). apply elem_of_range in Hin. eauto.
  - intros (k & Hk). exists (k, e). split; [done|]. by apply elem_of_range.
Qed.

Lemma filter_values_by_key (L : list (string * Entry)) x :
  (∀ kv, kv ∈ L → ExactPath (Entry_Match kv.2) = kv.1) →
  filter (λ e, ExactPath (Entry_Match e) = x) L.*2 = (filter (λ kv, kv.1 = x) L).*2.
Proof.
  induction L as [|kv L IH]; intros HL; [done|].
  rewrite fmap_cons, !filter_cons, HL by left.
  rewrite IH by (intros ? ?; apply HL; by right).
  by case_decide.
Qed.

(** An exact path of the accumulator is carried by exactly one of the
    appended entries. *)
Lemma one_entry_per_exact_path info x e :
  exactEntries (expanded info) !! x = Some e →
  filter (λ e', ExactPath (Entry_Match e') = x) (produced info) = [e].
Proof.
  intros Hx. pose proof (expanded_exact_lookup _ _ _ Hx) as (_ & Hne & _).
  rewrite produced_parts, !filter_app.
  rewrite (filter_none _ (otherPart info)), (filter_none _ (prefixPart info)); simpl.
  - unfold gateway.exactPart. rewrite filter_values_by_key.
    + rewrite (filter_key_unique _ x e); [done|apply NoDup_range_keys|].
      by apply elem_of_range.
    + intros [k e'] Hin%elem_of_range. simpl.
      by pose proof (expanded_exact_lookup _ _ _ Hin) as (? & _).
  - intros e' (q & pe & Hq & ->)%elem_of_prefixPart.
    rewrite ExactPath_rewritePrefix.
    pose proof (collected_prefix_lookup _ _ _ Hq) as (_ & -> & _). done.
  - intros e' [-> _]%otherPart_paths. done.
Qed.

(** A prefix alternative of an accepted rule leaves an entry under its
    declared path in the prefix accumulator. *)
Lemma prefix_rule_collected info r rule m p :
  r ∈ gatewayRoutesOf info → rule ∈ rulesOf r →
  m ∈ mesh_proto.Rule.GetMatches rule →
  mesh_proto.Match.GetPath m = Some (mesh_proto.Path.mk mesh_proto.Path.PREFIX p) →
  p ≠ "" →
  is_Some (prefixEntries (collected info) !! p).
Proof.
  intros Hr Hrule Hm Hpath Hp. rewrite collected_place.
  pose (e := setMatch (makeRouteEntry rule) (makeRouteMatch m)).
  assert (PrefixPath (Entry_Match e) = p) as HP.
  { simpl. rewrite PrefixPath_makeRouteMatch. unfold declaredPath. by rewrite Hpath. }
  assert (ExactPath (Entry_Match e) = "") as HE.
  { simpl. rewrite ExactPath_makeRouteMatch. unfold declaredPath. by rewrite Hpath. }
  rewrite <- HP. apply place_prefix_dom; [|done|by rewrite HP].
  apply elem_of_denormalized. eauto 10.
Qed.

End Builder.

End gateway_facts.

(* ===================================================================== *)
(** * Properties of the route table builder                               *)
(* ===================================================================== *)

Module gateway_claims.
Import route gateway strings strings_facts gateway_facts.

Section Claims.

Variable WildcardHostname : string.
Variable match_Hostnames : string → list string → bool.
Variable prefixOrder exactOrder : MapOrder Entry.

#[local] Abbreviation gatewayRoutesOf :=
  (gateway.gatewayRoutesOf WildcardHostname match_Hostnames).
#[local] Abbreviation collected := (gateway.collected WildcardHostname match_Hostnames).
#[local] Abbreviation expanded :=
  (gateway.expanded WildcardHostname match_Hostnames prefixOrder).
#[local] Abbreviation GenerateHost :=
  (gateway.GenerateHost WildcardHostname match_Hostnames prefixOrder exactOrder).
#[local] Abbreviation produced :=
  (gateway.produced WildcardHostname match_Hostnames prefixOrder exactOrder).
#[local] Abbreviation otherPart := (gateway.otherPart WildcardHostname match_Hostnames).
#[local] Abbreviation prefixPart :=
  (gateway.prefixPart WildcardHostname match_Hostnames prefixOrder).
#[local] Abbreviation exactPart :=
  (gateway.exactPart WildcardHostname match_Hostnames prefixOrder exactOrder).

(** The wildcard host accepts every gateway route. *)
Lemma wildcard_accepts_all listener table routes :
  gatewayRoutesOf (mkInfo (mkHost WildcardHostname routes) listener table) =
    omap (λ r, match r with model.GatewayRoute g => Some g | _ => None end) routes.
Proof.
  unfold gateway.gatewayRoutesOf. rewrite filterGatewayRoutes_spec. simpl.
  generalize routes at 2 3 as l. intros l.
  induction l as [|r l IH]; [done|].
  destruct r; simpl; try apply IH.
  unfold acceptRoute at 1. simpl. rewrite decide_True by done.
  f_equal. apply IH.
Qed.

(** Scenario A, for any payloads, hostnames, listener and prior table. *)
Lemma scenario_A n1 h1 f1 b1 n2 h2 f2 b2 listener table :
  produced
    (mkInfo
       (mkHost WildcardHostname
          [policyObject n1 h1 [pathRule mesh_proto.Path.PREFIX "/foo" f1 b1];
           policyObject n2 h2 [pathRule mesh_proto.Path.EXACT "/foo" f2 b2]])
       listener table) =
    [setMatch (makeRouteEntry (pathRule mesh_proto.Path.PREFIX "/foo" f1 b1))
       (withPrefixPath Match_zero "/foo/");
     setMatch (makeRouteEntry (pathRule mesh_proto.Path.EXACT "/foo" f2 b2))
       (withExactPath Match_zero "/foo")].
Proof.
  rewrite produced_parts.
  unfold gateway.otherPart, gateway.prefixPart, gateway.exactPart,
    gateway.expanded, gateway.collected.
  rewrite !wildcard_accepts_all. simpl.
  unfold addRoute, rulesOf, addRule, addMatch. simpl.
  unfold place. simpl.
  rewrite insert_empty, !range_singleton. simpl.
  unfold expandPrefix. simpl.
  rewrite lookup_insert_eq. simpl.
  rewrite insert_empty, range_singleton. done.
Qed.


(** C3. For every prefix alternative of an accepted rule whose path,
    stripped of its trailing separators, is a non-empty path [x], exactly
    one of the entries the call appends has exact path [x]; that entry is
    either an exact entry built from the input or the exact twin
    synthesized from a prefix entry that strips to [x].  In Scenario A (two
    policy objects on the wildcard host, the first with prefix rule [/foo],
    the second with exact rule [/foo]) the call appends exactly the prefix
    entry [/foo/] and the one exact entry [/foo] of the second object,
    whatever the payloads and the iteration orders. *)
Theorem prefix_rule_has_exactly_one_exact_entry :
  (∀ info r rule m p,
     r ∈ gatewayRoutesOf info → rule ∈ rulesOf r →
     m ∈ mesh_proto.Rule.GetMatches rule →
     mesh_proto.Match.GetPath m = Some (mesh_proto.Path.mk mesh_proto.Path.PREFIX p) →
     trimRightByte p "/" ≠ "" →
     ∃ e,
       filter (λ e', ExactPath (Entry_Match e') = trimRightByte p "/") (produced info) = [e] ∧
       ((e ∈ denormalized (gatewayRoutesOf info) ∧ kindOf (Entry_Match e) = Exact) ∨
        (∃ pe, pe ∈ denormalized (gatewayRoutesOf info) ∧
               kindOf (Entry_Match pe) = Prefix ∧
               trimRightByte (PrefixPath (Entry_Match pe)) "/" = trimRightByte p "/" ∧
               e = synthesizeExact (rewritePrefix pe) (trimRightByte p "/")))) ∧
  (∀ n1 h1 f1 b1 n2 h2 f2 b2 listener table,
     produced
       (mkInfo
          (mkHost WildcardHostname
             [policyObject n1 h1 [pathRule mesh_proto.Path.PREFIX "/foo" f1 b1];
              policyObject n2 h2 [pathRule mesh_proto.Path.EXACT "/foo" f2 b2]])
          listener table) =
       [setMatch (makeRouteEntry (pathRule mesh_proto.Path.PREFIX "/foo" f1 b1))
          (withPrefixPath Match_zero "/foo/");
        setMatch (makeRouteEntry (pathRule mesh_proto.Path.EXACT "/foo" f2 b2))
          (withExactPath Match_zero "/foo")]).
Proof.
  split; [|apply scenario_A].
  intros info r rule m p Hr Hrule Hm Hpath Hx.
  assert (p ≠ "") as Hp by (by intros ->).
  destruct (prefix_rule_collected _ _ info r rule m p Hr Hrule Hm Hpath Hp) as [pe0 Hpe0].
  pose proof (collected_prefix_lookup _ _ _ _ _ Hpe0) as (_ & _ & HP0 & _).
  destruct (expand_exact_dom (range prefixOrder (prefixEntries (collected info)))
              (collected info) (p, pe0)) as [e He].
  { by apply elem_of_range. }
  { simpl. by rewrite HP0. }
  simpl in He. rewrite HP0 in He. fold (expanded info) in He.
  exists e. split; [by apply one_entry_per_exact_path|].
  pose proof (expanded_exact_lookup _ _ _ _ _ _ He) as (HE & _ & [Horig|(_ & q & pe & Hq & Hk & ->)]).
  - left. pose proof (collected_exact_lookup _ _ _ _ _ Horig) as (Hin & _ & _).
    split; [done|]. unfold kindOf. rewrite decide_True; [done|by rewrite HE].
  - right. exists pe.
    pose proof (collected_prefix_lookup _ _ _ _ _ Hq) as (Hin & HEq & HPq & Hqne).
    split_and!; [done| |by rewrite HPq|done].
    unfold kindOf. rewrite decide_False by (by rewrite HEq; intros ?).
    rewrite decide_True; [done|by rewrite HPq].
Qed.

(** C4. Every entry the call appends that carries a prefix path carries
    one that ends in exactly one separator: it is [t/] for a [t] that does
    not end in a separator, and it is the rewriting of a prefix entry of
    the input whose declared path is [t] followed by any number [n] of
    separators. *)
Theorem prefix_entries_end_in_one_separator info e :
  e ∈ produced info → PrefixPath (Entry_Match e) ≠ "" →
  ∃ t n pe,
    PrefixPath (Entry_Match e) = t +:+ "/" ∧ lastByte t ≠ Some "/"%char ∧
    pe ∈ denormalized (gatewayRoutesOf info) ∧
    PrefixPath (Entry_Match pe) = t +:+ repeatByte "/" n ∧
    e = rewritePrefix pe.
Proof.
  rewrite produced_parts, !elem_of_app.
  intros [Ho|[Hp|He]] Hne.
  - apply otherPart_paths in Ho as [_ Ho]. done.
  - apply elem_of_prefixPart in Hp as (q & pe & Hq & ->).
    pose proof (collected_prefix_lookup _ _ _ _ _ Hq) as (Hin & _ & _ & _).
    destruct (trimRightByte_decompose (PrefixPath (Entry_Match pe)) "/") as [n Hn].
    exists (trimRightByte (PrefixPath (Entry_Match pe)) "/"), n, pe.
    split_and!; [done|apply lastByte_trimRightByte|done|done|done].
  - apply elem_of_exactPart in He as (k & Hk).
    pose proof (expanded_exact_lookup _ _ _ _ _ _ Hk)
      as (HE & Hkne & [Horig|(_ & q & pe & _ & _ & ->)]); [|done].
    pose proof (collected_exact_lookup _ _ _ _ _ Horig) as (Hin & _ & _).
    exfalso. apply Hne. eapply denormalized_exclusive; [done|]. by rewrite HE.
Qed.

(** C6, as amended. A call returns the nil resource set and a nil error
    on every input, whether it appends entries or not, so the result
    carries no signal of its own.  A call that appends no entry, which is
    the case both when no candidate is accepted for the host and when the
    accepted objects have no match alternative, leaves the route table as
    it found it, and only such a call does: the caller tells that nothing
    applied by the table not having grown. *)
Theorem nothing_applicable_leaves_the_table info :
  (GenerateHost info).2 = (None, None) ∧
  (produced info = [] ↔
   Entries (RouteTable (GenerateHost info).1) = Entries (RouteTable info)) ∧
  (gatewayRoutesOf info = [] → produced info = [] ∧ (GenerateHost info).1 = info) ∧
  (denormalized (gatewayRoutesOf info) = [] → produced info = []).
Proof.
  split_and!.
  - apply GenerateHost_result.
  - rewrite GenerateHost_appends. split.
    + intros ->. by rewrite app_nil_r.
    + intros Hsame. apply (app_inv_head (Entries (RouteTable info))).
      by rewrite app_nil_r.
  - intros Hnil. split.
    + rewrite produced_parts.
      unfold gateway.otherPart, gateway.prefixPart, gateway.exactPart,
        gateway.expanded, gateway.collected.
      rewrite Hnil. simpl. rewrite range_empty. simpl. by rewrite range_empty.
    + unfold gateway.GenerateHost. rewrite Hnil. done.
  - intros Hnil. rewrite produced_parts.
    unfold gateway.otherPart, gateway.prefixPart, gateway.exactPart, gateway.expanded.
    rewrite collected_place, Hnil. simpl. rewrite range_empty. simpl.
    by rewrite range_empty.
Qed.

(** C7. For every prefix alternative of an accepted rule whose path
    consists of separators only, the call appends the prefix entry stored
    under that path rewritten to the root [/]; the exact accumulator gets
    no entry for its stripped path; and every appended entry that carries
    an exact path is an exact entry of the input or the twin of a prefix
    entry whose stripped path is not empty. *)
Theorem root_prefix_has_no_exact_twin info r rule m p :
  r ∈ gatewayRoutesOf info → rule ∈ rulesOf r →
  m ∈ mesh_proto.Rule.GetMatches rule →
  mesh_proto.Match.GetPath m = Some (mesh_proto.Path.mk mesh_proto.Path.PREFIX p) →
  p ≠ "" → trimRightByte p "/" = "" →
  (∃ pe, prefixEntries (collected info) !! p = Some pe ∧
         rewritePrefix pe ∈ produced info ∧
         PrefixPath (Entry_Match (rewritePrefix pe)) = "/" ∧
         ExactPath (Entry_Match (rewritePrefix pe)) = "") ∧
  exactEntries (expanded info) !! trimRightByte p "/" = None ∧
  (∀ e, e ∈ produced info → ExactPath (Entry_Match e) ≠ "" →
        exactEntries (collected info) !! ExactPath (Entry_Match e) = Some e ∨
        ∃ q pe, prefixEntries (collected info) !! q = Some pe ∧
                trimRightByte q "/" ≠ "" ∧
                e = synthesizeExact (rewritePrefix pe) (trimRightByte q "/")).
Proof.
  intros Hr Hrule Hm Hpath Hp Hroot. split_and!.
  - destruct (prefix_rule_collected _ _ info r rule m p Hr Hrule Hm Hpath Hp) as [pe Hpe].
    pose proof (collected_prefix_lookup _ _ _ _ _ Hpe) as (_ & HE & HP & _).
    exists pe. split_and!; [done| | |by rewrite ExactPath_rewritePrefix].
    + rewrite produced_parts, !elem_of_app. right. left.
      apply elem_of_prefixPart. eauto.
    + apply rewritten_is_root. by rewrite HP.
  - rewrite Hroot. destruct (exactEntries (expanded info) !! "") as [e|] eqn:E; [|done].
    by pose proof (expanded_exact_lookup _ _ _ _ _ _ E) as (_ & ? & _).
  - intros e. rewrite produced_parts, !elem_of_app. intros [Ho|[Hq|He]] Hne.
    + apply otherPart_paths in Ho as [Ho _]. done.
    + apply elem_of_prefixPart in Hq as (q & pe & Hq & ->).
      pose proof (collected_prefix_lookup _ _ _ _ _ Hq) as (_ & HE & _).
      by rewrite ExactPath_rewritePrefix in Hne.
    + apply elem_of_exactPart in He as (k & Hk).
      pose proof (expanded_exact_lookup _ _ _ _ _ _ Hk)
        as (HE & Hkne & [Horig|(_ & q & pe & Hq & Hqk & ->)]).
      * left. by rewrite HE.
      * right. exists q, pe. rewrite Hqk. done.
Qed.

(** C8. For every accepted rule whose match alternatives all classify as
    Other, the call appends one entry per alternative, in the rule's order
    and next to one another; each is the rule's one entry (action,
    redirect, mirror, header mutations) with that alternative's match.
    These entries sit among the Other entries of all accepted rules, which
    the call appends first and in loop order, none merged or dropped. *)
Theorem other_alternatives_are_appended_in_order info r rule :
  r ∈ gatewayRoutesOf info → rule ∈ rulesOf r →
  (∀ m, m ∈ mesh_proto.Rule.GetMatches rule → kindOf (makeRouteMatch m) = Other) →
  let block :=
    (λ m, setMatch (makeRouteEntry rule) (makeRouteMatch m))
      <$> mesh_proto.Rule.GetMatches rule in
  length block = length (mesh_proto.Rule.GetMatches rule) ∧
  Forall (λ e, kindOf (Entry_Match e) = Other ∧
               Entry_Action e = Entry_Action (makeRouteEntry rule) ∧
               Entry_Mirror e = Entry_Mirror (makeRouteEntry rule) ∧
               Entry_RequestHeaders e = Entry_RequestHeaders (makeRouteEntry rule))
    block ∧
  ∃ before after rest,
    filter (λ e, kindOf (Entry_Match e) = Other) (denormalized (gatewayRoutesOf info)) =
      before ++ block ++ after ∧
    produced info = (before ++ block ++ after) ++ rest.
Proof.
  intros Hr Hrule Hother block. split_and!.
  - unfold block. by rewrite length_fmap.
  - apply Forall_forall. intros e (m & -> & Hm)%list_elem_of_fmap. simpl.
    split_and!; [by apply Hother|done..].
  - destruct (denormalized_split _ r rule Hr Hrule) as (d1 & d2 & Hd).
    fold block in Hd.
    exists (filter (λ e, kindOf (Entry_Match e) = Other) d1),
           (filter (λ e, kindOf (Entry_Match e) = Other) d2),
           (prefixPart info ++ exactPart info).
    assert (filter (λ e, kindOf (Entry_Match e) = Other) block = block) as Hb.
    { apply filter_all. intros e (m & -> & Hm)%list_elem_of_fmap. simpl. by apply Hother. }
    split.
    + by rewrite Hd, !filter_app, Hb.
    + rewrite produced_parts. unfold gateway.otherPart.
      by rewrite Hd, !filter_app, Hb.
Qed.

End Claims.

(** ** The properties at the documented scenarios *)

(** Scenario A has one exact entry at [/foo]. *)
Lemma prefix_rule_has_exactly_one_exact_entry_witness :
  ∃ e,
    filter (λ e', ExactPath (Entry_Match e') = trimRightByte "/foo" "/")
      (produced "*" hostnameListed (listedOrder _) (listedOrder _) scenarioA) = [e] ∧
    ((e ∈ denormalized (gatewayRoutesOf "*" hostnameListed scenarioA) ∧
      kindOf (Entry_Match e) = Exact) ∨
     (∃ pe, pe ∈ denormalized (gatewayRoutesOf "*" hostnameListed scenarioA) ∧
            kindOf (Entry_Match pe) = Prefix ∧
            trimRightByte (PrefixPath (Entry_Match pe)) "/" = trimRightByte "/foo" "/" ∧
            e = synthesizeExact (rewritePrefix pe) (trimRightByte "/foo" "/"))).
Proof.
  apply (proj1 (prefix_rule_has_exactly_one_exact_entry "*" hostnameListed
                  (listedOrder _) (listedOrder _))
           scenarioA
           (gatewayRoute "object-1" [] [pathRule mesh_proto.Path.PREFIX "/foo" [] []])
           (pathRule mesh_proto.Path.PREFIX "/foo" [] [])
           (mesh_proto.Match.mk
              (Some (mesh_proto.Path.mk mesh_proto.Path.PREFIX "/foo"))
              mesh_proto.NONE [] [])).
  - vm_compute. left.
  - vm_compute. left.
  - vm_compute. left.
  - reflexivity.
  - vm_compute. discriminate.
Defined.

(** The prefix entry of Scenario A ends in one separator. *)
Lemma prefix_entries_end_in_one_separator_witness :
  ∃ t n pe,
    "/foo/" = t +:+ "/" ∧ lastByte t ≠ Some "/"%char ∧
    pe ∈ denormalized (gatewayRoutesOf "*" hostnameListed scenarioA) ∧
    PrefixPath (Entry_Match pe) = t +:+ repeatByte "/" n ∧
    setMatch Entry_zero (withPrefixPath Match_zero "/foo/") = rewritePrefix pe.
Proof.
  apply (prefix_entries_end_in_one_separator "*" hostnameListed
           (listedOrder _) (listedOrder _) scenarioA
           (setMatch Entry_zero (withPrefixPath Match_zero "/foo/"))).
  - vm_compute. left.
  - vm_compute. discriminate.
Defined.

(** A host none of whose candidates is accepted keeps its table. *)
Lemma nothing_applicable_leaves_the_table_witness :
  produced "*" hostnameListed (listedOrder _) (listedOrder _) nothingAccepted = [] ∧
  (GenerateHost "*" hostnameListed (listedOrder _) (listedOrder _) nothingAccepted).1
    = nothingAccepted.
Proof.
  apply (proj1 (proj2 (proj2 (nothing_applicable_leaves_the_table "*" hostnameListed
                                (listedOrder _) (listedOrder _) nothingAccepted)))).
  vm_compute. reflexivity.
Defined.

(** The result of a call that appends nothing, for either reason, is the
    result of a call that appends two entries: no function of the result
    tells the three apart. *)
Lemma nil_result_is_no_signal :
  produced "*" hostnameListed (listedOrder _) (listedOrder _) nothingAccepted = [] ∧
  produced "*" hostnameListed (listedOrder _) (listedOrder _) nothingDeclared = [] ∧
  length (produced "*" hostnameListed (listedOrder _) (listedOrder _) scenarioA) = 2%nat ∧
  (GenerateHost "*" hostnameListed (listedOrder _) (listedOrder _) nothingAccepted).2 =
    (None, None) ∧
  (GenerateHost "*" hostnameListed (listedOrder _) (listedOrder _) nothingDeclared).2 =
    (None, None) ∧
  (GenerateHost "*" hostnameListed (listedOrder _) (listedOrder _) scenarioA).2 =
    (None, None) ∧
  ¬ ∃ signal : option core_xds.ResourceSet * option core_xds.error → bool,
      ∀ info,
        signal (GenerateHost "*" hostnameListed (listedOrder _) (listedOrder _) info).2 = true
        ↔ produced "*" hostnameListed (listedOrder _) (listedOrder _) info = [].
Proof.
  split_and!; try (vm_compute; reflexivity).
  intros [signal Hsignal].
  pose proof (Hsignal nothingAccepted) as Hnone.
  pose proof (Hsignal scenarioA) as Hsome.
  rewrite GenerateHost_result in Hnone, Hsome.
  assert (produced "*" hostnameListed (listedOrder _) (listedOrder _) scenarioA = [])
    as Habs.
  { apply Hsome, Hnone. vm_compute. reflexivity. }
  vm_compute in Habs. discriminate.
Qed.

(** A prefix [//] yields the root prefix entry and no exact entry. *)
Lemma root_prefix_has_no_exact_twin_witness :
  produced "*" hostnameListed (listedOrder _) (listedOrder _) rootPrefix =
    [setMatch Entry_zero (withPrefixPath Match_zero "/")] ∧
  exactEntries (expanded "*" hostnameListed (listedOrder _) rootPrefix)
    !! trimRightByte "//" "/" = None.
Proof.
  split; [vm_compute; reflexivity|].
  apply (root_prefix_has_no_exact_twin "*" hostnameListed
           (listedOrder _) (listedOrder _) rootPrefix
           (gatewayRoute "object-1" [] [pathRule mesh_proto.Path.PREFIX "//" [] []])
           (pathRule mesh_proto.Path.PREFIX "//" [] [])
           (mesh_proto.Match.mk
              (Some (mesh_proto.Path.mk mesh_proto.Path.PREFIX "//"))
              mesh_proto.NONE [] [])).
  - vm_compute. left.
  - vm_compute. left.
  - vm_compute. left.
  - reflexivity.
  - discriminate.
  - vm_compute. reflexivity.
Defined.

(** Scenario B: the two alternatives give two Other entries that share the
    rule's forward action. *)
Lemma other_alternatives_are_appended_in_order_witness :
  let block :=
    (λ m, setMatch (makeRouteEntry scenarioB_rule) (makeRouteMatch m))
      <$> mesh_proto.Rule.GetMatches scenarioB_rule in
  length block = 2%nat ∧
  Forall (λ e, kindOf (Entry_Match e) = Other ∧
               Entry_Action e = Entry_Action (makeRouteEntry scenarioB_rule) ∧
               Entry_Mirror e = Entry_Mirror (makeRouteEntry scenarioB_rule) ∧
               Entry_RequestHeaders e = Entry_RequestHeaders (makeRouteEntry scenarioB_rule))
    block ∧
  ∃ before after rest,
    filter (λ e, kindOf (Entry_Match e) = Other)
      (denormalized (gatewayRoutesOf "*" hostnameListed scenarioB)) =
      before ++ block ++ after ∧
    produced "*" hostnameListed (listedOrder _) (listedOrder _) scenarioB =
      (before ++ block ++ after) ++ rest.
Proof.
  apply (other_alternatives_are_appended_in_order "*" hostnameListed
           (listedOrder _) (listedOrder _) scenarioB
           (gatewayRoute "object-1" [] [scenarioB_rule]) scenarioB_rule).
  - vm_compute. left.
  - vm_compute. left.
  - intros m Hm. vm_compute in Hm.
    inversion Hm as [|? ? ? Hm']; subst; [reflexivity|].
    inversion Hm' as [|? ? ? Hm'']; subst; [reflexivity|].
    inversion Hm''.
Defined.

(** Scenario B appends exactly the two entries. *)
Example scenario_B_output :
  produced "*" hostnameListed (listedOrder _) (listedOrder _) scenarioB =
    [setMatch (makeRouteEntry scenarioB_rule)
       (withExactHeader Match_zero [Pair "X" "1"]);
     setMatch (makeRouteEntry scenarioB_rule) (withMethod Match_zero "GET")].
Proof. vm_compute. reflexivity. Qed.

(** The iteration order shows in the output: with prefix rules [/foo] and
    [/foo/] of different backends, the exact twin [/foo] forwards to the
    backend of whichever prefix entry the loop meets first. *)
Example iteration_order_matters :
  let twin (o : MapOrder Entry) :=
    filter (λ e, ExactPath (Entry_Match e) = "/foo")
      (produced "*" hostnameListed o (listedOrder _) twoPrefixes) in
  ((λ e, Forward (Entry_Action e)) <$> twin (listedOrder _)) ≠
  ((λ e, Forward (Entry_Action e)) <$> twin (reversedOrder _)).
Proof. vm_compute. discriminate. Qed.

End gateway_claims.

(* ===================================================================== *)
(** * Properties of method matching                                       *)
(* ===================================================================== *)

Module matching_claims.
Import route gateway matching gateway_facts.

Lemma names_declared v : names (declared v) = Some (verbName v).
Proof. by destruct v. Qed.

Lemma isNONE_declared v : isNONE (declared v) = false.
Proof. by destruct v. Qed.

Lemma verbName_inj v w : verbName v = verbName w → v = w.
Proof. destruct v, w; simpl; intros H; try reflexivity; discriminate H. Qed.

Lemma verbName_nonempty v : verbName v ≠ "".
Proof. by destruct v. Qed.

(** The declared names are exactly the nine verbs. *)
Lemma names_Some m s :
  names m = Some s ↔ ∃ v, m = declared v ∧ s = verbName v.
Proof.
  split.
  - destruct m; simpl; intros [= <-];
      first [ by exists vCONNECT | by exists vDELETE | by exists vGET
            | by exists vHEAD | by exists vOPTIONS | by exists vPATCH
            | by exists vPOST | by exists vPUT | by exists vTRACE ].
  - intros (v & -> & ->). apply names_declared.
Qed.

(** C9. Method matching ranges over the nine verbs GET, POST, PUT, PATCH,
    DELETE, HEAD, OPTIONS, CONNECT and TRACE: the entry built from a rule
    match that declares one of them matches a request exactly when the
    request's verb is the declared one, and the entry built from a rule
    match that declares the unconstrained method [NONE] matches all nine. *)
Theorem method_matching_over_nine_verbs :
  allVerbs = [vGET; vPOST; vPUT; vPATCH; vDELETE; vHEAD; vOPTIONS; vCONNECT; vTRACE] ∧
  (∀ v, v ∈ allVerbs) ∧
  (∀ rm declaredVerb request,
     mesh_proto.Match.GetMethod rm = declared declaredVerb →
     Method (makeRouteMatch rm) = verbName declaredVerb ∧
     (methodMatches (makeRouteMatch rm) request = true ↔ request = declaredVerb)) ∧
  (∀ rm,
     mesh_proto.Match.GetMethod rm = mesh_proto.NONE →
     Method (makeRouteMatch rm) = "" ∧
     Forall (λ request, methodMatches (makeRouteMatch rm) request = true) allVerbs).
Proof.
  split_and!.
  - reflexivity.
  - intros v. unfold allVerbs. destruct v; set_solver.
  - intros rm d request Hm.
    assert (Method (makeRouteMatch rm) = verbName d) as HM.
    { by rewrite Method_makeRouteMatch, Hm, isNONE_declared, names_declared. }
    split; [done|]. unfold methodMatches. rewrite HM.
    rewrite decide_False by apply verbName_nonempty.
    rewrite bool_decide_eq_true. split.
    + intros H. symmetry. by apply verbName_inj.
    + by intros ->.
  - intros rm Hm.
    assert (Method (makeRouteMatch rm) = "") as HM.
    { by rewrite Method_makeRouteMatch, Hm. }
    split; [done|]. apply Forall_forall. intros request _.
    unfold methodMatches. by rewrite HM.
Qed.

(** The entries of a [GET] rule and of an unconstrained rule. *)
Lemma method_matching_over_nine_verbs_witness :
  (Method (makeRouteMatch (mesh_proto.Match.mk None mesh_proto.GET [] [])) = "GET" ∧
   (methodMatches (makeRouteMatch (mesh_proto.Match.mk None mesh_proto.GET [] [])) vPOST
      = true ↔ vPOST = vGET)) ∧
  (Method (makeRouteMatch (mesh_proto.Match.mk None mesh_proto.NONE [] [])) = "" ∧
   Forall (λ request,
             methodMatches (makeRouteMatch (mesh_proto.Match.mk None mesh_proto.NONE [] []))
               request = true) allVerbs).
Proof.
  split.
  - apply (proj1 (proj2 (proj2 method_matching_over_nine_verbs))
             (mesh_proto.Match.mk None mesh_proto.GET [] []) vGET vPOST).
    reflexivity.
  - apply (proj2 (proj2 (proj2 method_matching_over_nine_verbs))
             (mesh_proto.Match.mk None mesh_proto.NONE [] [])).
    reflexivity.
Defined.

(** A method number outside the declared names is not in the [names] map:
    the entry gets the empty method and is unconstrained. *)
Lemma unrecognized_method_is_unconstrained rm n request :
  mesh_proto.Match.GetMethod rm = mesh_proto.Method_unrecognized n →
  Method (makeRouteMatch rm) = "" ∧ methodMatches (makeRouteMatch rm) request = true.
Proof.
  intros Hm.
  assert (Method (makeRouteMatch rm) = "") as HM.
  { by rewrite Method_makeRouteMatch, Hm. }
  split; [done|]. unfold methodMatches. by rewrite HM.
Qed.

End matching_claims.

(* ===================================================================== *)
(** * Properties of the TLS context helpers                               *)
(* ===================================================================== *)

Module tls_claims.
Import envoy_type_matcher envoy_tls xds_context v3 strings_facts.

(** The exact identity of a service determines the service. *)
Lemma ServiceSpiffeID_inj mesh s1 s2 :
  xds_tls.ServiceSpiffeID mesh s1 = xds_tls.ServiceSpiffeID mesh s2 → s1 = s2.
Proof.
  unfold xds_tls.ServiceSpiffeID. intros H.
  by do 3 apply append_inj_l in H.
Qed.

Lemma append_assoc a b c : (a +:+ b) +:+ c = a +:+ b +:+ c.
Proof.
  induction a as [|x a IH]; [done|].
  rewrite !append_cons. by rewrite IH.
Qed.

(** The identity of a service lies under the prefix of its mesh. *)
Lemma ServiceSpiffeID_under_prefix mesh service :
  xds_tls.ServiceSpiffeID mesh service = xds_tls.MeshSpiffeIDPrefix mesh +:+ service.
Proof.
  unfold xds_tls.ServiceSpiffeID, xds_tls.MeshSpiffeIDPrefix.
  by rewrite !append_assoc.
Qed.

Lemma StringMatcher_Exact_inj a b : StringMatcher_Exact a = StringMatcher_Exact b → a = b.
Proof. by intros [= ->]. Qed.

Section TlsClaims.

Variable MeshCaResource IdentityCertResource : string.
Variable KumaALPNProtocols : list string.

#[local] Abbreviation CreateDownstreamTlsContext :=
  (v3.CreateDownstreamTlsContext MeshCaResource IdentityCertResource).
#[local] Abbreviation CreateUpstreamTlsContext :=
  (v3.CreateUpstreamTlsContext MeshCaResource IdentityCertResource KumaALPNProtocols).

(** What upstream synthesis returns when mTLS is enabled. *)
Lemma CreateUpstreamTlsContext_enabled ctx upstreamService sni :
  enabled ctx = true →
  ∃ c, CreateUpstreamTlsContext ctx upstreamService sni = (Some c, None) ∧
       Sni c = sni ∧
       AlpnProtocols (Upstream_CommonTlsContext c) = KumaALPNProtocols ∧
       sanMatchers (Upstream_CommonTlsContext c) =
         [if decide (upstreamService = "*")
          then MeshSpiffeIDPrefixMatcher (meshOf ctx)
          else ServiceSpiffeIDMatcher (meshOf ctx) upstreamService].
Proof.
  unfold enabled, meshOf, v3.CreateUpstreamTlsContext. intros ->. simpl.
  eexists. split; [reflexivity|]. done.
Qed.

Lemma CreateDownstreamTlsContext_enabled ctx :
  enabled ctx = true →
  ∃ d, CreateDownstreamTlsContext ctx = (Some d, None) ∧
       RequireClientCertificate d = Some true ∧
       sanMatchers (Downstream_CommonTlsContext d) =
         [MeshSpiffeIDPrefixMatcher (meshOf ctx)].
Proof.
  unfold enabled, meshOf, v3.CreateDownstreamTlsContext. intros ->. simpl.
  eexists. split; [reflexivity|]. done.
Qed.

(** C2. When mTLS is disabled in the mesh, downstream synthesis and
    upstream synthesis (for every target and SNI) both return no context
    and no error. *)
Theorem disabled_mtls_yields_no_context ctx :
  MTLSEnabled (Mesh_Resource (Mesh ctx)) = false →
  CreateDownstreamTlsContext ctx = (None, None) ∧
  ∀ upstreamService sni, CreateUpstreamTlsContext ctx upstreamService sni = (None, None).
Proof.
  intros Hoff. unfold v3.CreateDownstreamTlsContext, v3.CreateUpstreamTlsContext.
  rewrite Hoff. simpl. done.
Qed.

(** The context is there exactly when mTLS is enabled, and then it names
    the trust anchor and the identity certificate. *)
Lemma context_present_iff_enabled ctx upstreamService sni :
  (is_Some (CreateDownstreamTlsContext ctx).1 ↔ enabled ctx = true) ∧
  (is_Some (CreateUpstreamTlsContext ctx upstreamService sni).1 ↔ enabled ctx = true) ∧
  (∀ d, (CreateDownstreamTlsContext ctx).1 = Some d →
        TlsCertificateSdsSecretConfigs (Downstream_CommonTlsContext d) =
          [sdsSecretConfig IdentityCertResource]).
Proof.
  unfold enabled, v3.CreateDownstreamTlsContext, v3.CreateUpstreamTlsContext.
  destruct (MTLSEnabled (Mesh_Resource (Mesh ctx))); simpl.
  - split_and!; [split; eauto..|]. by intros d [= <-].
  - split_and!; [split; [by intros [? ?]|done]..|done].
Qed.

(** C5. With mTLS enabled, upstream synthesis for the wildcard target
    verifies against the mesh-wide prefix matcher, that is the prefix
    matcher on [spiffe://mesh/], the one downstream synthesis uses; for
    any other target it verifies against the exact matcher of the identity
    [spiffe://mesh/service], which the wildcard matcher's prefix begins;
    and two distinct targets in the same mesh never get equal matchers. *)
Theorem upstream_matchers ctx :
  MTLSEnabled (Mesh_Resource (Mesh ctx)) = true →
  (∀ sni, ∃ c d,
     CreateUpstreamTlsContext ctx "*" sni = (Some c, None) ∧
     CreateDownstreamTlsContext ctx = (Some d, None) ∧
     sanMatchers (Upstream_CommonTlsContext c) =
       [MeshSpiffeIDPrefixMatcher (meshOf ctx)] ∧
     sanMatchers (Upstream_CommonTlsContext c) =
       [StringMatcher_Prefix ("spiffe://" +:+ meshOf ctx +:+ "/")] ∧
     sanMatchers (Upstream_CommonTlsContext c) =
       sanMatchers (Downstream_CommonTlsContext d)) ∧
  (∀ service sni, service ≠ "*" → ∃ c,
     CreateUpstreamTlsContext ctx service sni = (Some c, None) ∧
     sanMatchers (Upstream_CommonTlsContext c) =
       [ServiceSpiffeIDMatcher (meshOf ctx) service] ∧
     sanMatchers (Upstream_CommonTlsContext c) =
       [StringMatcher_Exact ("spiffe://" +:+ meshOf ctx +:+ "/" +:+ service)] ∧
     xds_tls.ServiceSpiffeID (meshOf ctx) service =
       xds_tls.MeshSpiffeIDPrefix (meshOf ctx) +:+ service) ∧
  (∀ service1 service2 sni1 sni2 c1 c2,
     service1 ≠ service2 →
     CreateUpstreamTlsContext ctx service1 sni1 = (Some c1, None) →
     CreateUpstreamTlsContext ctx service2 sni2 = (Some c2, None) →
     sanMatchers (Upstream_CommonTlsContext c1) ≠
       sanMatchers (Upstream_CommonTlsContext c2)).
Proof.
  intros Hon. split_and!.
  - intros sni.
    destruct (CreateUpstreamTlsContext_enabled ctx "*" sni Hon) as (c & Hc & _ & _ & Hm).
    destruct (CreateDownstreamTlsContext_enabled ctx Hon) as (d & Hd & _ & Hmd).
    exists c, d. rewrite decide_True in Hm by done. by rewrite Hmd.
  - intros service sni Hne.
    destruct (CreateUpstreamTlsContext_enabled ctx service sni Hon) as (c & Hc & _ & _ & Hm).
    exists c. rewrite decide_False in Hm by done. split_and!; try done.
    apply ServiceSpiffeID_under_prefix.
  - intros s1 s2 sni1 sni2 c1 c2 Hne H1 H2.
    destruct (CreateUpstreamTlsContext_enabled ctx s1 sni1 Hon) as (c1' & H1' & _ & _ & Hm1).
    destruct (CreateUpstreamTlsContext_enabled ctx s2 sni2 Hon) as (c2' & H2' & _ & _ & Hm2).
    rewrite H1 in H1'. rewrite H2 in H2'.
    injection H1' as <-. injection H2' as <-.
    rewrite Hm1, Hm2. intros [= Heq].
    repeat case_decide; subst; try done.
    apply StringMatcher_Exact_inj in Heq. by apply ServiceSpiffeID_inj in Heq.
Qed.

End TlsClaims.

(** In the mesh with mTLS disabled neither direction gets a context. *)
Lemma disabled_mtls_yields_no_context_witness :
  v3.CreateDownstreamTlsContext "mesh_ca" "identity_cert" meshDisabled = (None, None) ∧
  v3.CreateUpstreamTlsContext "mesh_ca" "identity_cert" ["kuma"] meshDisabled
    "backend" "backend.mesh" = (None, None).
Proof.
  destruct (disabled_mtls_yields_no_context "mesh_ca" "identity_cert" ["kuma"]
              meshDisabled) as [Hdown Hup].
  - reflexivity.
  - split; [exact Hdown|exact (Hup "backend" "backend.mesh")].
Defined.

(** In the mesh [default] with mTLS enabled the wildcard target is
    verified against the prefix [spiffe://default/], and the targets [web]
    and [backend] are verified against different matchers. *)
Lemma upstream_matchers_witness :
  (∃ c d,
     v3.CreateUpstreamTlsContext "mesh_ca" "identity_cert" ["kuma"] meshEnabled
       "*" "backend.mesh" = (Some c, None) ∧
     v3.CreateDownstreamTlsContext "mesh_ca" "identity_cert" meshEnabled = (Some d, None) ∧
     sanMatchers (Upstream_CommonTlsContext c) =
       [StringMatcher_Prefix "spiffe://default/"] ∧
     sanMatchers (Downstream_CommonTlsContext d) =
       [StringMatcher_Prefix "spiffe://default/"]) ∧
  ∃ c1 c2,
    v3.CreateUpstreamTlsContext "mesh_ca" "identity_cert" ["kuma"] meshEnabled
      "web" "web.mesh" = (Some c1, None) ∧
    v3.CreateUpstreamTlsContext "mesh_ca" "identity_cert" ["kuma"] meshEnabled
      "backend" "backend.mesh" = (Some c2, None) ∧
    sanMatchers (Upstream_CommonTlsContext c1) ≠
      sanMatchers (Upstream_CommonTlsContext c2).
Proof.
  destruct (upstream_matchers "mesh_ca" "identity_cert" ["kuma"] meshEnabled)
    as (Hwild & _ & Hdistinct).
  - reflexivity.
  - split.
    + destruct (Hwild "backend.mesh") as (c & d & Hc & Hd & _ & Hprefix & Hsame).
      exists c, d. split; [exact Hc|]. split; [exact Hd|].
      split; [exact Hprefix|]. rewrite <- Hsame. exact Hprefix.
    + eexists _, _. split; [reflexivity|]. split; [reflexivity|].
      apply (Hdistinct "web" "backend" "web.mesh" "backend.mesh").
      * discriminate.
      * reflexivity.
      * reflexivity.
Defined.

Example upstream_wildcard_matcher :
  ∃ c, v3.CreateUpstreamTlsContext "mesh_ca" "identity_cert" ["kuma"] meshEnabled
         "*" "backend.mesh" = (Some c, None) ∧
       sanMatchers (Upstream_CommonTlsContext c) =
         [StringMatcher_Prefix "spiffe://default/"].
Proof. eexists. split; reflexivity. Qed.

Example upstream_service_matcher :
  ∃ c, v3.CreateUpstreamTlsContext "mesh_ca" "identity_cert" ["kuma"] meshEnabled
         "backend" "backend.mesh" = (Some c, None) ∧
       sanMatchers (Upstream_CommonTlsContext c) =
         [StringMatcher_Exact "spiffe://default/backend"].
Proof. eexists. split; reflexivity. Qed.

End tls_claims.

(* ===================================================================== *)
(** * Properties of the dataplane metadata decoder                        *)
(* ===================================================================== *)

Module xds_claims.
Import xds effects structpb.

(** ** The effect monad *)

Lemma bind_returned {A B} (c : M A) (k : A → M B) log a log' :
  c log = (Returned a, log') → bind c k log = k a log'.
Proof. unfold bind. by intros ->. Qed.

Lemma bind_panicked {A B} (c : M A) (k : A → M B) log r log' :
  c log = (Panicked r, log') → bind c k log = (Panicked r, log').
Proof. unfold bind. by intros ->. Qed.

(** ** [strconv.Atoi] *)

Lemma Atoi_in_range sz s n :
  strconv.Atoi sz s = Some n →
  (- 2 ^ (strconv.intBits sz - 1) ≤ n < 2 ^ (strconv.intBits sz - 1))%Z.
Proof.
  unfold strconv.Atoi. destruct s as [|ch rest]; [done|].
  destruct (if decide (ch = "-"%char ∨ ch = "+"%char) then rest else String ch rest);
    [done|].
  destruct (strconv.digitsFrom 0 _) as [un|]; [|done].
  case_decide; [|done]. by intros [= <-].
Qed.

Example Atoi_examples :
  strconv.Atoi strconv.Int64 "8080" = Some 8080%Z ∧
  strconv.Atoi strconv.Int64 "+12" = Some 12%Z ∧
  strconv.Atoi strconv.Int64 "-1" = Some (-1)%Z ∧
  strconv.Atoi strconv.Int64 "" = None ∧
  strconv.Atoi strconv.Int64 "-" = None ∧
  strconv.Atoi strconv.Int64 "1_0" = None ∧
  strconv.Atoi strconv.Int64 "not-a-number" = None ∧
  strconv.Atoi strconv.Int64 "9223372036854775807" = Some 9223372036854775807%Z ∧
  strconv.Atoi strconv.Int64 "9223372036854775808" = None ∧
  strconv.Atoi strconv.Int32 "2147483648" = None.
Proof. repeat split; vm_compute; reflexivity. Qed.

(** ** [uint32Metadata] *)

Lemma toUint32_range n : (0 ≤ toUint32 n < 2 ^ 32)%Z.
Proof. unfold toUint32. apply Z.mod_pos_bound. lia. Qed.

(** On a non-nil bag the port decoder always returns, and its result is a
    [uint32]. *)
Lemma uint32Metadata_returns sz fields field log :
  ∃ port log',
    uint32Metadata sz (Some fields) field log = (Returned port, log') ∧
    (0 ≤ port < 2 ^ 32)%Z.
Proof.
  unfold uint32Metadata. destruct (fields !! field) as [value|].
  - destruct (strconv.Atoi sz _) as [port|].
    + eexists _, _. split; [reflexivity|apply toUint32_range].
    + eexists _, _. split; [reflexivity|]. lia.
  - eexists _, _. split; [reflexivity|]. lia.
Qed.

(** [strconv.Atoi] accepts the decimal numerals whose value fits [int]. *)
Lemma Atoi_decimal sz s :
  strconv.Atoi sz s =
    match numerals.decimal s with
    | Some n =>
        if decide (- 2 ^ (strconv.intBits sz - 1) ≤ n < 2 ^ (strconv.intBits sz - 1))%Z
        then Some n else None
    | None => None
    end.
Proof.
  unfold strconv.Atoi, numerals.decimal. destruct s as [|ch rest]; [done|].
  destruct (if decide (ch = "-"%char ∨ ch = "+"%char) then rest else String ch rest);
    [done|].
  by destruct (strconv.digitsFrom 0 _).
Qed.

(** C10, as amended. A port value that is the decimal numeral of an
    integer [n] in the range of Go's [int] is accepted without a log
    record and decodes to [n] reduced modulo 2^32, whether or not [n] is
    in the range of a [uint32].  The numeral of an integer beyond the range
    of [int] is rejected like a value that is no numeral at all: it
    decodes to 0 with one log record.  So ["-1"] decodes to 4294967295,
    and the numeral of 2^32 decodes to 0, on a 64-bit [int] by wrapping
    around with no record, on a 32-bit [int] by rejection with a record. *)
Theorem uint32Metadata_reduces_modulo_2_32 :
  (∀ sz fields field value n log,
     fields !! field = Some value →
     numerals.decimal (GetStringValue (Some value)) = Some n →
     numerals.fitsInt sz n →
     uint32Metadata sz (Some fields) field log = (Returned (n mod 2 ^ 32)%Z, log)) ∧
  (∀ sz fields field value n log,
     fields !! field = Some value →
     numerals.decimal (GetStringValue (Some value)) = Some n →
     ¬ numerals.fitsInt sz n →
     ∃ record,
       uint32Metadata sz (Some fields) field log = (Returned 0%Z, log ++ [record])) ∧
  (∀ sz fields field value log,
     fields !! field = Some value →
     numerals.decimal (GetStringValue (Some value)) = None →
     ∃ record,
       uint32Metadata sz (Some fields) field log = (Returned 0%Z, log ++ [record])) ∧
  (∀ sz field,
     run (uint32Metadata sz (Some {[ field := StringValue "-1" ]}) field) =
       (Returned 4294967295%Z, [])) ∧
  (∀ field,
     run (uint32Metadata strconv.Int64 (Some {[ field := StringValue "4294967296" ]}) field) =
       (Returned 0%Z, [])) ∧
  (∀ field, ∃ record,
     run (uint32Metadata strconv.Int32 (Some {[ field := StringValue "4294967296" ]}) field) =
       (Returned 0%Z, [record])).
Proof.
  unfold numerals.fitsInt. split_and!.
  - intros sz fields field value n log Hv Hn Hfits.
    unfold uint32Metadata. rewrite Hv, Atoi_decimal, Hn. by rewrite decide_True.
  - intros sz fields field value n log Hv Hn Hfits.
    unfold uint32Metadata. rewrite Hv, Atoi_decimal, Hn. rewrite decide_False by done.
    eexists. reflexivity.
  - intros sz fields field value log Hv Hn.
    unfold uint32Metadata. rewrite Hv, Atoi_decimal, Hn. eexists. reflexivity.
  - intros sz field. unfold run, uint32Metadata.
    rewrite lookup_singleton_eq. by destruct sz.
  - intros field. unfold run, uint32Metadata. by rewrite lookup_singleton_eq.
  - intros field. unfold run, uint32Metadata. rewrite lookup_singleton_eq.
    eexists. reflexivity.
Qed.

(** The port ["4294967297"], which is out of the range of a [uint32],
    decodes to 1; the numeral of 2^63 + 1 and the value ["not-a-number"]
    decode to 0 with a log record. *)
Lemma uint32Metadata_reduces_modulo_2_32_witness :
  uint32Metadata strconv.Int64
    (Some {[ fieldDataplaneAdminPort := StringValue "4294967297" ]})
    fieldDataplaneAdminPort [] = (Returned (4294967297 mod 2 ^ 32)%Z, []) ∧
  (∃ record,
     uint32Metadata strconv.Int64
       (Some {[ fieldDataplaneDNSPort := StringValue "9223372036854775809" ]})
       fieldDataplaneDNSPort [] = (Returned 0%Z, [] ++ [record])) ∧
  ∃ record,
    uint32Metadata strconv.Int64 (Some scenarioC) fieldDataplaneAdminPort [] =
      (Returned 0%Z, [] ++ [record]).
Proof.
  split_and!.
  - apply (proj1 uint32Metadata_reduces_modulo_2_32 strconv.Int64
             {[ fieldDataplaneAdminPort := StringValue "4294967297" ]}
             fieldDataplaneAdminPort (StringValue "4294967297") 4294967297%Z []).
    + vm_compute. reflexivity.
    + vm_compute. reflexivity.
    + unfold numerals.fitsInt. simpl. lia.
  - apply (proj1 (proj2 uint32Metadata_reduces_modulo_2_32) strconv.Int64
             {[ fieldDataplaneDNSPort := StringValue "9223372036854775809" ]}
             fieldDataplaneDNSPort (StringValue "9223372036854775809")
             9223372036854775809%Z []).
    + vm_compute. reflexivity.
    + vm_compute. reflexivity.
    + unfold numerals.fitsInt. simpl. lia.
  - apply (proj1 (proj2 (proj2 uint32Metadata_reduces_modulo_2_32)) strconv.Int64
             scenarioC fieldDataplaneAdminPort (StringValue "not-a-number") []).
    + vm_compute. reflexivity.
    + vm_compute. reflexivity.
Defined.

(** The value ["9223372036854775809"] is the decimal numeral of 2^63 + 1,
    which is 1 modulo 2^32; on a 64-bit [int] it decodes to 0, with a log
    record. *)
Lemma numeral_beyond_int_decodes_to_zero :
  numerals.decimal "9223372036854775809" = Some (2 ^ 63 + 1)%Z ∧
  ((2 ^ 63 + 1) mod 2 ^ 32 = 1)%Z ∧
  ∃ record,
    uint32Metadata strconv.Int64
      (Some {[ fieldDataplaneAdminPort := StringValue "9223372036854775809" ]})
      fieldDataplaneAdminPort [] = (Returned 0%Z, [record]).
Proof.
  split; [vm_compute; reflexivity|]. split; [reflexivity|].
  eexists. vm_compute. reflexivity.
Qed.

(** An integer beyond the range of [int] is a parse failure of
    [strconv.Atoi] and decodes to 0 with a log record. *)
Example port_beyond_int_is_rejected :
  ∃ record,
    run (uint32Metadata strconv.Int64
           (Some {[ fieldDataplaneAdminPort := StringValue "9223372036854775809" ]})
           fieldDataplaneAdminPort) = (Returned 0%Z, [record]).
Proof. eexists. vm_compute. reflexivity. Qed.

(** ** The accessors *)

(** On a nil record every accessor returns the zero value of its field,
    the proxy type defaulting to the dataplane proxy type. *)
Lemma accessors_on_nil DataplaneProxyType key :
  GetDataplaneToken None = "" ∧
  GetDataplaneResource None = None ∧
  GetZoneIngressResource None = None ∧
  GetProxyType DataplaneProxyType None = DataplaneProxyType ∧
  GetAdminPort None = 0%Z ∧
  GetDNSPort None = 0%Z ∧
  GetEmptyDNSPort None = 0%Z ∧
  GetDynamicMetadata None key = "" ∧
  GetVersion None = None.
Proof. done. Qed.

(** The same on the zero record. *)
Lemma accessors_on_zero DataplaneProxyType key :
  let m := Some DataplaneMetadata_zero in
  GetDataplaneToken m = "" ∧
  GetDataplaneResource m = None ∧
  GetZoneIngressResource m = None ∧
  GetProxyType DataplaneProxyType m = DataplaneProxyType ∧
  GetAdminPort m = 0%Z ∧
  GetDNSPort m = 0%Z ∧
  GetEmptyDNSPort m = 0%Z ∧
  GetDynamicMetadata m key = "" ∧
  GetVersion m = None.
Proof. done. Qed.

(** ** [DataplaneMetadataFromXdsMetadata] *)

Section DecoderFacts.

Variable UnmarshallToCore : string → option model.Resource * option core_xds.error.
Variable ToTyped : Struct → Version * option core_xds.error.
Variable intSize : strconv.IntSize.

#[local] Abbreviation decode :=
  (DataplaneMetadataFromXdsMetadata UnmarshallToCore ToTyped intSize).

Lemma decode_nil log : decode None log = (Returned DataplaneMetadata_zero, log).
Proof. done. Qed.

(** The resource step returns when unmarshalling yields a resource, of
    whatever type, and panics when it yields the nil interface. *)
Lemma decodeResource_returns metadata value r err log :
  UnmarshallToCore (GetStringValue (Some value)) = (Some r, err) →
  ∃ metadata' log',
    decodeResource UnmarshallToCore metadata value log = (Returned metadata', log') ∧
    (Resource metadata' = Some r ∨ Resource metadata' = Resource metadata).
Proof.
  intros Hu. unfold decodeResource. rewrite Hu.
  destruct err as [e|]; destruct r; simpl; unfold bind, logError, ret; simpl;
    eexists _, _; (split; [reflexivity|]); simpl; auto.
Qed.

Lemma decodeResource_panics metadata value err log :
  UnmarshallToCore (GetStringValue (Some value)) = (None, err) →
  ∃ reason log',
    decodeResource UnmarshallToCore metadata value log = (Panicked reason, log').
Proof.
  intros Hu. unfold decodeResource. rewrite Hu.
  destruct err as [e|]; unfold bind, logError, ret, panic; simpl; eauto.
Qed.

(** The decoder gets to the resource step whatever the port fields hold. *)
Lemma decode_until_resource fields log :
  ∃ metadata log1,
    decode (Some fields) log =
      bind
        (match fields !! fieldDataplaneDataplaneResource with
         | Some value => decodeResource UnmarshallToCore metadata value
         | None => ret metadata
         end)
        (λ metadata,
           let metadata :=
             match fields !! fieldDynamicMetadata with
             | Some value =>
                 withDynamicMetadata metadata
                   (Some ((λ val, GetStringValue (Some val))
                            <$> GetFields (GetStructValue (Some value))))
             | None => metadata
             end in
           bind
             (match GetStructValue (fields !! fieldVersion) with
              | Some structValue =>
                  let '(version, err) := ToTyped structValue in
                  bind (match err with
                        | Some _ =>
                            logError err "invalid value in dataplane metadata"
                              [("field", fieldVersion)]
                        | None => ret tt
                        end)
                    (λ _, ret (withVersion metadata (Some version)))
              | None => ret metadata
              end)
             (λ metadata, ret metadata))
        log1 ∧
    Resource metadata = None.
Proof.
  unfold DataplaneMetadataFromXdsMetadata.
  destruct (uint32Metadata_returns intSize fields fieldDataplaneAdminPort log)
    as (p1 & l1 & H1 & _).
  rewrite (bind_returned _ _ _ _ _ H1).
  destruct (uint32Metadata_returns intSize fields fieldDataplaneDNSPort l1)
    as (p2 & l2 & H2 & _).
  rewrite (bind_returned _ _ _ _ _ H2).
  destruct (uint32Metadata_returns intSize fields fieldDataplaneDNSEmptyPort l2)
    as (p3 & l3 & H3 & _).
  rewrite (bind_returned _ _ _ _ _ H3).
  eexists _, l3. split; [reflexivity|].
  simpl. by destruct (fields !! fieldDataplaneToken), (fields !! fieldDataplaneProxyType).
Qed.

(** C1, at the input on which it fails. When the bag carries a
    [dataplane.resource] value that [rest.UnmarshallToCore] rejects, that is
    for which it returns the nil resource, the decoder does not return a
    record: it panics on the nil resource. *)
Theorem malformed_resource_panics fields value err log :
  fields !! fieldDataplaneDataplaneResource = Some value →
  UnmarshallToCore (GetStringValue (Some value)) = (None, err) →
  ∃ reason log', decode (Some fields) log = (Panicked reason, log').
Proof.
  intros Hv Hu.
  destruct (decode_until_resource fields log) as (metadata & log1 & -> & _).
  rewrite Hv.
  destruct (decodeResource_panics metadata value err log1 Hu) as (reason & log' & Hp).
  rewrite (bind_panicked _ _ _ _ _ Hp). eauto.
Qed.

(** Apart from that input the decoder returns a record: when the bag has
    no [dataplane.resource] value, or one that unmarshals to a resource of
    any type. *)
Lemma decode_returns fields log :
  (∀ value, fields !! fieldDataplaneDataplaneResource = Some value →
            is_Some (UnmarshallToCore (GetStringValue (Some value))).1) →
  ∃ metadata log', decode (Some fields) log = (Returned metadata, log').
Proof.
  intros Hres.
  destruct (decode_until_resource fields log) as (metadata & log1 & -> & _).
  assert (∃ metadata' log2,
            match fields !! fieldDataplaneDataplaneResource with
            | Some value => decodeResource UnmarshallToCore metadata value
            | None => ret metadata
            end log1 = (Returned metadata', log2)) as (metadata' & log2 & Hstep).
  { destruct (fields !! fieldDataplaneDataplaneResource) as [value|]; [|by eexists _, _].
    destruct (Hres value eq_refl) as [r Hr].
    destruct (UnmarshallToCore (GetStringValue (Some value))) as [res err] eqn:Hu.
    simpl in Hr. subst res.
    destruct (decodeResource_returns metadata value r err log1 Hu) as (m' & l' & -> & _).
    by eexists _, _. }
  rewrite (bind_returned _ _ _ _ _ Hstep).
  destruct (GetStructValue (fields !! fieldVersion)) as [structValue|].
  - destruct (ToTyped structValue) as [version [e|]];
      unfold bind, logError, ret; simpl; by eexists _, _.
  - unfold bind, ret. by eexists _, _.
Qed.

End DecoderFacts.

(** The decoder panics on the bag whose embedded resource is not a
    resource document. *)
Lemma malformed_resource_panics_witness :
  ∃ reason log',
    DataplaneMetadataFromXdsMetadata unmarshalKnown toTypedKnown strconv.Int64
      (Some malformedResource) [] = (Panicked reason, log').
Proof.
  apply (malformed_resource_panics unmarshalKnown toTypedKnown strconv.Int64
           malformedResource (StringValue "not-a-resource") (Some "invalid resource") []).
  - vm_compute. reflexivity.
  - vm_compute. reflexivity.
Defined.

(** The outcomes on the nil bag, on Scenario C, on an unsupported resource
    type and on a malformed resource. *)
Example decode_examples :
  run (DataplaneMetadataFromXdsMetadata unmarshalKnown toTypedKnown strconv.Int64 None) =
    (Returned DataplaneMetadata_zero, []) ∧
  (∃ record,
     run (DataplaneMetadataFromXdsMetadata unmarshalKnown toTypedKnown strconv.Int64
            (Some scenarioC)) = (Returned DataplaneMetadata_zero, [record])) ∧
  (∃ record,
     run (DataplaneMetadataFromXdsMetadata unmarshalKnown toTypedKnown strconv.Int64
            (Some unsupportedResource)) = (Returned DataplaneMetadata_zero, [record])) ∧
  (∃ record,
     run (DataplaneMetadataFromXdsMetadata unmarshalKnown toTypedKnown strconv.Int64
            (Some malformedResource)) =
       (Panicked "invalid memory address or nil pointer dereference", [record])).
Proof. split_and!; try eexists; vm_compute; reflexivity. Qed.

Section DecodedRecord.

Variable UnmarshallToCore : string → option model.Resource * option core_xds.error.
Variable ToTyped : Struct → Version * option core_xds.error.
Variable intSize : strconv.IntSize.

#[local] Abbreviation decode :=
  (DataplaneMetadataFromXdsMetadata UnmarshallToCore ToTyped intSize).

Lemma uint32Metadata_port fields field log :
  ∃ log', uint32Metadata intSize (Some fields) field log =
            (Returned (portOf intSize fields field), log').
Proof.
  unfold uint32Metadata, portOf. destruct (fields !! field) as [value|]; [|by eexists].
  destruct (strconv.Atoi intSize _); by eexists.
Qed.

(** Whenever the decoder returns a record, each field of the record is
    decoded on its own: the token and the proxy type are the raw strings,
    a port is the parsed number or 0, the resource is there when it is of
    an accepted kind, the dynamic metadata is the nested map, and the
    version is whatever [ToTyped] made of the nested struct. *)
Lemma decode_record fields log metadata log' :
  decode (Some fields) log = (Returned metadata, log') →
  DataplaneToken metadata = GetStringValue (fields !! fieldDataplaneToken) ∧
  ProxyType metadata = GetStringValue (fields !! fieldDataplaneProxyType) ∧
  AdminPort metadata = portOf intSize fields fieldDataplaneAdminPort ∧
  DNSPort metadata = portOf intSize fields fieldDataplaneDNSPort ∧
  EmptyDNSPort metadata = portOf intSize fields fieldDataplaneDNSEmptyPort ∧
  Resource metadata = acceptedResource UnmarshallToCore fields ∧
  DynamicMetadata metadata =
    (λ value, (λ val, GetStringValue (Some val)) <$> GetFields (GetStructValue (Some value)))
      <$> fields !! fieldDynamicMetadata ∧
  Version_ metadata = (λ s, (ToTyped s).1) <$> GetStructValue (fields !! fieldVersion).
Proof.
  unfold DataplaneMetadataFromXdsMetadata, acceptedResource.
  destruct (uint32Metadata_port fields fieldDataplaneAdminPort log) as (l1 & H1).
  rewrite (bind_returned _ _ _ _ _ H1).
  destruct (uint32Metadata_port fields fieldDataplaneDNSPort l1) as (l2 & H2).
  rewrite (bind_returned _ _ _ _ _ H2).
  destruct (uint32Metadata_port fields fieldDataplaneDNSEmptyPort l2) as (l3 & H3).
  rewrite (bind_returned _ _ _ _ _ H3).
  clear H1 H2 H3.
  generalize (portOf intSize fields fieldDataplaneAdminPort),
    (portOf intSize fields fieldDataplaneDNSPort),
    (portOf intSize fields fieldDataplaneDNSEmptyPort).
  intros p1 p2 p3.
  unfold decodeResource, bind, ret, logError, panic.
  destruct (fields !! fieldDataplaneToken) as [tok|];
  destruct (fields !! fieldDataplaneProxyType) as [pt|];
  destruct (fields !! fieldDynamicMetadata) as [dm|];
  destruct (GetStructValue (fields !! fieldVersion)) as [sv|];
  try destruct (ToTyped sv) as [version [verr|]] eqn:HT;
  (destruct (fields !! fieldDataplaneDataplaneResource) as [rv|];
   [destruct (UnmarshallToCore (GetStringValue (Some rv))) as [[[]|] [e|]]|]);
  simpl; intros [= <- _]; split_and!; try reflexivity; by rewrite HT.
Qed.

End DecodedRecord.

End xds_claims.

(* ===================================================================== *)
(** * Further properties: route matches and route entries                 *)
(* ===================================================================== *)

Module gateway_entries.
Import route gateway gateway_more strings strings_facts gateway_facts.

(** ** [makeRouteMatch] in closed form *)

Lemma header_loop hs m :
  foldl (λ match_ h,
           match mesh_proto.Header.GetMatch h with
           | mesh_proto.Header.EXACT =>
               withExactHeader match_
                 (ExactHeader match_ ++
                    [Pair (mesh_proto.Header.GetName h) (mesh_proto.Header.GetValue h)])
           | mesh_proto.Header.REGEX =>
               withRegexHeader match_
                 (RegexHeader match_ ++
                    [Pair (mesh_proto.Header.GetName h) (mesh_proto.Header.GetValue h)])
           | mesh_proto.Header.unrecognized _ => match_
           end) m hs =
    mkMatch (ExactPath m) (PrefixPath m) (RegexPath m) (Method m)
      (ExactHeader m ++
         (headerPair <$> filter (λ h, mesh_proto.Header.GetMatch h = mesh_proto.Header.EXACT) hs))
      (RegexHeader m ++
         (headerPair <$> filter (λ h, mesh_proto.Header.GetMatch h = mesh_proto.Header.REGEX) hs))
      (ExactQuery m) (RegexQuery m).
Proof.
  revert m. induction hs as [|h hs IH]; intros m; simpl.
  - destruct m. simpl. by rewrite !app_nil_r.
  - rewrite IH. rewrite !filter_cons.
    destruct (mesh_proto.Header.GetMatch h) eqn:E; simpl;
      repeat case_decide; try done; simpl; by rewrite <- ?app_assoc.
Qed.

Lemma query_loop qs m :
  foldl (λ match_ q,
           match mesh_proto.Query.GetMatch q with
           | mesh_proto.Query.EXACT =>
               withExactQuery match_
                 (ExactQuery match_ ++
                    [Pair (mesh_proto.Query.GetName q) (mesh_proto.Query.GetValue q)])
           | mesh_proto.Query.REGEX =>
               withRegexQuery match_
                 (RegexQuery match_ ++
                    [Pair (mesh_proto.Query.GetName q) (mesh_proto.Query.GetValue q)])
           | mesh_proto.Query.unrecognized _ => match_
           end) m qs =
    mkMatch (ExactPath m) (PrefixPath m) (RegexPath m) (Method m)
      (ExactHeader m) (RegexHeader m)
      (ExactQuery m ++
         (queryPair <$> filter (λ q, mesh_proto.Query.GetMatch q = mesh_proto.Query.EXACT) qs))
      (RegexQuery m ++
         (queryPair <$> filter (λ q, mesh_proto.Query.GetMatch q = mesh_proto.Query.REGEX) qs)).
Proof.
  revert m. induction qs as [|q qs IH]; intros m; simpl.
  - destruct m. simpl. by rewrite !app_nil_r.
  - rewrite IH. rewrite !filter_cons.
    destruct (mesh_proto.Query.GetMatch q) eqn:E; simpl;
      repeat case_decide; try done; simpl; by rewrite <- ?app_assoc.
Qed.

(** X1. The exact and the regex header predicates of a route match are the
    rule's header predicates of that kind, in the rule's order; likewise
    for the query predicates; a predicate whose kind is neither is left
    out, so none is counted twice and none is invented. *)
Theorem makeRouteMatch_partitions_predicates rm :
  let hs := mesh_proto.Match.GetHeaders rm in
  let qs := mesh_proto.Match.GetQueryParameters rm in
  let m := makeRouteMatch rm in
  ExactHeader m =
    headerPair <$> filter (λ h, mesh_proto.Header.GetMatch h = mesh_proto.Header.EXACT) hs ∧
  RegexHeader m =
    headerPair <$> filter (λ h, mesh_proto.Header.GetMatch h = mesh_proto.Header.REGEX) hs ∧
  ExactQuery m =
    queryPair <$> filter (λ q, mesh_proto.Query.GetMatch q = mesh_proto.Query.EXACT) qs ∧
  RegexQuery m =
    queryPair <$> filter (λ q, mesh_proto.Query.GetMatch q = mesh_proto.Query.REGEX) qs ∧
  (length (ExactHeader m) + length (RegexHeader m) ≤ length hs)%nat ∧
  (length (ExactQuery m) + length (RegexQuery m) ≤ length qs)%nat.
Proof.
  intros hs qs m.
  assert (∀ (A : Type) (P Q : A → Prop) `{!∀ x, Decision (P x)} `{!∀ x, Decision (Q x)}
            (l : list A),
            (∀ x, P x → Q x → False) →
            (length (filter P l) + length (filter Q l) ≤ length l)%nat) as Hcount.
  { intros A P Q ? ? l Hex. induction l as [|x l IH]; [done|].
    rewrite !filter_cons. repeat case_decide; simpl; try lia.
    exfalso. eauto. }
  unfold m, makeRouteMatch. rewrite query_loop, header_loop. simpl.
  destruct (mesh_proto.Match.GetPath rm) as [[[] v]|];
    destruct (isNONE (mesh_proto.Match.GetMethod rm)); simpl;
    (split_and!; [done|done|done|done| |]);
    rewrite ?length_fmap; apply Hcount; congruence.
Qed.

(** X2. A route match carries at most one kind of path: whatever the rule
    declares, at most one of the exact, the prefix and the regex path of
    the match is not empty. *)
Theorem makeRouteMatch_has_one_path_kind rm :
  let m := makeRouteMatch rm in
  (ExactPath m = "" ∧ PrefixPath m = "") ∨
  (ExactPath m = "" ∧ RegexPath m = "") ∨
  (PrefixPath m = "" ∧ RegexPath m = "").
Proof.
  intros m. pose proof (makeRouteMatch_paths rm) as H.
  unfold pathFieldsOf in H. fold m in H. injection H as -> -> -> _.
  unfold declaredPath. destruct (mesh_proto.Match.GetPath rm) as [[[] v]|]; auto.
Qed.

(** ** [makeRouteEntry] in closed form *)

Lemma makeRouteEntry_loops rule :
  makeRouteEntry rule =
    foldl applyFilter
      (foldl addBackend Entry_zero (mesh_proto.Rule.GetBackends rule))
      (mesh_proto.Rule.GetFilters rule).
Proof. reflexivity. Qed.

Lemma addBackend_loop bs e :
  foldl addBackend e bs =
    withForward e (Forward (Entry_Action e) ++ (targetOf <$> bs)).
Proof.
  revert e. induction bs as [|b bs IH]; intros e; simpl.
  - destruct e as [? [] ? ?]. simpl. by rewrite app_nil_r.
  - rewrite IH. unfold addBackend, withForward. simpl. by rewrite <- app_assoc.
Qed.

Lemma applyFilter_keeps e f :
  Entry_Match (applyFilter e f) = Entry_Match e ∧
  Forward (Entry_Action (applyFilter e f)) = Forward (Entry_Action e).
Proof.
  unfold applyFilter. destruct f; done.
Qed.

Lemma applyFilter_loop_keeps fs e :
  Entry_Match (foldl applyFilter e fs) = Entry_Match e ∧
  Forward (Entry_Action (foldl applyFilter e fs)) = Forward (Entry_Action e).
Proof.
  revert e. induction fs as [|f fs IH]; intros e; [done|].
  simpl. destruct (IH (applyFilter e f)) as [-> ->]. apply applyFilter_keeps.
Qed.

(** X3. A route entry forwards to one destination per backend of the rule,
    in the rule's order, each with the backend's tags and weight and with
    no policies; the filters do not touch the destinations, and the entry
    comes with an empty match. *)
Theorem makeRouteEntry_forwards_to_backends rule :
  Forward (Entry_Action (makeRouteEntry rule)) =
    targetOf <$> mesh_proto.Rule.GetBackends rule ∧
  length (Forward (Entry_Action (makeRouteEntry rule))) =
    length (mesh_proto.Rule.GetBackends rule) ∧
  Entry_Match (makeRouteEntry rule) = Match_zero.
Proof.
  rewrite makeRouteEntry_loops.
  destruct (applyFilter_loop_keeps (mesh_proto.Rule.GetFilters rule)
              (foldl addBackend Entry_zero (mesh_proto.Rule.GetBackends rule)))
    as [-> ->].
  rewrite addBackend_loop. simpl. by rewrite length_fmap.
Qed.

Lemma applyFilter_loop_redirect fs e :
  Redirect (Entry_Action (foldl applyFilter e fs)) =
    match last (omap mesh_proto.Filter.GetRedirect fs) with
    | Some r => Some (redirectionOf r)
    | None => Redirect (Entry_Action e)
    end ∧
  Entry_Mirror (foldl applyFilter e fs) =
    match last (omap mesh_proto.Filter.GetMirror fs) with
    | Some m => Some (mirrorOf m)
    | None => Entry_Mirror e
    end.
Proof.
  induction fs as [|f fs IH] using rev_ind; [done|].
  rewrite foldl_app, !omap_app. simpl. destruct IH as [IHr IHm].
  destruct f; simpl; rewrite ?app_nil_r, ?last_snoc; done.
Qed.

(** X4. When a rule has several redirect filters the last one decides the
    redirection of the entry, and when it has several mirror filters the
    last one decides the mirror; without a filter of the kind the entry has
    none.  A redirection always strips the query. *)
Theorem makeRouteEntry_last_filter_wins rule :
  Redirect (Entry_Action (makeRouteEntry rule)) =
    redirectionOf <$> last (omap mesh_proto.Filter.GetRedirect (mesh_proto.Rule.GetFilters rule)) ∧
  Entry_Mirror (makeRouteEntry rule) =
    mirrorOf <$> last (omap mesh_proto.Filter.GetMirror (mesh_proto.Rule.GetFilters rule)) ∧
  (∀ r, Redirect (Entry_Action (makeRouteEntry rule)) = Some r → StripQuery r = true).
Proof.
  rewrite makeRouteEntry_loops.
  destruct (applyFilter_loop_redirect (mesh_proto.Rule.GetFilters rule)
              (foldl addBackend Entry_zero (mesh_proto.Rule.GetBackends rule)))
    as [Hr Hm].
  rewrite Hr, Hm, addBackend_loop. simpl.
  split_and!.
  - by destruct (last _).
  - by destruct (last _).
  - intros r. destruct (last _); [|done]. by intros [= <-].
Qed.

Lemma addRequestHeader_headers e h :
  Entry_RequestHeaders (addRequestHeader e h) =
    let h0 := default Headers_zero (Entry_RequestHeaders e) in
    Some (mkHeaders (Replace h0 ++ (pairOf <$> mesh_proto.RequestHeader.GetSet h))
            (Append h0 ++ (pairOf <$> mesh_proto.RequestHeader.GetAdd h))
            (Delete h0 ++ mesh_proto.RequestHeader.GetRemove h)).
Proof.
  assert (∀ l h1,
            foldl (λ hs s, mkHeaders (Replace hs ++ [pairOf s]) (Append hs) (Delete hs)) h1 l
            = mkHeaders (Replace h1 ++ (pairOf <$> l)) (Append h1) (Delete h1)) as Hset.
  { induction l as [|s l IHl]; intros h1; simpl.
    - destruct h1. simpl. by rewrite app_nil_r.
    - rewrite IHl. simpl. by rewrite <- app_assoc. }
  assert (∀ l h1,
            foldl (λ hs s, mkHeaders (Replace hs) (Append hs ++ [pairOf s]) (Delete hs)) h1 l
            = mkHeaders (Replace h1) (Append h1 ++ (pairOf <$> l)) (Delete h1)) as Hadd.
  { induction l as [|s l IHl]; intros h1; simpl.
    - destruct h1. simpl. by rewrite app_nil_r.
    - rewrite IHl. simpl. by rewrite <- app_assoc. }
  unfold addRequestHeader. by rewrite Hset, Hadd.
Qed.

Lemma applyFilter_headers e f :
  Entry_RequestHeaders (applyFilter e f) =
    match mesh_proto.Filter.GetRequestHeader f with
    | Some h =>
        let h0 := default Headers_zero (Entry_RequestHeaders e) in
        Some (mkHeaders (Replace h0 ++ (pairOf <$> mesh_proto.RequestHeader.GetSet h))
                (Append h0 ++ (pairOf <$> mesh_proto.RequestHeader.GetAdd h))
                (Delete h0 ++ mesh_proto.RequestHeader.GetRemove h))
    | None => Entry_RequestHeaders e
    end.
Proof.
  destruct f as [r|m|h|]; [done|done| |done].
  apply addRequestHeader_headers.
Qed.

Lemma applyFilter_loop_headers fs e :
  Entry_RequestHeaders (foldl applyFilter e fs) =
    match omap mesh_proto.Filter.GetRequestHeader fs with
    | [] => Entry_RequestHeaders e
    | hs =>
        let h0 := default Headers_zero (Entry_RequestHeaders e) in
        Some (mkHeaders (Replace h0 ++ Replace (mergedHeaders hs))
                (Append h0 ++ Append (mergedHeaders hs))
                (Delete h0 ++ Delete (mergedHeaders hs)))
    end.
Proof.
  induction fs as [|f fs IH] using rev_ind; [done|].
  rewrite foldl_app, omap_app. cbn [foldl].
  rewrite applyFilter_headers, IH.
  destruct (mesh_proto.Filter.GetRequestHeader f) as [h|] eqn:Ef;
    cbn [omap list_omap]; rewrite Ef; [|by rewrite app_nil_r].
  destruct (omap mesh_proto.Filter.GetRequestHeader fs) as [|h1 hs] eqn:E; simpl.
  - by rewrite !app_nil_r.
  - unfold mergedHeaders. simpl. rewrite !bind_app. simpl.
    rewrite !app_nil_r. by rewrite <- !app_assoc.
Qed.

(** X5. The request-header filters of a rule add up: the entry has header
    mutations exactly when the rule has such a filter, and then its
    replace, append and delete lists are the set, add and remove lists of
    all these filters put end to end in the rule's order. *)
Theorem makeRouteEntry_merges_request_headers rule :
  Entry_RequestHeaders (makeRouteEntry rule) =
    match omap mesh_proto.Filter.GetRequestHeader (mesh_proto.Rule.GetFilters rule) with
    | [] => None
    | hs => Some (mergedHeaders hs)
    end.
Proof.
  rewrite makeRouteEntry_loops, applyFilter_loop_headers, addBackend_loop. simpl.
  by destruct (omap _ _).
Qed.

End gateway_entries.

(* ===================================================================== *)
(** * Further properties: the route table a call leaves behind            *)
(* ===================================================================== *)

Module gateway_table.
Import route gateway gateway_more strings strings_facts gateway_facts.

(** ** More on the two loops *)

Lemma length_range {V} (o : MapOrder V) (m : gmap string V) :
  length (range o m) = size m.
Proof. rewrite (range_perm o m). apply length_map_to_list. Qed.

(** The accumulators do not depend on the route table the loops append to. *)
Lemma place_maps_frame L st st' :
  exactEntries st = exactEntries st' → prefixEntries st = prefixEntries st' →
  exactEntries (foldl place st L) = exactEntries (foldl place st' L) ∧
  prefixEntries (foldl place st L) = prefixEntries (foldl place st' L).
Proof.
  revert st st'. induction L as [|e L IH]; intros st st' HE HP; [done|].
  simpl. apply IH; unfold place; repeat case_decide; simpl; congruence.
Qed.

Lemma expand_exact_frame L st st' :
  exactEntries st = exactEntries st' →
  exactEntries (foldl expandPrefix st L) = exactEntries (foldl expandPrefix st' L).
Proof.
  revert st st'. induction L as [|kv L IH]; intros st st' HE; [done|].
  simpl. apply IH. unfold expandPrefix. rewrite HE.
  case_decide; [done|].
  by destruct (exactEntries st' !! trimRightByte (PrefixPath (Entry_Match kv.2)) "/").
Qed.

(** An exact path no entry of the list has keeps its accumulator slot. *)
Lemma place_exact_untouched L st x :
  (∀ e, e ∈ L → ExactPath (Entry_Match e) ≠ x) →
  exactEntries (foldl place st L) !! x = exactEntries st !! x.
Proof.
  revert st. induction L as [|e L IH]; intros st HL; [done|].
  simpl. rewrite IH by (intros e' He'; apply HL; by right).
  unfold place. repeat case_decide; simpl; try done.
  apply lookup_insert_ne. apply HL. by left.
Qed.

Lemma place_sizes L st :
  (length (tableEntries (foldl place st L)) + size (exactEntries (foldl place st L)) +
   size (prefixEntries (foldl place st L))
   ≤ length (tableEntries st) + size (exactEntries st) + size (prefixEntries st) + length L)%nat.
Proof.
  revert st. induction L as [|e L IH]; intros st; simpl; [lia|].
  etrans; [apply IH|]. unfold place. repeat case_decide; simpl.
  - rewrite map_size_insert. destruct (exactEntries st !! _); simpl; lia.
  - rewrite map_size_insert. destruct (prefixEntries st !! _); simpl; lia.
  - rewrite length_app. simpl. lia.
Qed.

Lemma expand_size L st :
  (size (exactEntries (foldl expandPrefix st L)) ≤ size (exactEntries st) + length L)%nat.
Proof.
  revert st. induction L as [|kv L IH]; intros st; simpl; [lia|].
  etrans; [apply IH|]. unfold expandPrefix. case_decide; simpl; [lia|].
  destruct (exactEntries st !! trimRightByte (PrefixPath (Entry_Match kv.2)) "/") eqn:E;
    simpl; [lia|].
  rewrite map_size_insert_None by done. lia.
Qed.

(** X6. Normalising a prefix entry twice is the same as normalising it
    once: a prefix path that already ends in a single separator is left as
    it is. *)
Theorem rewritePrefix_idempotent e :
  rewritePrefix (rewritePrefix e) = rewritePrefix e ∧
  (∀ t, PrefixPath (Entry_Match e) = t +:+ "/" → lastByte t ≠ Some "/"%char →
        rewritePrefix e = e).
Proof.
  assert (∀ t, lastByte t ≠ Some "/"%char → trimRightByte (t +:+ "/") "/" = t) as Htrim.
  { intros t Ht. apply (trimRightByte_unique t "/" 1 Ht). }
  split.
  - unfold rewritePrefix at 1 3. rewrite PrefixPath_rewritePrefix.
    rewrite Htrim by apply lastByte_trimRightByte.
    unfold rewritePrefix, setPrefixPath, setMatch. simpl. done.
  - intros t Hp Ht. unfold rewritePrefix. rewrite Hp, Htrim by done.
    destruct e as [[] ? ? ?]. simpl in *. by subst.
Qed.

Section Builder.

Variable WildcardHostname : string.
Variable match_Hostnames : string → list string → bool.
Variable prefixOrder exactOrder : MapOrder Entry.

#[local] Abbreviation gatewayRoutesOf :=
  (gateway.gatewayRoutesOf WildcardHostname match_Hostnames).
#[local] Abbreviation collected := (gateway.collected WildcardHostname match_Hostnames).
#[local] Abbreviation expanded :=
  (gateway.expanded WildcardHostname match_Hostnames prefixOrder).
#[local] Abbreviation GenerateHost :=
  (gateway.GenerateHost WildcardHostname match_Hostnames prefixOrder exactOrder).
#[local] Abbreviation produced :=
  (gateway.produced WildcardHostname match_Hostnames prefixOrder exactOrder).
#[local] Abbreviation otherPart := (gateway.otherPart WildcardHostname match_Hostnames).
#[local] Abbreviation prefixPart :=
  (gateway.prefixPart WildcardHostname match_Hostnames prefixOrder).
#[local] Abbreviation exactPart :=
  (gateway.exactPart WildcardHostname match_Hostnames prefixOrder exactOrder).

(** X7. A gateway route is a candidate the builder works on exactly when it
    is among the host's resources and either the host is the wildcard
    host, or the route declares no hostname, or [match.Hostnames] accepts
    the host for the route's hostnames; resources of another type are
    skipped, and the candidates keep the order of the host's resources. *)
Theorem accepted_routes info :
  (∀ g, g ∈ gatewayRoutesOf info ↔
        model.GatewayRoute g ∈ Routes (Info_Host info) ∧
        (Hostname (Info_Host info) = WildcardHostname ∨
         hostnamesOf g = [] ∨
         match_Hostnames (Hostname (Info_Host info)) (hostnamesOf g) = true)) ∧
  model.GatewayRoute <$> gatewayRoutesOf info `sublist_of` Routes (Info_Host info).
Proof.
  unfold gateway.gatewayRoutesOf. rewrite filterGatewayRoutes_spec. split.
  - intros g. rewrite list_elem_of_omap. split.
    + intros (r & Hr & Hacc). destruct r as [| |g'|]; try done. simpl in Hacc.
      destruct (acceptRoute _ _ _ g') eqn:Ha; [|done]. injection Hacc as ->.
      split; [done|]. unfold acceptRoute in Ha. fold (hostnamesOf g) in Ha.
      repeat case_decide; auto. right. left. by apply nil_length_inv.
    + intros [Hin Hacc]. exists (model.GatewayRoute g). split; [done|]. simpl.
      unfold acceptRoute. fold (hostnamesOf g).
      repeat case_decide; try done.
      destruct Hacc as [?|[Hnil|Hm]]; [done| |by rewrite Hm].
      by rewrite Hnil in *.
  - generalize (acceptRoute WildcardHostname match_Hostnames info). intros accept.
    induction (Routes (Info_Host info)) as [|r l IH]; [done|].
    simpl. destruct r as [| |g|]; simpl; try by apply sublist_cons.
    destruct (accept g); simpl; [by apply sublist_skip|by apply sublist_cons].
Qed.

Lemma GenerateHost_state info :
  (GenerateHost info).1 =
    setEntries info (Entries (RouteTable info) ++ produced info).
Proof.
  rewrite <- GenerateHost_appends.
  unfold gateway.GenerateHost. case_decide; [|done].
  by destruct info as [? ? []].
Qed.

(** X8. A call never fails and never hands back a resource set; it leaves
    the host and the listener as they are and only appends to the route
    table: the entries that were there stay first, unchanged and in the
    same order. *)
Theorem GenerateHost_only_appends info :
  (GenerateHost info).2 = (None, None) ∧
  Info_Host (GenerateHost info).1 = Info_Host info ∧
  Info_Listener (GenerateHost info).1 = Info_Listener info ∧
  Entries (RouteTable info) `prefix_of` Entries (RouteTable (GenerateHost info).1) ∧
  Entries (RouteTable (GenerateHost info).1) = Entries (RouteTable info) ++ produced info.
Proof.
  split_and!.
  - apply GenerateHost_result.
  - by rewrite GenerateHost_state.
  - by rewrite GenerateHost_state.
  - rewrite GenerateHost_appends. by apply prefix_app_r.
  - apply GenerateHost_appends.
Qed.

Lemma gatewayRoutesOf_setEntries info es :
  gatewayRoutesOf (setEntries info es) = gatewayRoutesOf info.
Proof. reflexivity. Qed.

Lemma collected_maps_setEntries info es :
  exactEntries (collected (setEntries info es)) = exactEntries (collected info) ∧
  prefixEntries (collected (setEntries info es)) = prefixEntries (collected info).
Proof.
  rewrite !collected_place, gatewayRoutesOf_setEntries. by apply place_maps_frame.
Qed.

Lemma produced_setEntries info es : produced (setEntries info es) = produced info.
Proof.
  rewrite !produced_parts.
  destruct (collected_maps_setEntries info es) as [HE HP].
  assert (prefixPart (setEntries info es) = prefixPart info) as ->.
  { unfold gateway.prefixPart. by rewrite HP. }
  assert (exactPart (setEntries info es) = exactPart info) as ->.
  { unfold gateway.exactPart, gateway.expanded. rewrite HP.
    by rewrite (expand_exact_frame _ _ (collected info)). }
  done.
Qed.

Lemma prefixPart_kind info e :
  e ∈ prefixPart info → kindOf (Entry_Match e) = Prefix.
Proof.
  intros (q & pe & Hq & ->)%elem_of_prefixPart.
  pose proof (collected_prefix_lookup _ _ _ _ _ Hq) as (_ & HE & _).
  unfold kindOf. rewrite ExactPath_rewritePrefix, HE.
  rewrite decide_False by (by intros ?).
  rewrite decide_True; [done|]. rewrite PrefixPath_rewritePrefix. apply app_byte_nonempty.
Qed.

Lemma exactPart_kind info e :
  e ∈ exactPart info → kindOf (Entry_Match e) = Exact.
Proof.
  intros (k & Hk)%elem_of_exactPart.
  pose proof (expanded_exact_lookup _ _ _ _ _ _ Hk) as (HE & Hne & _).
  unfold kindOf. rewrite decide_True; [done|by rewrite HE].
Qed.

Lemma otherPart_kind info e :
  e ∈ otherPart info → kindOf (Entry_Match e) = Other.
Proof. by intros [? _]%list_elem_of_filter. Qed.

Lemma produced_by_kind info :
  filter (λ e, kindOf (Entry_Match e) = Other) (produced info) = otherPart info ∧
  filter (λ e, kindOf (Entry_Match e) = Prefix) (produced info) = prefixPart info ∧
  filter (λ e, kindOf (Entry_Match e) = Exact) (produced info) = exactPart info.
Proof.
  rewrite produced_parts, !filter_app. split_and!.
  - rewrite (filter_all _ (otherPart info)) by apply otherPart_kind.
    rewrite (filter_none _ (prefixPart info)), (filter_none _ (exactPart info)).
    + by rewrite !app_nil_r.
    + intros e He%exactPart_kind. by rewrite He.
    + intros e He%prefixPart_kind. by rewrite He.
  - rewrite (filter_all _ (prefixPart info)) by apply prefixPart_kind.
    rewrite (filter_none _ (otherPart info)), (filter_none _ (exactPart info)).
    + by rewrite !app_nil_r.
    + intros e He%exactPart_kind. by rewrite He.
    + intros e He%otherPart_kind. by rewrite He.
  - rewrite (filter_all _ (exactPart info)) by apply exactPart_kind.
    rewrite (filter_none _ (otherPart info)), (filter_none _ (prefixPart info)).
    + done.
    + intros e He%prefixPart_kind. by rewrite He.
    + intros e He%otherPart_kind. by rewrite He.
Qed.

(** X10. The entries a call appends come grouped by kind: first all entries
    without a path of their own, then all prefix entries, then all exact
    entries; so in the route table every exact entry of a call comes after
    every prefix entry of that call. *)
Theorem produced_is_grouped_by_kind info :
  produced info =
    filter (λ e, kindOf (Entry_Match e) = Other) (produced info) ++
    filter (λ e, kindOf (Entry_Match e) = Prefix) (produced info) ++
    filter (λ e, kindOf (Entry_Match e) = Exact) (produced info).
Proof.
  destruct (produced_by_kind info) as (-> & -> & ->). apply produced_parts.
Qed.

(** X11. No two of the entries a call appends have the same exact path. *)
Theorem exact_paths_are_unique info x :
  x ≠ "" →
  (length (filter (λ e, ExactPath (Entry_Match e) = x) (produced info)) ≤ 1)%nat.
Proof.
  intros Hx.
  destruct (exactEntries (expanded info) !! x) as [e|] eqn:E.
  - by rewrite (one_entry_per_exact_path _ _ _ _ _ _ e E).
  - rewrite filter_none; [simpl; lia|].
    intros e He Hpath. rewrite produced_parts, !elem_of_app in He.
    destruct He as [Ho|[Hp|He]].
    + apply otherPart_paths in Ho as [Ho _]. congruence.
    + apply elem_of_prefixPart in Hp as (q & pe & Hq & ->).
      pose proof (collected_prefix_lookup _ _ _ _ _ Hq) as (_ & HE & _).
      rewrite ExactPath_rewritePrefix in Hpath. congruence.
    + apply elem_of_exactPart in He as (k & Hk).
      pose proof (expanded_exact_lookup _ _ _ _ _ _ Hk) as (HE & _).
      congruence.
Qed.

(** X12. An exact rule of the input decides the entry of its path: among the
    alternatives with exact path [x] the last one in loop order is the one
    entry appended for [x], whatever prefix rules strip to [x] and whatever
    the iteration orders. *)
Theorem last_exact_rule_wins info before e after x :
  denormalized (gatewayRoutesOf info) = before ++ e :: after →
  ExactPath (Entry_Match e) = x → x ≠ "" →
  (∀ e', e' ∈ after → ExactPath (Entry_Match e') ≠ x) →
  filter (λ e', ExactPath (Entry_Match e') = x) (produced info) = [e].
Proof.
  intros Hd He Hx Hafter. apply one_entry_per_exact_path.
  unfold gateway.expanded. apply expand_exact_keep.
  rewrite collected_place, Hd, foldl_app. simpl.
  rewrite place_exact_untouched by done.
  unfold place. rewrite decide_True by congruence. simpl.
  rewrite He. apply lookup_insert_eq.
Qed.

(** X13. Every entry a call appends carries the action, the mirror and the
    header mutations of a rule of an accepted gateway route: the builder
    makes up no payload. *)
Theorem produced_payload_comes_from_a_rule info e :
  e ∈ produced info →
  ∃ r rule,
    r ∈ gatewayRoutesOf info ∧ rule ∈ rulesOf r ∧
    Entry_Action e = Entry_Action (makeRouteEntry rule) ∧
    Entry_Mirror e = Entry_Mirror (makeRouteEntry rule) ∧
    Entry_RequestHeaders e = Entry_RequestHeaders (makeRouteEntry rule).
Proof.
  assert (∀ e0, e0 ∈ denormalized (gatewayRoutesOf info) →
            ∃ r rule,
              r ∈ gatewayRoutesOf info ∧ rule ∈ rulesOf r ∧
              Entry_Action e0 = Entry_Action (makeRouteEntry rule) ∧
              Entry_Mirror e0 = Entry_Mirror (makeRouteEntry rule) ∧
              Entry_RequestHeaders e0 = Entry_RequestHeaders (makeRouteEntry rule)) as Hin.
  { intros e0 (r & rule & m & Hr & Hrule & _ & ->)%elem_of_denormalized.
    exists r, rule. by split_and!. }
  rewrite produced_parts, !elem_of_app. intros [Ho|[Hp|He]].
  - apply list_elem_of_filter in Ho as [_ Ho]. by apply Hin.
  - apply elem_of_prefixPart in Hp as (q & pe & Hq & ->).
    pose proof (collected_prefix_lookup _ _ _ _ _ Hq) as (Hpe & _).
    apply (Hin pe Hpe).
  - apply elem_of_exactPart in He as (k & Hk).
    pose proof (expanded_exact_lookup _ _ _ _ _ _ Hk)
      as (_ & _ & [Horig|(_ & q & pe & Hq & _ & ->)]).
    + pose proof (collected_exact_lookup _ _ _ _ _ Horig) as (He & _). by apply Hin.
    + pose proof (collected_prefix_lookup _ _ _ _ _ Hq) as (Hpe & _).
      apply (Hin pe Hpe).
Qed.

Lemma exact_alternative_served info e :
  e ∈ denormalized (gatewayRoutesOf info) →
  ExactPath (Entry_Match e) ≠ "" →
  ∃ e', e' ∈ produced info ∧
        ExactPath (Entry_Match e') = ExactPath (Entry_Match e).
Proof.
  intros He HE. rewrite produced_parts.
  destruct (place_exact_dom (denormalized (gatewayRoutesOf info))
              (mkPass ∅ ∅ (Entries (RouteTable info))) e He HE) as [e0 He0].
  rewrite <- collected_place in He0.
  exists e0. split.
  - rewrite !elem_of_app. right. right. apply elem_of_exactPart.
    exists (ExactPath (Entry_Match e)). unfold gateway.expanded.
    by apply expand_exact_keep.
  - by pose proof (collected_exact_lookup _ _ _ _ _ He0) as (_ & ? & _).
Qed.

Lemma prefix_alternative_served info e :
  e ∈ denormalized (gatewayRoutesOf info) →
  ExactPath (Entry_Match e) = "" → PrefixPath (Entry_Match e) ≠ "" →
  ∃ e', e' ∈ produced info ∧
        PrefixPath (Entry_Match e') =
          trimRightByte (PrefixPath (Entry_Match e)) "/" +:+ "/".
Proof.
  intros He HE HP. rewrite produced_parts.
  destruct (place_prefix_dom (denormalized (gatewayRoutesOf info))
              (mkPass ∅ ∅ (Entries (RouteTable info))) e He HE HP) as [pe Hpe].
  rewrite <- collected_place in Hpe.
  pose proof (collected_prefix_lookup _ _ _ _ _ Hpe) as (_ & _ & HPpe & _).
  exists (rewritePrefix pe). split.
  - rewrite !elem_of_app. right. left. apply elem_of_prefixPart. eauto.
  - by rewrite PrefixPath_rewritePrefix, HPpe.
Qed.

Lemma other_alternative_served info e :
  e ∈ denormalized (gatewayRoutesOf info) →
  ExactPath (Entry_Match e) = "" → PrefixPath (Entry_Match e) = "" →
  e ∈ produced info.
Proof.
  intros He HE HP. rewrite produced_parts.
  rewrite !elem_of_app. left. apply list_elem_of_filter. split; [|done].
  unfold kindOf. by rewrite !decide_False by (intros Hn; by apply Hn).
Qed.

(** X14. No match alternative of an accepted rule goes unserved: an
    alternative without a path of its own is appended as it is; for an
    alternative with exact path [x] an entry with exact path [x] is
    appended; for an alternative with prefix path [p] an entry with the
    normalised prefix path is appended. *)
Theorem every_alternative_is_served info e :
  e ∈ denormalized (gatewayRoutesOf info) →
  match kindOf (Entry_Match e) with
  | Other => e ∈ produced info
  | Exact =>
      ∃ e', e' ∈ produced info ∧
            ExactPath (Entry_Match e') = ExactPath (Entry_Match e)
  | Prefix =>
      ∃ e', e' ∈ produced info ∧
            PrefixPath (Entry_Match e') =
              trimRightByte (PrefixPath (Entry_Match e)) "/" +:+ "/"
  end.
Proof.
  intros He. unfold kindOf.
  case_decide as HE; [by apply exact_alternative_served|].
  case_decide as HP.
  - by apply prefix_alternative_served.
  - by apply other_alternative_served.
Qed.

(** X15. A call appends nothing exactly when the accepted gateway routes
    have no match alternative at all, and it never appends more than two
    entries per alternative. *)
Theorem produced_size info :
  (produced info = [] ↔ denormalized (gatewayRoutesOf info) = []) ∧
  (length (produced info) ≤ 2 * length (denormalized (gatewayRoutesOf info)))%nat.
Proof.
  split.
  - split.
    + intros Hnone.
      destruct (denormalized (gatewayRoutesOf info)) as [|e l] eqn:Hd; [done|].
      assert (e ∈ denormalized (gatewayRoutesOf info)) as He by (rewrite Hd; left).
      assert (∃ e', e' ∈ produced info) as [e' He'].
      { destruct (decide (ExactPath (Entry_Match e) = "")) as [HE|HE].
        - destruct (decide (PrefixPath (Entry_Match e) = "")) as [HP|HP].
          + exists e. by apply other_alternative_served.
          + destruct (prefix_alternative_served info e He HE HP) as (e' & ? & _).
            by exists e'.
        - destruct (exact_alternative_served info e He HE) as (e' & ? & _).
          by exists e'. }
      rewrite Hnone in He'. by apply elem_of_nil in He'.
    + intros Hnil. rewrite produced_parts.
      unfold gateway.otherPart, gateway.prefixPart, gateway.exactPart, gateway.expanded.
      rewrite collected_place, Hnil. simpl. rewrite range_empty. simpl.
      by rewrite range_empty.
  - rewrite produced_parts, !length_app.
    unfold gateway.prefixPart, gateway.exactPart, gateway.expanded.
    rewrite !length_fmap, !length_range.
    pose proof (expand_size (range prefixOrder (prefixEntries (collected info)))
                  (collected info)) as Hexp.
    rewrite length_range in Hexp.
    pose proof (place_sizes (denormalized (gatewayRoutesOf info))
                  (mkPass ∅ ∅ (Entries (RouteTable info)))) as Hpl.
    rewrite <- collected_place in Hpl. rewrite collected_table in Hpl.
    simpl in Hpl. rewrite !map_size_empty, length_app in Hpl. lia.
Qed.

End Builder.

(** ** What the iteration orders cannot change *)

Section TwoRuns.

Variable WildcardHostname : string.
Variable match_Hostnames : string → list string → bool.

#[local] Abbreviation collected := (gateway.collected WildcardHostname match_Hostnames).
#[local] Abbreviation expanded := (gateway.expanded WildcardHostname match_Hostnames).
#[local] Abbreviation produced := (gateway.produced WildcardHostname match_Hostnames).

(** The exact paths of the accumulator after the expansion, whatever the
    order of the expansion. *)
Lemma expanded_exact_is_Some po info k :
  is_Some (exactEntries (expanded po info) !! k) ↔
  is_Some (exactEntries (collected info) !! k) ∨
  ∃ q, is_Some (prefixEntries (collected info) !! q) ∧ trimRightByte q "/" = k ∧ k ≠ "".
Proof.
  split.
  - intros [e He].
    pose proof (expanded_exact_lookup _ _ _ _ _ _ He)
      as (_ & Hne & [Horig|(_ & q & pe & Hq & Hk & _)]); [left; eauto|].
    right. exists q. eauto.
  - intros [[e He]|(q & [pe Hq] & Hk & Hne)].
    + exists e. unfold gateway.expanded. by apply expand_exact_keep.
    + pose proof (collected_prefix_lookup _ _ _ _ _ Hq) as (_ & _ & HP & _).
      rewrite <- Hk, <- HP.
      apply (expand_exact_dom _ _ (q, pe)); [by apply elem_of_range|].
      simpl. by rewrite HP, Hk.
Qed.

Lemma exact_path_appended po eo info x :
  (∃ e, e ∈ produced po eo info ∧ kindOf (Entry_Match e) = Exact ∧
        ExactPath (Entry_Match e) = x) ↔
  is_Some (exactEntries (expanded po info) !! x).
Proof.
  split.
  - intros (e & He & Hk & Hx).
    assert (e ∈ filter (λ e, kindOf (Entry_Match e) = Exact) (produced po eo info)) as Hin.
    { by apply list_elem_of_filter. }
    destruct (produced_by_kind WildcardHostname match_Hostnames po eo info) as (_ & _ & Hex).
    rewrite Hex in Hin. apply elem_of_exactPart in Hin as (k & Hlk).
    pose proof (expanded_exact_lookup _ _ _ _ _ _ Hlk) as (HE & _).
    exists e. congruence.
  - intros [e He]. exists e.
    pose proof (expanded_exact_lookup _ _ _ _ _ _ He) as (HE & Hne & _).
    assert (e ∈ gateway.exactPart WildcardHostname match_Hostnames po eo info) as Hin.
    { apply elem_of_exactPart. eauto. }
    split_and!; [|by apply (exactPart_kind WildcardHostname match_Hostnames po eo info)|done].
    rewrite produced_parts, !elem_of_app. by right; right.
Qed.

(** X16. Two runs on the same input that differ only in the orders in which
    Go ranges over the two accumulators append the same number of entries,
    the same entries without a path in the same order, the same prefix
    entries up to their order, and exact entries for the same paths. *)
Theorem iteration_order_leaves_paths_alone po eo po' eo' info :
  length (produced po eo info) = length (produced po' eo' info) ∧
  filter (λ e, kindOf (Entry_Match e) = Other) (produced po eo info) =
    filter (λ e, kindOf (Entry_Match e) = Other) (produced po' eo' info) ∧
  filter (λ e, kindOf (Entry_Match e) = Prefix) (produced po eo info) ≡ₚ
    filter (λ e, kindOf (Entry_Match e) = Prefix) (produced po' eo' info) ∧
  (∀ x,
     (∃ e, e ∈ produced po eo info ∧ kindOf (Entry_Match e) = Exact ∧
           ExactPath (Entry_Match e) = x) ↔
     (∃ e, e ∈ produced po' eo' info ∧ kindOf (Entry_Match e) = Exact ∧
           ExactPath (Entry_Match e) = x)).
Proof.
  assert (dom (exactEntries (expanded po info)) =
          dom (exactEntries (expanded po' info))) as Hdom.
  { apply set_eq. intros k. by rewrite !elem_of_dom, !expanded_exact_is_Some. }
  split_and!.
  - rewrite !produced_parts, !length_app.
    unfold gateway.prefixPart, gateway.exactPart.
    rewrite !length_fmap, !length_range.
    rewrite <- (size_dom (exactEntries (expanded po info))), Hdom, size_dom. done.
  - destruct (produced_by_kind WildcardHostname match_Hostnames po eo info) as (-> & _).
    by destruct (produced_by_kind WildcardHostname match_Hostnames po' eo' info) as (-> & _).
  - destruct (produced_by_kind WildcardHostname match_Hostnames po eo info) as (_ & -> & _).
    destruct (produced_by_kind WildcardHostname match_Hostnames po' eo' info) as (_ & -> & _).
    unfold gateway.prefixPart. by rewrite !range_perm.
  - intros x. by rewrite !exact_path_appended, !expanded_exact_is_Some.
Qed.

(** X9. What a call appends does not depend on what the route table
    already holds, so a call is not idempotent on the table: a second call
    on the result of a first appends, after the entries of the first, what
    it would have appended to the original table.  The two calls may range
    over the accumulators in different orders. *)
Theorem GenerateHost_ignores_the_table po eo po' eo' info :
  (∀ es, produced po eo (setEntries info es) = produced po eo info) ∧
  Entries (RouteTable
             (gateway.GenerateHost WildcardHostname match_Hostnames po' eo'
                (gateway.GenerateHost WildcardHostname match_Hostnames po eo info).1).1) =
    Entries (RouteTable info) ++ produced po eo info ++ produced po' eo' info.
Proof.
  split; [intros es; apply produced_setEntries|].
  rewrite GenerateHost_appends, GenerateHost_state, produced_setEntries. simpl.
  by rewrite <- app_assoc.
Qed.

End TwoRuns.

(** ** The properties at the documented scenarios *)

Lemma exact_paths_are_unique_witness :
  (length (filter (λ e, ExactPath (Entry_Match e) = "/foo")
             (produced "*" hostnameListed (listedOrder _) (listedOrder _) scenarioA)) ≤ 1)%nat.
Proof.
  apply (exact_paths_are_unique "*" hostnameListed (listedOrder _) (listedOrder _)
           scenarioA "/foo").
  discriminate.
Defined.

Lemma last_exact_rule_wins_witness :
  filter (λ e', ExactPath (Entry_Match e') = "/foo")
    (produced "*" hostnameListed (listedOrder _) (listedOrder _) scenarioA) =
    [setMatch Entry_zero (withExactPath Match_zero "/foo")].
Proof.
  apply (last_exact_rule_wins "*" hostnameListed (listedOrder _) (listedOrder _)
           scenarioA
           [setMatch Entry_zero (withPrefixPath Match_zero "/foo")]
           (setMatch Entry_zero (withExactPath Match_zero "/foo")) [] "/foo").
  - vm_compute. reflexivity.
  - reflexivity.
  - discriminate.
  - intros e' He'. by apply elem_of_nil in He'.
Defined.

Lemma produced_payload_comes_from_a_rule_witness :
  ∃ r rule,
    r ∈ gatewayRoutesOf "*" hostnameListed scenarioB ∧ rule ∈ rulesOf r ∧
    Entry_Action (setMatch (makeRouteEntry scenarioB_rule) (withMethod Match_zero "GET")) =
      Entry_Action (makeRouteEntry rule) ∧
    Entry_Mirror (setMatch (makeRouteEntry scenarioB_rule) (withMethod Match_zero "GET")) =
      Entry_Mirror (makeRouteEntry rule) ∧
    Entry_RequestHeaders (setMatch (makeRouteEntry scenarioB_rule) (withMethod Match_zero "GET")) =
      Entry_RequestHeaders (makeRouteEntry rule).
Proof.
  apply (produced_payload_comes_from_a_rule "*" hostnameListed
           (listedOrder _) (listedOrder _) scenarioB).
  vm_compute. right. left.
Defined.

Lemma every_alternative_is_served_witness :
  ∃ e', e' ∈ produced "*" hostnameListed (listedOrder _) (listedOrder _) twoPrefixes ∧
        PrefixPath (Entry_Match e') = "/foo/".
Proof.
  apply (every_alternative_is_served "*" hostnameListed (listedOrder _) (listedOrder _)
           twoPrefixes
           (setMatch
              (makeRouteEntry
                 (pathRule mesh_proto.Path.PREFIX "/foo" []
                    [mesh_proto.Backend.mk 1%Z {[ "kuma.io/service" := "a" ]}]))
              (withPrefixPath Match_zero "/foo"))).
  vm_compute. left.
Defined.

End gateway_table.

(* ===================================================================== *)
(** * Further properties: the TLS context helpers                         *)
(* ===================================================================== *)

Module tls_more.
Import envoy_type_matcher xds_context strings_facts.

Section MeshContexts.
Import envoy_tls v3.

Variable MeshCaResource IdentityCertResource : string.
Variable KumaALPNProtocols : list string.

#[local] Abbreviation CreateDownstreamTlsContext :=
  (v3.CreateDownstreamTlsContext MeshCaResource IdentityCertResource).
#[local] Abbreviation CreateUpstreamTlsContext :=
  (v3.CreateUpstreamTlsContext MeshCaResource IdentityCertResource KumaALPNProtocols).

(** X17. The two mesh helpers never return an error, and each returns a
    context exactly when mTLS is enabled in the mesh, whatever the target
    service and the SNI. *)
Theorem tls_context_iff_mtls_enabled ctx upstreamService sni :
  (CreateDownstreamTlsContext ctx).2 = None ∧
  (CreateUpstreamTlsContext ctx upstreamService sni).2 = None ∧
  (is_Some (CreateDownstreamTlsContext ctx).1 ↔ enabled ctx = true) ∧
  (is_Some (CreateUpstreamTlsContext ctx upstreamService sni).1 ↔ enabled ctx = true).
Proof.
  unfold enabled, v3.CreateDownstreamTlsContext, v3.CreateUpstreamTlsContext.
  destruct (MTLSEnabled (Mesh_Resource (Mesh ctx))); simpl.
  - split_and!; try done; split; eauto.
  - split_and!; try done; split; try done; by intros [? ?].
Qed.

(** X18. With mTLS enabled, the contexts of both directions take the trust
    anchor from the mesh CA secret and the own certificate from the
    identity secret, both fetched by name over ADS in the v3 API, and each
    verifies the peer against exactly one matcher.  The downstream context
    requires a client certificate and offers no ALPN protocol; the
    upstream context offers the mesh-wide ALPN list and carries the SNI it
    was given, and neither the SNI nor the target changes its secrets. *)
Theorem mesh_contexts_use_the_mesh_secrets ctx upstreamService sni :
  enabled ctx = true →
  ∃ d c,
    CreateDownstreamTlsContext ctx = (Some d, None) ∧
    CreateUpstreamTlsContext ctx upstreamService sni = (Some c, None) ∧
    RequireClientCertificate d = Some true ∧
    AlpnProtocols (Downstream_CommonTlsContext d) = [] ∧
    AlpnProtocols (Upstream_CommonTlsContext c) = KumaALPNProtocols ∧
    Sni c = sni ∧
    TlsCertificateSdsSecretConfigs (Downstream_CommonTlsContext d) =
      [sdsSecretConfig IdentityCertResource] ∧
    TlsCertificateSdsSecretConfigs (Upstream_CommonTlsContext c) =
      [sdsSecretConfig IdentityCertResource] ∧
    ValidationContextSdsSecretConfig <$> CombinedValidationContext (Downstream_CommonTlsContext d) =
      Some (sdsSecretConfig MeshCaResource) ∧
    ValidationContextSdsSecretConfig <$> CombinedValidationContext (Upstream_CommonTlsContext c) =
      Some (sdsSecretConfig MeshCaResource) ∧
    length (sanMatchers (Downstream_CommonTlsContext d)) = 1%nat ∧
    length (sanMatchers (Upstream_CommonTlsContext c)) = 1%nat ∧
    (∀ name, Name (sdsSecretConfig name) = name ∧
             SdsConfig (sdsSecretConfig name) =
               envoy_core.mkConfigSource envoy_core.ApiVersion_V3 envoy_core.ConfigSource_Ads).
Proof.
  unfold enabled, v3.CreateDownstreamTlsContext, v3.CreateUpstreamTlsContext.
  intros ->. simpl. eexists _, _. split_and!; reflexivity || done.
Qed.

End MeshContexts.

Lemma mesh_contexts_use_the_mesh_secrets_witness :
  ∃ d c,
    v3.CreateDownstreamTlsContext "mesh_ca" "identity_cert" v3.meshEnabled = (Some d, None) ∧
    v3.CreateUpstreamTlsContext "mesh_ca" "identity_cert" ["kuma"] v3.meshEnabled
      "backend" "backend.mesh" = (Some c, None) ∧
    envoy_tls.RequireClientCertificate d = Some true ∧
    envoy_tls.AlpnProtocols (envoy_tls.Downstream_CommonTlsContext d) = [] ∧
    envoy_tls.AlpnProtocols (envoy_tls.Upstream_CommonTlsContext c) = ["kuma"] ∧
    envoy_tls.Sni c = "backend.mesh" ∧
    envoy_tls.TlsCertificateSdsSecretConfigs (envoy_tls.Downstream_CommonTlsContext d) =
      [v3.sdsSecretConfig "identity_cert"] ∧
    envoy_tls.TlsCertificateSdsSecretConfigs (envoy_tls.Upstream_CommonTlsContext c) =
      [v3.sdsSecretConfig "identity_cert"] ∧
    envoy_tls.ValidationContextSdsSecretConfig
      <$> envoy_tls.CombinedValidationContext (envoy_tls.Downstream_CommonTlsContext d) =
      Some (v3.sdsSecretConfig "mesh_ca") ∧
    envoy_tls.ValidationContextSdsSecretConfig
      <$> envoy_tls.CombinedValidationContext (envoy_tls.Upstream_CommonTlsContext c) =
      Some (v3.sdsSecretConfig "mesh_ca") ∧
    length (v3.sanMatchers (envoy_tls.Downstream_CommonTlsContext d)) = 1%nat ∧
    length (v3.sanMatchers (envoy_tls.Upstream_CommonTlsContext c)) = 1%nat ∧
    (∀ name, envoy_tls.Name (v3.sdsSecretConfig name) = name ∧
             envoy_tls.SdsConfig (v3.sdsSecretConfig name) =
               envoy_core.mkConfigSource envoy_core.ApiVersion_V3 envoy_core.ConfigSource_Ads).
Proof.
  apply (mesh_contexts_use_the_mesh_secrets "mesh_ca" "identity_cert" ["kuma"]
           v3.meshEnabled "backend" "backend.mesh").
  reflexivity.
Defined.

(** X19. The helper for upstreams outside the mesh never fails and always
    returns a context with the SNI and the renegotiation flag it was
    given.  The context presents a client certificate only when both the
    certificate and the key are there: one without the other is left out
    without an error.  It verifies the server only when a CA is there, and
    then against that CA and the exact hostname; without a CA it verifies
    nothing, the hostname included. *)
Theorem outside_mesh_context ca cert key allowRenegotiation hostname sni :
  ∃ c,
    outside_mesh.UpstreamTlsContextOutsideMesh ca cert key allowRenegotiation hostname sni =
      (Some c, None) ∧
    outside_mesh.Sni c = sni ∧
    outside_mesh.AllowRenegotiation c = allowRenegotiation ∧
    (outside_mesh.TlsCertificates (outside_mesh.Upstream_CommonTlsContext c) =
       if decide (is_Some cert ∧ is_Some key)
       then [outside_mesh.mkTlsCertificate (outside_mesh.mkDataSource cert)
               (outside_mesh.mkDataSource key)]
       else []) ∧
    (outside_mesh.ValidationContext (outside_mesh.Upstream_CommonTlsContext c) =
       if decide (is_Some ca)
       then Some (outside_mesh.mkCertificateValidationContext
                    (outside_mesh.mkDataSource ca) [StringMatcher_Exact hostname])
       else None).
Proof.
  eexists. split; [reflexivity|]. simpl. split_and!; try done.
  - destruct cert, key; case_decide as H; try done;
      solve [ exfalso; apply H; split; eauto
            | destruct H as [[? ?] [? ?]]; done ].
  - destruct ca; case_decide as H; try done;
      solve [ exfalso; apply H; eauto | destruct H; done ].
Qed.

End tls_more.

(* ===================================================================== *)
(** * Further properties: the dataplane metadata decoder                  *)
(* ===================================================================== *)

Module xds_more.
Import xds effects structpb xds_claims xds_more_inputs.

(** ** Decimal numbers and [strconv.Atoi] *)

Lemma digitOf_pretty_N_char d :
  (d < 10)%N → strconv.digitOf (pretty_N_char d) = Some (Z.of_N d).
Proof.
  intros Hd.
  assert (d = 0 ∨ d = 1 ∨ d = 2 ∨ d = 3 ∨ d = 4 ∨ d = 5 ∨ d = 6 ∨ d = 7 ∨ d = 8 ∨ d = 9)%N
    as Hcases by lia.
  repeat (destruct Hcases as [->|Hcases]; [reflexivity|]). by subst.
Qed.

Lemma digitsFrom_cons a ch s :
  strconv.digitsFrom a (String ch s) =
    match strconv.digitOf ch with
    | Some d => strconv.digitsFrom (a * 10 + d)%Z s
    | None => None
    end.
Proof. reflexivity. Qed.

(** The digits [pretty_N_go] puts in front of a string are read back as
    the number they render. *)
Lemma digitsFrom_pretty_N_go x s :
  ∃ k : Z, ∀ a,
    strconv.digitsFrom a (pretty_N_go x s) = strconv.digitsFrom (a * k + Z.of_N x)%Z s.
Proof.
  revert s. induction (N.lt_wf_0 x) as [x _ IH]; intros s.
  destruct (decide (x = 0)%N) as [->|Hx].
  - exists 1%Z. intros a. rewrite pretty_N_go_0. f_equal. lia.
  - rewrite pretty_N_go_step by lia.
    destruct (IH (x `div` 10)%N) with (s := String (pretty_N_char (x `mod` 10)) s)
      as [k Hk].
    { apply N.div_lt; lia. }
    exists (k * 10)%Z. intros a. rewrite Hk, digitsFrom_cons.
    rewrite digitOf_pretty_N_char by (apply N.mod_lt; lia).
    f_equal. pose proof (N.div_mod x 10). lia.
Qed.

Lemma pretty_N_go_nonempty x s : s ≠ "" → pretty_N_go x s ≠ "".
Proof.
  revert s. induction (N.lt_wf_0 x) as [x _ IH]; intros s Hs.
  destruct (decide (x = 0)%N) as [->|Hx].
  - by rewrite pretty_N_go_0.
  - rewrite pretty_N_go_step by lia. apply IH; [apply N.div_lt; lia|done].
Qed.

(** The decimal rendering of a positive number: not empty, no sign, and
    read back as the number. *)
Lemma pretty_positive_digits (p : positive) :
  ∃ ch rest,
    pretty (Npos p) = String ch rest ∧
    ch ≠ "-"%char ∧ ch ≠ "+"%char ∧
    strconv.digitsFrom 0 (String ch rest) = Some (Zpos p).
Proof.
  assert (pretty (Npos p) = pretty_N_go (Npos p) "") as Hp.
  { unfold pretty, pretty_N. by rewrite decide_False. }
  assert (strconv.digitsFrom 0 (pretty (Npos p)) = Some (Zpos p)) as Hd.
  { rewrite Hp. destruct (digitsFrom_pretty_N_go (Npos p) "") as [k Hk]. by rewrite Hk. }
  assert (pretty (Npos p) ≠ "") as Hne.
  { rewrite Hp, pretty_N_go_step by lia. by apply pretty_N_go_nonempty. }
  destruct (pretty (Npos p)) as [|ch rest]; [done|].
  exists ch, rest. split_and!; try done.
  - intros ->. by rewrite digitsFrom_cons in Hd.
  - intros ->. by rewrite digitsFrom_cons in Hd.
Qed.

(** [strconv.Atoi] reads the decimal rendering of every integer that fits
    an [int]. *)
Lemma Atoi_pretty sz (n : Z) :
  (- 2 ^ (strconv.intBits sz - 1) ≤ n < 2 ^ (strconv.intBits sz - 1))%Z →
  strconv.Atoi sz (pretty n) = Some n.
Proof.
  intros Hn. destruct n as [|p|p].
  - by destruct sz.
  - change (pretty (Zpos p)) with (pretty (Npos p)).
    destruct (pretty_positive_digits p) as (ch & rest & -> & Hm & Hp & Hd).
    unfold strconv.Atoi.
    rewrite decide_False by (by intros [?|?]).
    rewrite Hd, bool_decide_eq_false_2 by done.
    by rewrite decide_True.
  - change (pretty (Zneg p)) with (String "-" (pretty (Npos p))).
    destruct (pretty_positive_digits p) as (ch & rest & Hpp & _ & _ & Hd).
    unfold strconv.Atoi.
    rewrite decide_True by (by left).
    rewrite Hpp, Hd, bool_decide_eq_true_2 by done.
    by rewrite decide_True.
Qed.

(** ** The port fields *)

(** X20. A port written in decimal is read back: when a field holds the
    decimal rendering of an integer [n] that fits an [int], the port
    decoder returns [n] reduced modulo 2^32 and logs nothing; so every
    port from 0 to 2^32 - 1 that fits an [int] decodes to itself. *)
Theorem port_in_decimal_is_read_back sz fields field (n : Z) log :
  (- 2 ^ (strconv.intBits sz - 1) ≤ n < 2 ^ (strconv.intBits sz - 1))%Z →
  fields !! field = Some (StringValue (pretty n)) →
  uint32Metadata sz (Some fields) field log = (Returned (n mod 2 ^ 32)%Z, log) ∧
  ((0 ≤ n < 2 ^ 32)%Z →
   uint32Metadata sz (Some fields) field log = (Returned n, log)).
Proof.
  intros Hn Hf.
  assert (uint32Metadata sz (Some fields) field log = (Returned (n mod 2 ^ 32)%Z, log)) as H.
  { unfold uint32Metadata. rewrite Hf. simpl. by rewrite Atoi_pretty. }
  split; [done|]. intros Hport. by rewrite H, Z.mod_small.
Qed.

Lemma port_in_decimal_is_read_back_witness :
  uint32Metadata strconv.Int64 (Some {[ "dataplane.admin.port" := StringValue (pretty 9901%Z) ]})
    "dataplane.admin.port" [] = (Returned (9901 mod 2 ^ 32)%Z, []) ∧
  ((0 ≤ 9901 < 2 ^ 32)%Z →
   uint32Metadata strconv.Int64
     (Some {[ "dataplane.admin.port" := StringValue (pretty 9901%Z) ]})
     "dataplane.admin.port" [] = (Returned 9901%Z, [])).
Proof.
  apply (port_in_decimal_is_read_back strconv.Int64
           {[ "dataplane.admin.port" := StringValue (pretty 9901%Z) ]}
           "dataplane.admin.port" 9901%Z []).
  - simpl. lia.
  - vm_compute. reflexivity.
Defined.

(** X21. On a bag that is there the port decoder always returns: the port is
    in the range of a [uint32], the log keeps what it held and gets at
    most one more record, and a field the bag does not have gives port 0
    and no record. *)
Theorem uint32Metadata_is_total_and_bounded sz fields field log :
  ∃ port log',
    uint32Metadata sz (Some fields) field log = (Returned port, log') ∧
    (0 ≤ port < 2 ^ 32)%Z ∧
    (log' = log ∨ ∃ record, log' = log ++ [record] ∧ port = 0%Z) ∧
    (fields !! field = None → port = 0%Z ∧ log' = log).
Proof.
  unfold uint32Metadata. destruct (fields !! field) as [value|].
  - destruct (strconv.Atoi sz _) as [port|].
    + eexists _, _. split; [reflexivity|].
      split; [apply toUint32_range|]. split; [by left|done].
    + eexists _, _. split; [reflexivity|].
      split; [lia|]. split; [right; eauto|done].
  - eexists _, _. split; [reflexivity|]. split; [lia|]. split; [by left|done].
Qed.

(** X22. A port that the bag holds as anything but a string (a number, a
    boolean, a struct, a list, null) is not read: it decodes to 0 with one
    log record. *)
Theorem port_that_is_not_a_string_is_rejected sz fields field value log :
  fields !! field = Some value →
  (∀ s, value ≠ StringValue s) →
  ∃ record, uint32Metadata sz (Some fields) field log = (Returned 0%Z, log ++ [record]).
Proof.
  intros Hf Hv. unfold uint32Metadata. rewrite Hf.
  assert (GetStringValue (Some value) = "") as ->.
  { destruct value; try done. by destruct (Hv s). }
  simpl. eexists. reflexivity.
Qed.

Lemma port_that_is_not_a_string_is_rejected_witness :
  ∃ record,
    uint32Metadata strconv.Int64 (Some numericPort) fieldDataplaneAdminPort [] =
      (Returned 0%Z, [] ++ [record]).
Proof.
  apply (port_that_is_not_a_string_is_rejected strconv.Int64 numericPort
           fieldDataplaneAdminPort (NumberValue 9901%Z) []).
  - vm_compute. reflexivity.
  - intros s. discriminate.
Defined.

(** ** The decoded record *)

Section DecodedRecordUse.

Variable DataplaneProxyType : string.
Variable UnmarshallToCore : string → option model.Resource * option core_xds.error.
Variable ToTyped : Struct → Version * option core_xds.error.
Variable intSize : strconv.IntSize.

#[local] Abbreviation decode :=
  (DataplaneMetadataFromXdsMetadata UnmarshallToCore ToTyped intSize).

(** X23. The decoder returns a record on the nil bag, and on a bag that is
    there it returns a record exactly when the bag has no embedded
    resource or one that [rest.UnmarshallToCore] turns into a resource;
    otherwise it panics.  The ports, the version and the other fields never
    make it fail. *)
Theorem decoder_fails_only_on_a_nil_resource fields log :
  (∀ log0, decode None log0 = (Returned DataplaneMetadata_zero, log0)) ∧
  ((∃ metadata log', decode (Some fields) log = (Returned metadata, log')) ↔
   (∀ value, fields !! fieldDataplaneDataplaneResource = Some value →
             is_Some (UnmarshallToCore (GetStringValue (Some value))).1)) ∧
  ((∃ reason log', decode (Some fields) log = (Panicked reason, log')) ↔
   (∃ value, fields !! fieldDataplaneDataplaneResource = Some value ∧
             (UnmarshallToCore (GetStringValue (Some value))).1 = None)).
Proof.
  assert ((∃ value, fields !! fieldDataplaneDataplaneResource = Some value ∧
                    (UnmarshallToCore (GetStringValue (Some value))).1 = None) →
          ∃ reason log', decode (Some fields) log = (Panicked reason, log')) as Hpanic.
  { intros (value & Hv & Hnil).
    destruct (decode_until_resource UnmarshallToCore ToTyped intSize fields log)
      as (metadata & log1 & -> & _).
    rewrite Hv.
    destruct (UnmarshallToCore (GetStringValue (Some value))) as [res err] eqn:Hu.
    simpl in Hnil. subst res.
    destruct (decodeResource_panics UnmarshallToCore metadata value err log1 Hu)
      as (reason & log' & Hp).
    rewrite (bind_panicked _ _ _ _ _ Hp). eauto. }
  split_and!; [done| |].
  - split; [|apply decode_returns].
    intros (metadata & log' & Hret) value Hv.
    destruct ((UnmarshallToCore (GetStringValue (Some value))).1) eqn:Hu; [eauto|].
    destruct Hpanic as (reason & log'' & Hp); [eauto|]. congruence.
  - split; [|done].
    intros (reason & log' & Hp).
    destruct (fields !! fieldDataplaneDataplaneResource) as [value|] eqn:Hv.
    + exists value. split; [done|].
      destruct ((UnmarshallToCore (GetStringValue (Some value))).1) eqn:Hu; [|done].
      destruct (decode_returns UnmarshallToCore ToTyped intSize fields log)
        as (m & l & Hret).
      { intros value' Hv'. rewrite Hv in Hv'. injection Hv' as <-. rewrite Hu. eauto. }
      congruence.
    + destruct (decode_returns UnmarshallToCore ToTyped intSize fields log)
        as (m & l & Hret).
      { intros value' Hv'. by rewrite Hv in Hv'. }
      congruence.
Qed.

(** X24. The dynamic metadata is read back by key: after decoding, the
    accessor returns for every key the string the nested struct holds
    under it, and the empty string when the key is missing, when its
    value is not a string, or when the bag has no nested struct. *)
Theorem dynamic_metadata_is_read_back fields log metadata log' key :
  decode (Some fields) log = (Returned metadata, log') →
  GetDynamicMetadata (Some metadata) key =
    match fields !! fieldDynamicMetadata with
    | Some (StructValue nested) => GetStringValue (nested !! key)
    | _ => ""
    end.
Proof.
  intros Hret.
  pose proof (decode_record _ _ _ _ _ _ _ Hret) as (_ & _ & _ & _ & _ & _ & Hdm & _).
  unfold GetDynamicMetadata. rewrite Hdm.
  destruct (fields !! fieldDynamicMetadata) as [[]|]; simpl;
    rewrite ?lookup_fmap, ?lookup_empty; try done.
  by destruct (_ !! key).
Qed.

(** X25. A decoded record never holds a resource of an unsupported type: its
    resource is nil, a dataplane or a zone ingress, so the two resource
    accessors together tell the whole field, and they never both return a
    resource. *)
Theorem decoded_resource_is_of_an_accepted_kind fields log metadata log' :
  decode (Some fields) log = (Returned metadata, log') →
  (Resource metadata = None ∧
   GetDataplaneResource (Some metadata) = None ∧
   GetZoneIngressResource (Some metadata) = None) ∨
  (∃ d, Resource metadata = Some (model.Dataplane d) ∧
        GetDataplaneResource (Some metadata) = Some d ∧
        GetZoneIngressResource (Some metadata) = None) ∨
  (∃ z, Resource metadata = Some (model.ZoneIngress z) ∧
        GetDataplaneResource (Some metadata) = None ∧
        GetZoneIngressResource (Some metadata) = Some z).
Proof.
  intros Hret.
  pose proof (decode_record _ _ _ _ _ _ _ Hret) as (_ & _ & _ & _ & _ & Hres & _).
  unfold GetDataplaneResource, GetZoneIngressResource. rewrite Hres.
  unfold acceptedResource.
  destruct (fields !! fieldDataplaneDataplaneResource) as [value|]; [|by left].
  destruct ((UnmarshallToCore (GetStringValue (Some value))).1) as [[d|z|g|n]|];
    eauto 10.
Qed.

(** X26. The proxy type accessor never returns the empty string when the
    default proxy type is not empty: on a decoded record it returns the
    proxy type string of the bag, and the default when the bag has none,
    an empty one, or one that is not a string. *)
Theorem proxy_type_defaults fields log metadata log' :
  decode (Some fields) log = (Returned metadata, log') →
  GetProxyType DataplaneProxyType (Some metadata) =
    (if decide (GetStringValue (fields !! fieldDataplaneProxyType) = "")
     then DataplaneProxyType
     else GetStringValue (fields !! fieldDataplaneProxyType)) ∧
  (DataplaneProxyType ≠ "" → GetProxyType DataplaneProxyType (Some metadata) ≠ "").
Proof.
  intros Hret.
  pose proof (decode_record _ _ _ _ _ _ _ Hret) as (_ & Hpt & _).
  unfold GetProxyType. rewrite Hpt. split; [done|].
  intros Hd. by case_decide.
Qed.

End DecodedRecordUse.

Lemma dynamic_metadata_is_read_back_witness :
  GetDynamicMetadata (Some fullBagDecoded) "zone" =
    match fullBag !! fieldDynamicMetadata with
    | Some (StructValue nested) => GetStringValue (nested !! "zone")
    | _ => ""
    end.
Proof.
  apply (dynamic_metadata_is_read_back unmarshalKnown toTypedKnown strconv.Int64
           fullBag [] fullBagDecoded [] "zone").
  vm_compute. reflexivity.
Defined.

Lemma decoded_resource_is_of_an_accepted_kind_witness :
  (Resource fullBagDecoded = None ∧
   GetDataplaneResource (Some fullBagDecoded) = None ∧
   GetZoneIngressResource (Some fullBagDecoded) = None) ∨
  (∃ d, Resource fullBagDecoded = Some (model.Dataplane d) ∧
        GetDataplaneResource (Some fullBagDecoded) = Some d ∧
        GetZoneIngressResource (Some fullBagDecoded) = None) ∨
  (∃ z, Resource fullBagDecoded = Some (model.ZoneIngress z) ∧
        GetDataplaneResource (Some fullBagDecoded) = None ∧
        GetZoneIngressResource (Some fullBagDecoded) = Some z).
Proof.
  apply (decoded_resource_is_of_an_accepted_kind unmarshalKnown toTypedKnown
           strconv.Int64 fullBag [] fullBagDecoded []).
  vm_compute. reflexivity.
Defined.

Lemma proxy_type_defaults_witness :
  GetProxyType "dataplane" (Some fullBagDecoded) =
    (if decide (GetStringValue (fullBag !! fieldDataplaneProxyType) = "")
     then "dataplane"
     else GetStringValue (fullBag !! fieldDataplaneProxyType)) ∧
  ("dataplane" ≠ "" → GetProxyType "dataplane" (Some fullBagDecoded) ≠ "").
Proof.
  apply (proxy_type_defaults "dataplane" unmarshalKnown toTypedKnown strconv.Int64
           fullBag [] fullBagDecoded []).
  vm_compute. reflexivity.
Defined.

End xds_more.
